(** * Verification of the PostgreSQL migration runner (migrate.py)

    A shallow embedding of [Migration], [MigrationRunner] and [main], and
    the properties of the migration engine: template rendering, discovery
    and ordering of pending migrations, the apply/record protocol,
    callbacks and connection handling, seed scripts, the status report
    and the exit status of the command line.

    How the program is modelled:
    - a method of the runner is a function from the world (the database
      server and [self.conn]) to an outcome (a returned value or a raised
      exception), the world it leaves and the log of the calls it made on
      its collaborators ([psycopg2], [print]); the log is an observation,
      not a part of the state;
    - a directory is a finite map from file names to contents, a Python
      dictionary a finite map, the ledger table the list of its rows in
      [installed_rank] order;
    - SQL scripts are opaque: whether the server accepts one is asked of
      two oracles, [execute_ok] and [commit_ok], which see the scripts
      committed so far; scripts do not touch [schema_migrations];
    - whether the server lets the runner create the target database or
      the ledger table is asked of a third oracle, [create_ok]; a
      [CREATE TABLE IF NOT EXISTS] for a table that exists is accepted,
      and so is the query on [pg_database] once the connection is made;
    - the ledger table obeys its [CREATE TABLE] statement: [script] is
      unique and the [VARCHAR] columns have their widths, in characters;
    - a file is a string of bytes.  [open(path, "rb")] reads the bytes;
      [open(path)] decodes them with the codec of the locale, taken to be
      UTF-8, and turns every line ending into a line feed, or raises
      [UnicodeDecodeError].  A Python text is held as its UTF-8 encoding:
      file names, the user name and the template values are such texts,
      compared byte-wise, which is the order of their code points;
    - [hashlib.md5] is a parameter; wall-clock readings ([installed_on],
      [execution_time]) and the console texts are left out;
    - [main] starts from the parsed arguments; interrupts from the
      keyboard are not modelled. *)

From Stdlib Require Import Ascii String.
From stdpp Require Import base list strings sorting gmap fin_maps.

(** * Strings *)

Module Str.

(** [str.endswith] *)
Definition endswith (s suffix : string) : bool :=
  let n := String.length s in
  let k := String.length suffix in
  (k <=? n)%nat && String.eqb (String.substring (n - k) k s) suffix.

(** [str.replace] of one character by another. *)
Fixpoint replace_char (old new : ascii) (s : string) : string :=
  match s with
  | EmptyString => EmptyString
  | String c s' =>
      String (if Ascii.eqb c old then new else c) (replace_char old new s')
  end.

(** [str.rfind(".")], counting positions from [pos]. *)
Fixpoint rfind_dot (pos : nat) (s : string) : option nat :=
  match s with
  | EmptyString => None
  | String c s' =>
      match rfind_dot (S pos) s' with
      | Some i => Some i
      | None => if Ascii.eqb c "." then Some pos else None
      end
  end.

(** [PurePath.stem]: the name without its last suffix; a leading or a
    trailing dot does not start a suffix. *)
Definition stem (name : string) : string :=
  match rfind_dot 0 name with
  | Some i =>
      if (0 <? i)%nat && (i <? String.length name - 1)%nat
      then String.substring 0 i name
      else name
  | None => name
  end.

Fixpoint all_spaces (s : string) : bool :=
  match s with
  | EmptyString => true
  | String c s' => Ascii.eqb c " " && all_spaces s'
  end.

(** Strict byte-wise order on file names. *)
Definition lt (a b : string) : Prop := String.le a b ∧ a ≠ b.

End Str.

(** * Text *)

Module Text.

Definition between (lo hi : nat) (c : ascii) : bool :=
  (lo <=? nat_of_ascii c)%nat && (nat_of_ascii c <=? hi)%nat.

(** A continuation byte of UTF-8, [10xxxxxx]: every byte of a character
    but its first. *)
Definition continuation (c : ascii) : bool := between 128 191 c.

(** The first two bytes of a character of two, three and four bytes
    (The Unicode Standard, table 3-7): no overlong form, no surrogate,
    nothing above U+10FFFF. *)
Definition lead2 (b0 : ascii) : bool := between 194 223 b0.
Definition lead3 (b0 b1 : ascii) : bool :=
  between 224 224 b0 && between 160 191 b1 ||
  between 225 236 b0 && continuation b1 ||
  between 237 237 b0 && between 128 159 b1 ||
  between 238 239 b0 && continuation b1.
Definition lead4 (b0 b1 : ascii) : bool :=
  between 240 240 b0 && between 144 191 b1 ||
  between 241 243 b0 && continuation b1 ||
  between 244 244 b0 && between 128 143 b1.

(** The byte strings that the strict [utf-8] codec decodes. *)
Fixpoint well_formed (s : string) : bool :=
  match s with
  | EmptyString => true
  | String b0 s1 =>
      if between 0 127 b0 then well_formed s1
      else
        match s1 with
        | EmptyString => false
        | String b1 s2 =>
            if lead2 b0 then continuation b1 && well_formed s2
            else
              match s2 with
              | EmptyString => false
              | String b2 s3 =>
                  if lead3 b0 b1 then continuation b2 && well_formed s3
                  else
                    match s3 with
                    | EmptyString => false
                    | String b3 s4 =>
                        lead4 b0 b1 && continuation b2 && continuation b3
                        && well_formed s4
                    end
              end
        end
  end.

(** Universal newlines, the default of [open] in text mode: a carriage
    return, with the line feed that follows it if there is one, is read
    as one line feed.  [after_cr] tells that the byte before was a
    carriage return. *)
Fixpoint newlines (after_cr : bool) (s : string) : string :=
  match s with
  | EmptyString => EmptyString
  | String c s' =>
      if Ascii.eqb c "013" then String "010" (newlines true s')
      else if Ascii.eqb c "010" && after_cr then newlines false s'
      else String c (newlines false s')
  end.

(** What [open(path).read()] makes of the bytes of a file; [None] stands
    for [UnicodeDecodeError]. *)
Definition decode (content : string) : option string :=
  if well_formed content then Some (newlines false content) else None.

(** [len(text)]: a character starts at every byte that is not a
    continuation byte. *)
Fixpoint length (text : string) : nat :=
  match text with
  | EmptyString => 0
  | String c rest => (if continuation c then 0 else 1) + length rest
  end.

(** [text[:n]]: the first [n] characters. *)
Fixpoint take (n : nat) (text : string) : string :=
  match text with
  | EmptyString => EmptyString
  | String c rest =>
      if continuation c then String c (take n rest)
      else
        match n with
        | O => EmptyString
        | S n' => String c (take n' rest)
        end
  end.

(** [text[n:]]: the text after the first [n] characters. *)
Fixpoint drop (n : nat) (text : string) : string :=
  match text with
  | EmptyString => EmptyString
  | String c rest =>
      if continuation c then drop n rest
      else
        match n with
        | O => text
        | S n' => drop n' rest
        end
  end.

End Text.

Global Arguments Text.decode : simpl never.
Global Arguments Text.take : simpl never.

(** * Template renderer *)

Module Template.

Definition is_upper (c : ascii) : bool :=
  let n := nat_of_ascii c in (65 <=? n)%nat && (n <=? 90)%nat.
Definition is_lower (c : ascii) : bool :=
  let n := nat_of_ascii c in (97 <=? n)%nat && (n <=? 122)%nat.
Definition is_digit (c : ascii) : bool :=
  let n := nat_of_ascii c in (48 <=? n)%nat && (n <=? 57)%nat.

(** The character class [[A-Za-z_]]. *)
Definition ident_start (c : ascii) : bool :=
  is_upper c || is_lower c || Ascii.eqb c "_".
(** The character class [[A-Za-z0-9_]]. *)
Definition ident_char (c : ascii) : bool :=
  ident_start c || is_digit c.

(** The greedy starred class: the longest run of identifier characters and
    what follows it. *)
Fixpoint span_ident (s : string) : string * string :=
  match s with
  | String c s' =>
      if ident_char c
      then let '(run, rest) := span_ident s' in (String c run, rest)
      else (EmptyString, s)
  | EmptyString => (EmptyString, EmptyString)
  end.

(** The pattern of [render_sql_template] (a dollar sign, an opening
    brace, group 1 made of one [ident_start] character and a greedy run
    of [ident_char] characters, a closing brace) anchored at the start of
    [s]: group 1 and the text after the match.  The closing brace is not
    an identifier character, so the greedy run never has to give back. *)
Definition match_placeholder (s : string) : option (string * string) :=
  match s with
  | String "$" (String "{" (String c s')) =>
      if ident_start c then
        let '(run, rest) := span_ident s' in
        match rest with
        | String "}" rest' => Some (String c run, rest')
        | _ => None
        end
      else None
  | _ => None
  end.

(** [match.group(0)] for group 1 equal to [name]. *)
Definition group0 (name : string) : string := "${" +:+ name +:+ "}".

(** [replace_var]; the values of the mapping are strings, on which [str]
    is the identity. *)
Definition replace_var (vars : gmap string string) (name : string) : string :=
  match vars !! name with
  | Some v => v
  | None => group0 name
  end.

(** [re.sub]: scan from the left; at a match emit the replacement and go
    on after the match, else copy one character.  Every step consumes at
    least one character, so [String.length s] steps are enough. *)
Fixpoint re_sub (fuel : nat) (vars : gmap string string) (s : string) : string :=
  match fuel with
  | O => s
  | S fuel' =>
      match s with
      | EmptyString => EmptyString
      | String c s' =>
          match match_placeholder s with
          | Some (name, rest) => replace_var vars name +:+ re_sub fuel' vars rest
          | None => String c (re_sub fuel' vars s')
          end
      end
  end.

(** [MigrationRunner.render_sql_template] *)
Definition render_sql_template (vars : gmap string string) (sql_content : string) : string :=
  if decide (vars = ∅) then sql_content
  else re_sub (String.length sql_content) vars sql_content.

(** IDENTIFIER: a letter or underscore followed by letters, digits or
    underscores. *)
Fixpoint all_ident_chars (s : string) : bool :=
  match s with
  | EmptyString => true
  | String c s' => ident_char c && all_ident_chars s'
  end.

Definition valid_ident (name : string) : bool :=
  match name with
  | String c tl => ident_start c && all_ident_chars tl
  | EmptyString => false
  end.

(** Text that cannot continue a run of identifier characters. *)
Definition stops_run (s : string) : bool :=
  match s with
  | String c _ => negb (ident_char c)
  | EmptyString => true
  end.

(** The scan of [re.sub] with the fuel it needs. *)
Definition subst_all (vars : gmap string string) (s : string) : string :=
  re_sub (String.length s) vars s.

End Template.

(** * Data model *)

(** [Migration]: the dataclass built by [Migration.from_file].  A path is
    identified with the name of the file inside its directory. *)
Record Migration := mkMigration {
  filename : string;
  description : string;
  filepath : string;
  checksum : string;
}.

(** A row of [schema_migrations].  The list position of a row stands for
    [installed_rank]; [installed_on] and [execution_time] hold wall-clock
    readings and are left out. *)
Record LedgerRow := mkRow {
  row_script : string;
  row_description : string;
  row_checksum : string;
  row_installed_by : string;
  row_success : bool;
}.

Global Instance Migration_eq_dec : EqDecision Migration.
Proof. solve_decision. Defined.
Global Instance LedgerRow_eq_dec : EqDecision LedgerRow.
Proof. solve_decision. Defined.

(** A directory: file name to file content.  Names are unique by
    construction; the entries are readable regular files. *)
Abbreviation Directory := (gmap string string).

(** The fields of [MigrationRunner] that the migration engine reads ([host],
    [port] and [password] only reach [psycopg2.connect]). *)
Record MigrationRunner := mkRunner {
  database : string;
  user : string;
  migrations_dir : Directory;
  after_migrate_dir : option Directory;
  template_vars : gmap string string;
}.

(** The sub-commands of the command line. *)
Inductive Command := CmdMigrate | CmdSeed | CmdInfo.

(** What [parser.parse_args()] hands to [main], with the environment
    defaults filled in: a text option is [None] when neither the flag nor
    its environment variable is given; a directory option is [None] when
    the path does not exist. *)
Record Args := mkArgs {
  arg_command : Command;
  arg_dry_run : bool;
  arg_database : option string;
  arg_user : option string;
  arg_password : option string;
  arg_migrations_dir : option Directory;
  arg_after_migrate_dir : option Directory;
  arg_seeds_dir : option Directory;
}.

(** The target database: the ledger table ([None] while it does not exist)
    and the scripts committed so far, oldest first.  Scripts are opaque:
    what they did to the database is a function of this history, and they
    leave [schema_migrations] alone. *)
Record Database := mkDatabase {
  ledger : option (list LedgerRow);
  applied_sql : list string;
}.

(** The open transaction of a connection. *)
Record Connection := mkConnection {
  staged_sql : list string;
  staged_rows : list LedgerRow;
}.

(** The server and [self.conn]. *)
Record World := mkWorld {
  reachable : bool;
  target : option Database;
  conn : option Connection;
}.

(** The scripts of [apply_migration] and of [run_after_migrate_scripts]. *)
Inductive script_kind := KMigration | KCallback.

(** What the runner creates on the server: the target database, in
    [ensure_database_exists], and the ledger table, in
    [initialize_schema_table]. *)
Inductive Creation :=
| CreateDatabase (name : string)
| CreateTable.

(** The [commit] and [rollback] call sites: after [CREATE TABLE], in the
    [try]/[except] around the script [name], after the [INSERT] for the
    migration [name]. *)
Inductive txn_site :=
| SiteSchema
| SiteScript (k : script_kind) (name : string)
| SiteLedger (name : string).

(** The calls of the runner on its collaborators, [ok] telling whether the
    call returned ([true]) or raised [psycopg2.Error] ([false]):
    - [EAdminConnect], [ECreateDatabase]: [ensure_database_exists];
    - [EConnect], [EClose]: [connect], [close];
    - [ECreateTable]: [initialize_schema_table];
    - [ESelectLedger]: the query of [get_applied_migrations];
    - [EWarnChecksum]: the warning of [get_pending_migrations];
    - [EPreview]: the [DRY RUN] text in place of a script;
    - [EExecute]: [cursor.execute(sql_content)];
    - [EInsert]: [cursor.execute] of the [INSERT INTO schema_migrations];
    - [ECommit], [ERollback]: [self.conn.commit()], [self.conn.rollback()];
    - [EScriptFailed]: the failure text of an [except] branch;
    - [EInfo]: the counts and the pending names that [info] prints;
    - [ERefused]: a [CREATE DATABASE] or [CREATE TABLE] that raised
      [psycopg2.Error]. *)
Inductive Event :=
| EAdminConnect (ok : bool)
| ECreateDatabase (name : string)
| EConnect (ok : bool)
| EClose
| ECreateTable
| ESelectLedger (ok : bool)
| EWarnChecksum (name applied current : string)
| EPreview (k : script_kind) (name sql : string)
| EExecute (k : script_kind) (name sql : string) (ok : bool)
| EInsert (row : LedgerRow) (ok : bool)
| ECommit (site : txn_site) (ok : bool)
| ERollback (site : txn_site)
| EScriptFailed (k : script_kind) (name : string)
| EInfo (applied : nat) (pending : list string)
| ERefused (what : Creation).

Global Instance script_kind_eq_dec : EqDecision script_kind.
Proof. solve_decision. Defined.
Global Instance Creation_eq_dec : EqDecision Creation.
Proof. solve_decision. Defined.
Global Instance txn_site_eq_dec : EqDecision txn_site.
Proof. solve_decision. Defined.
Global Instance Event_eq_dec : EqDecision Event.
Proof. solve_decision. Defined.

(** The exceptions that reach the runner; [SystemExit] is [sys.exit]. *)
Inductive Exn :=
| Psycopg2Error
| SystemExit (code : Z)
| ValueError
| OSError
| AttributeError
| UnicodeDecodeError.

Global Instance Exn_eq_dec : EqDecision Exn.
Proof. solve_decision. Defined.

Inductive outcome (A : Type) :=
| Returned (a : A)
| Raised (e : Exn).
Global Arguments Returned {A} a.
Global Arguments Raised {A} e.

Global Instance outcome_eq_dec {A} `{EqDecision A} : EqDecision (outcome A).
Proof. solve_decision. Defined.

(** * The monad of the runner: state, exceptions and an event log *)

(** What a call does: its outcome, the world it leaves, the events it
    logged. *)
Record Run (A : Type) := mkRun {
  out : outcome A;
  final : World;
  events : list Event;
}.
Global Arguments mkRun {A} _ _ _.
Global Arguments out {A} _.
Global Arguments final {A} _.
Global Arguments events {A} _.

Definition M (A : Type) : Type := World → Run A.

Definition ret {A} (a : A) : M A := λ w, mkRun (Returned a) w [].
Definition raise {A} (e : Exn) : M A := λ w, mkRun (Raised e) w [].
Definition emit (ev : Event) : M unit := λ w, mkRun (Returned tt) w [ev].

Definition bind {A B} (m : M A) (f : A → M B) : M B := λ w,
  match m w with
  | mkRun (Returned a) w' evs =>
      match f a w' with
      | mkRun o w'' evs' => mkRun o w'' (evs ++ evs')
      end
  | mkRun (Raised e) w' evs => mkRun (Raised e) w' evs
  end.

(** [try: m  except psycopg2.Error: handler] *)
Definition try_except {A} (m : M A) (handler : M A) : M A := λ w,
  match m w with
  | mkRun (Raised Psycopg2Error) w' evs =>
      match handler w' with
      | mkRun o w'' evs' => mkRun o w'' (evs ++ evs')
      end
  | r => r
  end.

Declare Scope run_scope.
Delimit Scope run_scope with run.
Notation "x <- m ;; k" := (bind m (λ x, k))
  (at level 100, m at next level, k at level 200, right associativity) : run_scope.
Notation "m ;; k" := (bind m (λ _, k))
  (at level 100, k at level 200, right associativity) : run_scope.
Local Open Scope run_scope.

Definition empty_connection : Connection := mkConnection [] [].
Definition empty_database : Database := mkDatabase None [].

Definition set_conn (c : option Connection) (w : World) : World :=
  mkWorld (reachable w) (target w) c.
Definition set_target (d : option Database) (w : World) : World :=
  mkWorld (reachable w) d (conn w).

(** * The database, as the runner sees it *)

(** What PostgreSQL stores in a [VARCHAR(n)] column, whose width is in
    characters: a longer text is an error unless the excess characters
    are all spaces, which are cut off. *)
Definition varchar (n : nat) (s : string) : option string :=
  if (Text.length s <=? n)%nat then Some s
  else if Str.all_spaces (Text.drop n s) then Some (Text.take n s)
  else None.

(** The row an [INSERT INTO schema_migrations] stores next to the rows
    [existing], by the column types and the [UNIQUE] constraint of the
    [CREATE TABLE] statement; [None] when the statement is rejected. *)
Definition store_row (existing : list LedgerRow) (r : LedgerRow) : option LedgerRow :=
  script ← varchar 1000 (row_script r);
  descr ← varchar 200 (row_description r);
  sum ← varchar 32 (row_checksum r);
  who ← varchar 100 (row_installed_by r);
  if bool_decide (script ∈ row_script <$> existing) then None
  else Some (mkRow script descr sum who (row_success r)).

Section Runner.

(** [hashlib.md5(content).hexdigest()] *)
Variable md5 : string → string.
(** Whether the server lets the runner create the database or the ledger
    table, given the scripts committed to the target database so far
    (none for a database that does not exist yet). *)
Variable create_ok : Creation → list string → bool.
(** Whether [cursor.execute] accepts a script, given the scripts run
    before it. *)
Variable execute_ok : list string → string → bool.
(** Whether [conn.commit] accepts the scripts of the open transaction,
    given the scripts committed before. *)
Variable commit_ok : list string → list string → bool.

(** ** Transport primitives *)

(** [self.conn.cursor()] *)
Definition cursor : M unit := λ w,
  match conn w with
  | Some _ => mkRun (Returned tt) w []
  | None => mkRun (Raised AttributeError) w []
  end.

(** [cursor.execute(sql_content)] for a script. *)
Definition execute_script (k : script_kind) (name sql : string) : M unit := λ w,
  match conn w, target w with
  | Some c, Some db =>
      if execute_ok (applied_sql db ++ staged_sql c) sql
      then mkRun (Returned tt)
             (set_conn (Some (mkConnection (staged_sql c ++ [sql]) (staged_rows c))) w)
             [EExecute k name sql true]
      else mkRun (Raised Psycopg2Error) w [EExecute k name sql false]
  | Some _, None => mkRun (Raised Psycopg2Error) w [EExecute k name sql false]
  | None, _ => mkRun (Raised AttributeError) w []
  end.

(** [cursor.execute("INSERT INTO schema_migrations ...", row)] *)
Definition insert_row (r : LedgerRow) : M unit := λ w,
  match conn w, target w with
  | Some c, Some db =>
      match ledger db with
      | Some rows =>
          match store_row (rows ++ staged_rows c) r with
          | Some stored =>
              mkRun (Returned tt)
                (set_conn (Some (mkConnection (staged_sql c) (staged_rows c ++ [stored]))) w)
                [EInsert r true]
          | None => mkRun (Raised Psycopg2Error) w [EInsert r false]
          end
      | None => mkRun (Raised Psycopg2Error) w [EInsert r false]
      end
  | Some _, None => mkRun (Raised Psycopg2Error) w [EInsert r false]
  | None, _ => mkRun (Raised AttributeError) w []
  end.

(** [self.conn.commit()]: the staged scripts and rows become part of the
    database.  A transaction without scripts always commits. *)
Definition commit (site : txn_site) : M unit := λ w,
  match conn w, target w with
  | Some c, Some db =>
      if bool_decide (staged_sql c = []) || commit_ok (applied_sql db) (staged_sql c)
      then mkRun (Returned tt)
             (mkWorld (reachable w)
                (Some (mkDatabase ((λ rows, rows ++ staged_rows c) <$> ledger db)
                                  (applied_sql db ++ staged_sql c)))
                (Some empty_connection))
             [ECommit site true]
      else mkRun (Raised Psycopg2Error) (set_conn (Some empty_connection) w)
             [ECommit site false]
  | Some _, None => mkRun (Raised Psycopg2Error) w [ECommit site false]
  | None, _ => mkRun (Raised AttributeError) w []
  end.

(** [self.conn.rollback()] *)
Definition rollback (site : txn_site) : M unit := λ w,
  match conn w with
  | Some _ => mkRun (Returned tt) (set_conn (Some empty_connection) w) [ERollback site]
  | None => mkRun (Raised AttributeError) w []
  end.

(** [open(path, "rb").read()] inside directory [dir]: the bytes of the
    file. *)
Definition read_bytes (dir : Directory) (path : string) : M string := λ w,
  match dir !! path with
  | Some content => mkRun (Returned content) w []
  | None => mkRun (Raised OSError) w []
  end.

(** [open(path).read()] inside directory [dir]: the file is opened in
    text mode, so its bytes are decoded and its line endings translated;
    bytes that are no UTF-8 raise [UnicodeDecodeError]. *)
Definition read_text (dir : Directory) (path : string) : M string := λ w,
  match dir !! path with
  | Some content =>
      match Text.decode content with
      | Some text => mkRun (Returned text) w []
      | None => mkRun (Raised UnicodeDecodeError) w []
      end
  | None => mkRun (Raised OSError) w []
  end.

(** [dir.glob("*.sql")]: the names that end in [.sql], in whatever order
    the file system lists them. *)
Definition glob_sql (dir : Directory) : list string :=
  filter (λ name, Str.endswith name ".sql" = true) (map_to_list dir).*1.

(** [sorted] on the paths of one directory: they compare as their names,
    byte by byte.  The names are distinct, so every sorting algorithm
    gives the same list. *)
Definition sorted (paths : list string) : list string :=
  merge_sort String.le paths.

(** ** [Migration] *)

(** [Migration.from_file] *)
Definition from_file (dir : Directory) (path : string) : M Migration :=
  if negb (Str.endswith path ".sql") then raise ValueError
  else
    let description := Str.replace_char "_" " " (Str.stem path) in
    content <- read_bytes dir path ;;
    ret (mkMigration path description path (md5 content)).

(** [[Migration.from_file(f) for f in migration_files]] *)
Fixpoint from_files (dir : Directory) (paths : list string) : M (list Migration) :=
  match paths with
  | [] => ret []
  | p :: rest =>
      m <- from_file dir p ;;
      ms <- from_files dir rest ;;
      ret (m :: ms)
  end.

(** ** [MigrationRunner] *)

(** [MigrationRunner.connect] *)
Definition connect : M unit := λ w,
  if reachable w && bool_decide (is_Some (target w))
  then mkRun (Returned tt) (set_conn (Some empty_connection) w) [EConnect true]
  else mkRun (Raised Psycopg2Error) w [EConnect false].

(** [MigrationRunner.close] *)
Definition close : M unit := λ w,
  match conn w with
  | Some _ => mkRun (Returned tt) (set_conn None w) [EClose]
  | None => mkRun (Returned tt) w []
  end.

(** [MigrationRunner.ensure_database_exists]: an autocommit connection to
    the maintenance database, the query on [pg_database], [CREATE
    DATABASE] when the target is missing, [True] when it was created.
    The [try] holds all three: [sys.exit(1)] when the connection or the
    [CREATE DATABASE] raises.  The call does not look at [dry_run]. *)
Definition ensure_database_exists (r : MigrationRunner) : M bool :=
  try_except
    (λ w,
      if reachable w then
        match target w with
        | None =>
            if create_ok (CreateDatabase (database r)) []
            then mkRun (Returned true) (set_target (Some empty_database) w)
                   [EAdminConnect true; ECreateDatabase (database r)]
            else mkRun (Raised Psycopg2Error) w
                   [EAdminConnect true; ERefused (CreateDatabase (database r))]
        | Some _ => mkRun (Returned false) w [EAdminConnect true]
        end
      else mkRun (Raised Psycopg2Error) w [EAdminConnect false])
    (raise (SystemExit 1)).

(** [MigrationRunner.initialize_schema_table]: [CREATE TABLE IF NOT
    EXISTS], which keeps the rows of a table that exists and raises when
    the server does not let the runner create a table that is missing,
    and the commit on the next line. *)
Definition initialize_schema_table : M unit :=
  cursor ;;
  (λ w,
    match target w with
    | Some db =>
        if bool_decide (is_Some (ledger db)) || create_ok CreateTable (applied_sql db)
        then mkRun (Returned tt)
               (set_target (Some (mkDatabase (Some (default [] (ledger db))) (applied_sql db))) w)
               [ECreateTable]
        else mkRun (Raised Psycopg2Error) w [ERefused CreateTable]
    | None => mkRun (Raised Psycopg2Error) w []
    end) ;;
  commit SiteSchema.

(** The dictionary comprehension of [get_applied_migrations]: a later row
    replaces an earlier one with the same script. *)
Definition applied_dict (rows : list LedgerRow) : gmap string LedgerRow :=
  foldl (λ d row, <[row_script row := row]> d) ∅ rows.

(** [MigrationRunner.get_applied_migrations] *)
Definition get_applied_migrations : M (gmap string LedgerRow) :=
  cursor ;;
  (λ w,
    match target w with
    | Some db =>
        match ledger db with
        | Some rows =>
            mkRun (Returned (applied_dict (rows ++ from_option staged_rows [] (conn w))))
              w [ESelectLedger true]
        | None => mkRun (Raised Psycopg2Error) w [ESelectLedger false]
        end
    | None => mkRun (Raised Psycopg2Error) w [ESelectLedger false]
    end).

(** The filter loop of [get_pending_migrations]. *)
Fixpoint filter_pending (applied : gmap string LedgerRow) (all_migrations : list Migration)
    : M (list Migration) :=
  match all_migrations with
  | [] => ret []
  | migration :: rest =>
      match applied !! filename migration with
      | None =>
          pending <- filter_pending applied rest ;;
          ret (migration :: pending)
      | Some info =>
          (if bool_decide (row_checksum info ≠ checksum migration)
           then emit (EWarnChecksum (filename migration) (row_checksum info) (checksum migration))
           else ret tt) ;;
          filter_pending applied rest
      end
  end.

(** [MigrationRunner.get_pending_migrations] *)
Definition get_pending_migrations (r : MigrationRunner) : M (list Migration) :=
  let migration_files := sorted (glob_sql (migrations_dir r)) in
  all_migrations <- from_files (migrations_dir r) migration_files ;;
  applied <- get_applied_migrations ;;
  filter_pending applied all_migrations.

(** The row that [apply_migration] records. *)
Definition ledger_row (r : MigrationRunner) (m : Migration) (success : bool) : LedgerRow :=
  mkRow (filename m) (description m) (checksum m) (user r) success.

(** [MigrationRunner.apply_migration] *)
Definition apply_migration (r : MigrationRunner) (migration : Migration) (dry_run : bool)
    : M bool :=
  sql_content <- read_text (migrations_dir r) (filepath migration) ;;
  let sql_content := Template.render_sql_template (template_vars r) sql_content in
  if dry_run then
    emit (EPreview KMigration (filename migration) (Text.take 500 sql_content)) ;;
    ret true
  else
    cursor ;;
    try_except
      (execute_script KMigration (filename migration) sql_content ;;
       commit (SiteScript KMigration (filename migration)) ;;
       insert_row (ledger_row r migration true) ;;
       commit (SiteLedger (filename migration)) ;;
       ret true)
      (rollback (SiteScript KMigration (filename migration)) ;;
       insert_row (ledger_row r migration false) ;;
       commit (SiteLedger (filename migration)) ;;
       emit (EScriptFailed KMigration (filename migration)) ;;
       ret false).

(** The loop of [run_after_migrate_scripts]. *)
Fixpoint run_callbacks (r : MigrationRunner) (dir : Directory) (dry_run : bool)
    (script_files : list string) : M unit :=
  match script_files with
  | [] => ret tt
  | script_file :: rest =>
      sql_content <- read_text dir script_file ;;
      let sql_content := Template.render_sql_template (template_vars r) sql_content in
      (if dry_run then
         emit (EPreview KCallback script_file "")
       else
         cursor ;;
         try_except
           (execute_script KCallback script_file sql_content ;;
            commit (SiteScript KCallback script_file))
           (rollback (SiteScript KCallback script_file) ;;
            emit (EScriptFailed KCallback script_file))) ;;
      run_callbacks r dir dry_run rest
  end.

(** [MigrationRunner.run_after_migrate_scripts] *)
Definition run_after_migrate_scripts (r : MigrationRunner) (dry_run : bool) : M unit :=
  match after_migrate_dir r with
  | None => ret tt
  | Some dir => run_callbacks r dir dry_run (sorted (glob_sql dir))
  end.

(** The loop of [migrate]: [inl code] when the loop leaves [migrate] with
    an exit code, [inr applied_count] when it runs to its end. *)
Fixpoint migrate_loop (r : MigrationRunner) (dry_run : bool) (pending : list Migration)
    (applied_count : nat) : M (Z + nat) :=
  match pending with
  | [] => ret (inr applied_count)
  | migration :: rest =>
      success <- apply_migration r migration dry_run ;;
      if negb success then
        close ;;
        ret (inl 1%Z)
      else migrate_loop r dry_run rest (S applied_count)
  end.

(** [MigrationRunner.migrate] *)
Definition migrate (r : MigrationRunner) (dry_run : bool) : M Z :=
  db_created <- ensure_database_exists r ;;
  connect ;;
  (if dry_run then ret tt else initialize_schema_table) ;;
  pending <- get_pending_migrations r ;;
  match pending with
  | [] =>
      (if db_created then ret tt else run_after_migrate_scripts r dry_run) ;;
      close ;;
      ret 0%Z
  | _ =>
      res <- migrate_loop r dry_run pending 0 ;;
      match res with
      | inl code => ret code
      | inr applied_count =>
          (if (0 <? applied_count)%nat then run_after_migrate_scripts r dry_run else ret tt) ;;
          close ;;
          ret 0%Z
      end
  end.

(** [MigrationRunner.info] *)
Definition info (r : MigrationRunner) : M unit :=
  connected <- try_except (connect ;; initialize_schema_table ;; ret true) (ret false) ;;
  if negb connected then ret tt
  else
    applied <- get_applied_migrations ;;
    pending <- get_pending_migrations r ;;
    emit (EInfo (size applied) (filename <$> pending)) ;;
    close.

(** The loop of [seed]: [Some code] when a turn leaves [seed] with an
    exit code, [None] when the loop runs to its end.  A seed script goes
    through the same calls as a callback script ([cursor.execute],
    [commit], [rollback] when one of them raises) and like it leaves no
    row in the ledger; the log files its events under [KCallback].
    [seed] runs no script of [afterMigrate], so the scripts in the log of
    a seed run are seed scripts. *)
Fixpoint seed_loop (r : MigrationRunner) (dir : Directory) (dry_run : bool)
    (seed_files : list string) : M (option Z) :=
  match seed_files with
  | [] => ret None
  | seed_file :: rest =>
      sql_content <- read_text dir seed_file ;;
      let sql_content := Template.render_sql_template (template_vars r) sql_content in
      if dry_run then
        emit (EPreview KCallback seed_file (Text.take 500 sql_content)) ;;
        seed_loop r dir dry_run rest
      else
        cursor ;;
        failed <- try_except
                    (execute_script KCallback seed_file sql_content ;;
                     commit (SiteScript KCallback seed_file) ;;
                     ret false)
                    (rollback (SiteScript KCallback seed_file) ;;
                     emit (EScriptFailed KCallback seed_file) ;;
                     close ;;
                     ret true) ;;
        if failed then ret (Some 1%Z) else seed_loop r dir dry_run rest
  end.

(** [MigrationRunner.seed]; [seeds_dir] is [self.seeds_dir], [None] when
    it is not set or does not exist. *)
Definition seed (r : MigrationRunner) (seeds_dir : option Directory) (dry_run : bool)
    : M Z :=
  match seeds_dir with
  | None => ret 1%Z
  | Some dir =>
      connected <- try_except (connect ;; ret true) (ret false) ;;
      if negb connected then ret 1%Z
      else
        match sorted (glob_sql dir) with
        | [] =>
            close ;;
            ret 0%Z
        | seed_files =>
            res <- seed_loop r dir dry_run seed_files ;;
            match res with
            | Some code => ret code
            | None =>
                close ;;
                ret 0%Z
            end
        end
  end.

(** ** [main] *)

(** [not value] for an optional text: [None] and the empty string. *)
Definition falsy (value : option string) : bool :=
  match value with
  | Some (String _ _) => false
  | _ => true
  end.

(** [sys.exit(code)] *)
Definition sys_exit {A} (code : Z) : M A := raise (SystemExit code).

(** [try: m  except Exception: handler]: every exception of the runner
    but [SystemExit], which is no [Exception].  The clause for
    [KeyboardInterrupt] that comes before it has nothing to catch here. *)
Definition try_except_Exception {A} (m : M A) (handler : M A) : M A := λ w,
  match m w with
  | mkRun (Returned a) w' evs => mkRun (Returned a) w' evs
  | mkRun (Raised (SystemExit code)) w' evs => mkRun (Raised (SystemExit code)) w' evs
  | mkRun (Raised _) w' evs =>
      match handler w' with
      | mkRun o w'' evs' => mkRun o w'' (evs ++ evs')
      end
  end.

(** [MigrationRunner.__init__]: a new runner has no connection. *)
Definition new_runner : M unit := λ w, mkRun (Returned tt) (set_conn None w) [].

(** [main], from the checks of the parsed arguments on; [environ] is
    [os.environ].  Every path ends in [sys.exit]. *)
Definition main (args : Args) (environ : gmap string string) : M unit :=
  if falsy (arg_database args) then sys_exit 1
  else if falsy (arg_user args) then sys_exit 1
  else if falsy (arg_password args) then sys_exit 1
  else
    match arg_migrations_dir args with
    | None => sys_exit 1
    | Some dir =>
        let runner :=
          mkRunner (default "" (arg_database args)) (default "" (arg_user args))
            dir (arg_after_migrate_dir args) environ in
        new_runner ;;
        try_except_Exception
          match arg_command args with
          | CmdMigrate =>
              code <- migrate runner (arg_dry_run args) ;;
              sys_exit code
          | CmdSeed =>
              code <- seed runner (arg_seeds_dir args) (arg_dry_run args) ;;
              sys_exit code
          | CmdInfo =>
              info runner ;;
              sys_exit 0
          end
          (sys_exit 1)
    end.

End Runner.

(** The exit status of the process for an outcome of [main]: the code of
    [sys.exit], 1 for any other exception, 0 when [main] returns. *)
Definition exit_status {A} (o : outcome A) : Z :=
  match o with
  | Returned _ => 0
  | Raised (SystemExit code) => code
  | Raised _ => 1
  end.

(** * Reading the event log *)

(** The script an event belongs to. *)
Definition script_of (e : Event) : option (script_kind * string) :=
  match e with
  | EExecute k n _ _ => Some (k, n)
  | EPreview k n _ => Some (k, n)
  | ECommit (SiteScript k n) _ => Some (k, n)
  | ECommit (SiteLedger n) _ => Some (KMigration, n)
  | ERollback (SiteScript k n) => Some (k, n)
  | ERollback (SiteLedger n) => Some (KMigration, n)
  | EInsert row _ => Some (KMigration, row_script row)
  | EScriptFailed k n => Some (k, n)
  | _ => None
  end.

Definition is_execute (e : Event) : bool :=
  match e with
  | EExecute _ _ _ _ => true
  | _ => false
  end.

(** Running a script raised: in [cursor.execute] or in the commit that
    follows it. *)
Definition is_failure (e : Event) : bool :=
  match e with
  | EExecute _ _ _ false => true
  | ECommit (SiteScript _ _) false => true
  | _ => false
  end.

(** A ledger row with [success = true] was stored. *)
Definition is_recorded_success (e : Event) : bool :=
  match e with
  | EInsert row true => row_success row
  | _ => false
  end.

(** Events that change the target database: a table is created, a script
    runs, a row is inserted, a transaction is committed. *)
Definition writes (e : Event) : bool :=
  match e with
  | ECreateTable | EExecute _ _ _ _ | EInsert _ _ | ECommit _ _ => true
  | _ => false
  end.

(** Events of the runner itself, outside every script. *)
Definition quiet (e : Event) : Prop := script_of e = None.

(** Events of callback scripts. *)
Definition callback_event (e : Event) : Prop :=
  ∃ name, script_of e = Some (KCallback, name).

(** The events of a migration that is applied and recorded. *)
Definition applied_events (r : MigrationRunner) (m : Migration) (sql : string) : list Event :=
  [EExecute KMigration (filename m) sql true;
   ECommit (SiteScript KMigration (filename m)) true;
   EInsert (mkRow (filename m) (description m) (checksum m) (user r) true) true;
   ECommit (SiteLedger (filename m)) true].

(** The statements of script [name] were run. *)
Definition executed (evs : list Event) (k : script_kind) (name : string) : Prop :=
  ∃ sql ok, EExecute k name sql ok ∈ evs.

(** Running script [name] raised: in [cursor.execute] or in the commit
    that follows it. *)
Definition execution_failed (evs : list Event) (k : script_kind) (name : string) : Prop :=
  (∃ sql, EExecute k name sql false ∈ evs) ∨ ECommit (SiteScript k name) false ∈ evs.

(** The events [l] occur in [evs] one after the other. *)
Definition window (l evs : list Event) : Prop :=
  ∃ pre post, evs = pre ++ l ++ post.

(** The rows of the ledger table, when the database and the table exist. *)
Definition ledger_of (w : World) : option (list LedgerRow) :=
  db ← target w; ledger db.

(** The scripts committed to the database. *)
Definition history_of (w : World) : list string :=
  from_option applied_sql [] (target w).

(** The descriptor of the file [path] with content [content]. *)
Definition descriptor (md5 : string → string) (path content : string) : Migration :=
  mkMigration path (Str.replace_char "_" " " (Str.stem path)) path (md5 content).

(** The rows a [SELECT] on the open connection sees: the committed rows
    and those of its own transaction. *)
Definition ledger_view (w : World) : option (list LedgerRow) :=
  c ← conn w; rows ← ledger_of w; Some (rows ++ staged_rows c).

(** The warnings of [get_pending_migrations]. *)
Definition drift_warnings (applied : gmap string LedgerRow) (all_migrations : list Migration)
    : list Event :=
  all_migrations ≫= λ m,
    match applied !! filename m with
    | Some info =>
        if bool_decide (row_checksum info ≠ checksum m)
        then [EWarnChecksum (filename m) (row_checksum info) (checksum m)]
        else []
    | None => []
    end.

(** The files of a directory that [get_pending_migrations] turns into
    descriptors. *)
Definition on_disk (md5 : string → string) (dir : Directory) (m : Migration) : Prop :=
  ∃ content,
    dir !! filename m = Some content ∧ Str.endswith (filename m) ".sql" = true ∧
    m = descriptor md5 (filename m) content.

(** The pending set in the words of the specification: the migrations on
    disk minus the ledger entries with a matching checksum. *)
Definition pending_by_checksum (md5 : string → string) (dir : Directory)
    (rows : list LedgerRow) (m : Migration) : Prop :=
  on_disk md5 dir m ∧
  ¬ ∃ row, row ∈ rows ∧ row_script row = filename m ∧ row_checksum row = checksum m.

(** A connection is open and its transaction is empty. *)
Definition clean (w : World) : Prop :=
  conn w = Some empty_connection ∧ is_Some (target w).

Definition by_filename (a b : Migration) : Prop := Str.lt (filename a) (filename b).
(** The runner is connected to a reachable server, its transaction is
    empty and the ledger table holds [rows]. *)
Definition ready (w : World) (rows : list LedgerRow) : Prop :=
  reachable w = true ∧ conn w = Some empty_connection ∧ ledger_of w = Some rows.

(** The ledger only grows, by rows that the table accepts. *)
Inductive ledger_grows (rows : list LedgerRow) : list LedgerRow → Prop :=
| ledger_same : ledger_grows rows rows
| ledger_more rows' row stored :
    ledger_grows rows rows' →
    store_row rows' row = Some stored →
    ledger_grows rows (rows' ++ [stored]).

(** The rows of the ledger that record script [name]. *)
Definition rows_of (name : string) (rows : list LedgerRow) : list LedgerRow :=
  filter (λ row, row_script row = name) rows.

(** The events [evs] followed by the run [R]. *)
Definition prepend {A} (evs : list Event) (R : Run A) : Run A :=
  mkRun (out R) (final R) (evs ++ events R).

Section Rest.
Variable execute_ok : list string → string → bool.
Variable commit_ok : list string → list string → bool.

(** The body of [migrate] from the test [if not pending] on. *)
Definition migrate_rest (r : MigrationRunner) (dry_run db_created : bool)
    (pending : list Migration) : M Z :=
  match pending with
  | [] =>
      (if db_created then ret tt
       else run_after_migrate_scripts execute_ok commit_ok r dry_run) ;;
      close ;;
      ret 0%Z
  | _ =>
      res <- migrate_loop execute_ok commit_ok r dry_run pending 0 ;;
      match res with
      | inl code => ret code
      | inr applied_count =>
          (if (0 <? applied_count)%nat
           then run_after_migrate_scripts execute_ok commit_ok r dry_run
           else ret tt) ;;
          close ;;
          ret 0%Z
      end
  end.
End Rest.

(** All the descriptors of a directory, in the order of [sorted]. *)
Definition all_migrations (md5 : string → string) (dir : Directory) : list Migration :=
  (λ p, descriptor md5 p (default "" (dir !! p))) <$> sorted (glob_sql dir).

Section Body.
Variable execute_ok : list string → string → bool.
Variable commit_ok : list string → list string → bool.

(** One turn of the loop of [run_after_migrate_scripts], after the file
    is read and rendered. *)
Definition callback_body (dry_run : bool) (script_file sql_content : string) : M unit :=
  if dry_run then
    emit (EPreview KCallback script_file "")
  else
    cursor ;;
    try_except
      (execute_script execute_ok KCallback script_file sql_content ;;
       commit commit_ok (SiteScript KCallback script_file))
      (rollback (SiteScript KCallback script_file) ;;
       emit (EScriptFailed KCallback script_file)).
End Body.

(** * More readings of the log, and of the command line *)

(** The file [name] of [dir] can be read as text. *)
Definition readable (dir : Directory) (name : string) : Prop :=
  is_Some (dir !! name ≫= Text.decode).

(** The files of a list up to the first that cannot be read as text. *)
Fixpoint readable_prefix (dir : Directory) (files : list string) : list string :=
  match files with
  | [] => []
  | f :: rest => if decide (readable dir f) then f :: readable_prefix dir rest else []
  end.

(** Every callback script can be read as text. *)
Definition callbacks_readable (r : MigrationRunner) : Prop :=
  ∀ dir f, after_migrate_dir r = Some dir → f ∈ glob_sql dir → readable dir f.

(** [migrate] gets to its pending list: the server can be reached and
    lets the runner create the database and the ledger table where they
    are missing; a dry run creates no table, so it needs the one that is
    there. *)
Definition set_up_ok (create_ok : Creation → list string → bool)
    (r : MigrationRunner) (dry_run : bool) (w : World) : bool :=
  reachable w &&
  match target w with
  | None =>
      create_ok (CreateDatabase (database r)) [] && negb dry_run && create_ok CreateTable []
  | Some db =>
      bool_decide (is_Some (ledger db)) || negb dry_run && create_ok CreateTable (applied_sql db)
  end.

(** The script that the runner makes of the file [name]: its text with
    the template variables replaced. *)
Definition rendered (r : MigrationRunner) (dir : Directory) (name : string) : string :=
  Template.render_sql_template (template_vars r) (default "" (dir !! name ≫= Text.decode)).

Section SeedBody.
Variable execute_ok : list string → string → bool.
Variable commit_ok : list string → list string → bool.

Definition seed_try (seed_file sql_content : string) : M bool :=
  try_except
    (execute_script execute_ok KCallback seed_file sql_content ;;
     commit commit_ok (SiteScript KCallback seed_file) ;;
     ret false)
    (rollback (SiteScript KCallback seed_file) ;;
     emit (EScriptFailed KCallback seed_file) ;;
     close ;;
     ret true).

(** The preview of a seed script. *)
Definition seed_preview (r : MigrationRunner) (dir : Directory) (f : string) : Event :=
  EPreview KCallback f (Text.take 500 (rendered r dir f)).

(** The events of a seed script that is executed and committed. *)
Definition seeded_events (r : MigrationRunner) (dir : Directory) (f : string) : list Event :=
  [EExecute KCallback f (rendered r dir f) true; ECommit (SiteScript KCallback f) true].

End SeedBody.

(** The tail of the log of a seed script that fails. *)
Definition seed_failure (f sql : string) (evs : list Event) : Prop :=
  evs = [EExecute KCallback f sql false; ERollback (SiteScript KCallback f);
         EScriptFailed KCallback f; EClose] ∨
  evs = [EExecute KCallback f sql true; ECommit (SiteScript KCallback f) false;
         ERollback (SiteScript KCallback f); EScriptFailed KCallback f; EClose].

(** The migration scripts that the log shows being executed, in the
    order of the log. *)
Definition migrations_run (evs : list Event) : list string :=
  omap (λ e, match e with
             | EExecute KMigration name _ _ => Some name
             | _ => None
             end) evs.

(** What the runner sends to the server for a migration comes from the
    file on disk: the script is the text of the file (its bytes decoded,
    its line endings translated) with the template variables replaced,
    the preview the first 500 characters of that, and the ledger row is
    that of the file's descriptor, whose checksum is taken from the bytes
    of the file. *)
Definition from_disk (md5 : string → string) (r : MigrationRunner) (e : Event) : Prop :=
  match e with
  | EExecute KMigration name sql _ =>
      ∃ content text,
        migrations_dir r !! name = Some content ∧ Text.decode content = Some text ∧
        sql = Template.render_sql_template (template_vars r) text
  | EPreview KMigration name sql =>
      ∃ content text,
        migrations_dir r !! name = Some content ∧ Text.decode content = Some text ∧
        sql = Text.take 500 (Template.render_sql_template (template_vars r) text)
  | EInsert row _ =>
      ∃ content, migrations_dir r !! row_script row = Some content ∧
                 row = ledger_row r (descriptor md5 (row_script row) content) (row_success row)
  | _ => True
  end.

(** The names of the files that are pending when the ledger holds
    [rows]: the [.sql] files of the directory that no row records, in the
    order of [sorted]. *)
Definition pending_names (dir : Directory) (rows : list LedgerRow) : list string :=
  filter (λ name, name ∉ row_script <$> rows) (sorted (glob_sql dir)).

(** The run does not end in [sys.exit]. *)
Definition no_exit {A} (R : Run A) : Prop := ∀ code, out R ≠ Raised (SystemExit code).

(** The arguments pass the checks of [main]. *)
Definition complete (args : Args) : Prop :=
  falsy (arg_database args) = false ∧ falsy (arg_user args) = false ∧
  falsy (arg_password args) = false ∧ is_Some (arg_migrations_dir args).

(** The preview of a migration in a dry run. *)
Definition migration_preview (r : MigrationRunner) (name : string) : Event :=
  EPreview KMigration name (Text.take 500 (rendered r (migrations_dir r) name)).

(** The callback scripts that the log shows being executed, in the order
    of the log. *)
Definition callbacks_run (evs : list Event) : list string :=
  omap (λ e, match e with
             | EExecute KCallback name _ _ => Some name
             | _ => None
             end) evs.

(** * A small installation, for the examples *)

Module Fixture.

(** A stand-in for MD5: 32 characters that depend on the content. *)
Definition toy_md5 (content : string) : string :=
  String.substring 0 32 (content +:+ "00000000000000000000000000000000").

(** A server that rejects the scripts that start with [FAIL]. *)
Definition toy_execute_ok (history : list string) (sql : string) : bool :=
  negb (String.prefix "FAIL" sql).
Definition toy_commit_ok (history staged : list string) : bool := true.
(** A server that lets the runner create the database and the table, and
    one that does not. *)
Definition toy_create_ok (what : Creation) (history : list string) : bool := true.
Definition no_create_ok (what : Creation) (history : list string) : bool := false.

Definition migrations : Directory :=
  {[ "v1_a.sql" := "CREATE a ${X}"; "v2_b.sql" := "FAIL b";
     "v3_c.sql" := "CREATE c"; "readme.txt" := "notes" ]}.

Definition good_migrations : Directory :=
  {[ "v1_create_table.sql" := "CREATE t"; "v2_add_column.sql" := "ALTER t" ]}.

Definition callbacks : Directory :=
  {[ "cb1.sql" := "FAIL cb"; "cb2.sql" := "REFRESH" ]}.

(** The byte [0xFF], which is no UTF-8, and a callback directory whose
    second file holds it. *)
Definition not_text : string := String "255" "".

Definition broken_callbacks : Directory :=
  {[ "cb1.sql" := "FAIL cb"; "cb2.sql" := not_text ]}.

Definition runner : MigrationRunner :=
  mkRunner "db" "alice" migrations (Some callbacks) {[ "X" := "5" ]}.

Definition good_runner : MigrationRunner :=
  mkRunner "db" "alice" good_migrations (Some callbacks) ∅.

Definition broken_runner : MigrationRunner :=
  mkRunner "db" "alice" good_migrations (Some broken_callbacks) ∅.

(** A file whose stem has 201 characters. *)
Definition long_name : string :=
  String.concat "" (replicate 201 "a") +:+ ".sql".

Definition long_runner : MigrationRunner :=
  mkRunner "db" "alice" {[ long_name := "CREATE t" ]} None ∅.

(** A server without the target database. *)
Definition fresh_server : World := mkWorld true None None.

(** A server with the database and no ledger table. *)
Definition bare_database : World := mkWorld true (Some empty_database) None.

(** The ledger says [v1_a.sql] was applied, with another content. *)
Definition old_row : LedgerRow :=
  mkRow "v1_a.sql" "v1 a" (toy_md5 "CREATE a") "alice" true.

Definition drifted : World :=
  mkWorld true (Some (mkDatabase (Some [old_row]) ["CREATE a"])) None.

Definition connected : World :=
  mkWorld true (Some (mkDatabase (Some [old_row]) ["CREATE a"])) (Some empty_connection).

(** The commands on a server that lets the runner create nothing. *)
Definition strict_migrate : MigrationRunner → bool → M Z :=
  migrate toy_md5 no_create_ok toy_execute_ok toy_commit_ok.
Definition strict_info : MigrationRunner → M unit :=
  info toy_md5 no_create_ok toy_commit_ok.

Abbreviation migrate := (migrate toy_md5 toy_create_ok toy_execute_ok toy_commit_ok).

(** A seeds directory whose second script fails, and one whose scripts
    all go through. *)
Definition seeds : Directory :=
  {[ "s1.sql" := "INSERT a ${X}"; "s2.sql" := "FAIL s"; "s3.sql" := "INSERT c";
     "notes.md" := "seeds" ]}.

Definition good_seeds : Directory :=
  {[ "s1.sql" := "INSERT a ${X}"; "s3.sql" := "INSERT c" ]}.

(** The command line of [info] with every option that [main] requires,
    and that of [migrate] without a database name. *)
Definition info_args : Args :=
  mkArgs CmdInfo false (Some "db") (Some "alice") (Some "secret")
    (Some good_migrations) (Some callbacks) None.

Definition nameless_args : Args :=
  mkArgs CmdMigrate false None (Some "alice") (Some "secret")
    (Some good_migrations) None None.

End Fixture.

(** * Facts about strings *)

Module StrFacts.

Lemma app_cons c s t : String c s +:+ t = String c (s +:+ t).
Proof. reflexivity. Qed.

Lemma app_nil_l s : "" +:+ s = s.
Proof. reflexivity. Qed.

Lemma app_nil_r s : s +:+ "" = s.
Proof. induction s as [|c s IH]; [done|]. by rewrite app_cons, IH. Qed.

Lemma app_assoc s t u : (s +:+ t) +:+ u = s +:+ t +:+ u.
Proof. induction s as [|c s IH]; [done|]. by rewrite !app_cons, IH. Qed.

Lemma length_app s t : String.length (s +:+ t) = String.length s + String.length t.
Proof. induction s as [|c s IH]; [done|]. rewrite app_cons. simpl. by rewrite IH. Qed.

End StrFacts.

(** * The template renderer replaces exactly the mapped placeholders *)

Module TemplateFacts.
Import Template StrFacts.

Lemma span_ident_app s y :
  stops_run y = true ∨ (span_ident s).2 ≠ "" →
  span_ident (s +:+ y) = ((span_ident s).1, (span_ident s).2 +:+ y).
Proof.
  induction s as [|c s IH]; intros Hy.
  - destruct Hy as [Hy|Hy]; [|done].
    destruct y as [|d y]; [done|]. simpl in *.
    rewrite app_nil_l. simpl. by destruct (ident_char d); simpl in *.
  - rewrite app_cons. revert Hy. simpl.
    destruct (ident_char c) eqn:Hc; [|reflexivity].
    destruct (span_ident s) as [run rest] eqn:Hs. simpl in *.
    intros Hy. rewrite IH by done. reflexivity.
Qed.

Lemma span_ident_all s y :
  all_ident_chars s = true → stops_run y = true →
  span_ident (s +:+ y) = (s, y).
Proof.
  induction s as [|c s IH]; intros Hs Hy.
  - rewrite app_nil_l. destruct y as [|d y]; [done|].
    simpl in *. by destruct (ident_char d); simpl in *.
  - simpl in Hs. apply andb_true_iff in Hs as [Hc Hs].
    rewrite app_cons. simpl. rewrite Hc, IH by done. done.
Qed.

Lemma span_ident_run s : all_ident_chars (span_ident s).1 = true.
Proof.
  induction s as [|c s IH]; [done|]. simpl.
  destruct (ident_char c) eqn:Hc; [|done].
  destruct (span_ident s) as [run rest]. simpl in *. by rewrite Hc.
Qed.

Lemma span_ident_split s : s = (span_ident s).1 +:+ (span_ident s).2.
Proof.
  induction s as [|c s IH]; [done|]. simpl.
  destruct (ident_char c); [|done].
  destruct (span_ident s) as [run rest]. simpl in *.
  rewrite app_cons. by f_equal.
Qed.

(** A placeholder at the head of the text is matched, whatever follows. *)
Lemma match_placeholder_group0 name post :
  valid_ident name = true →
  match_placeholder (group0 name +:+ post) = Some (name, post).
Proof.
  destruct name as [|c tl]; [done|]. simpl. intros [Hc Htl]%andb_true_iff.
  rewrite Hc, app_assoc, span_ident_all by done. done.
Qed.

(** A match is a placeholder with a valid identifier. *)
Lemma match_placeholder_inv s name rest :
  match_placeholder s = Some (name, rest) →
  s = group0 name +:+ rest ∧ valid_ident name = true.
Proof.
  unfold match_placeholder.
  destruct s as [|a [|b [|c s]]]; try done.
  { by destruct a as [[] [] [] [] [] [] [] []]. }
  { destruct a as [[] [] [] [] [] [] [] []]; try done.
    by destruct b as [[] [] [] [] [] [] [] []]. }
  destruct (decide (a = "$"%char)) as [->|]; [|by destruct a as [[] [] [] [] [] [] [] []]].
  destruct (decide (b = "{"%char)) as [->|]; [|by destruct b as [[] [] [] [] [] [] [] []]].
  destruct (ident_start c) eqn:Hc; [|done].
  pose proof (span_ident_run s) as Hrun. pose proof (span_ident_split s) as Hsplit.
  destruct (span_ident s) as [run rest0]. simpl in *.
  destruct rest0 as [|d rest0]; [done|].
  destruct (decide (d = "}"%char)) as [->|]; [|by destruct d as [[] [] [] [] [] [] [] []]].
  intros [= <- <-]. split.
  - unfold group0. rewrite !app_cons, app_nil_l, !app_cons, app_assoc.
    by rewrite Hsplit at 1.
  - simpl. by rewrite Hc, Hrun.
Qed.

Lemma match_placeholder_shorter s name rest :
  match_placeholder s = Some (name, rest) → String.length rest < String.length s.
Proof.
  intros [-> _]%match_placeholder_inv. unfold group0.
  rewrite !length_app. simpl. lia.
Qed.

(** Text appended to a match stays after it. *)
Lemma match_placeholder_app_Some s name rest y :
  match_placeholder s = Some (name, rest) →
  match_placeholder (s +:+ y) = Some (name, rest +:+ y).
Proof.
  intros [-> Hv]%match_placeholder_inv.
  rewrite app_assoc. by apply match_placeholder_group0.
Qed.

(** A dollar sign cannot complete a match that started before it. *)
Lemma match_placeholder_app_None s y :
  match_placeholder s = None → s ≠ "" →
  match_placeholder (s +:+ String "$" y) = None.
Proof.
  intros Hs Hne. destruct s as [|a s]; [done|]. clear Hne.
  destruct (decide (a = "$"%char)) as [->|];
    [|by destruct a as [[] [] [] [] [] [] [] []]].
  destruct s as [|b s]; [done|].
  destruct (decide (b = "{"%char)) as [->|];
    [|by destruct b as [[] [] [] [] [] [] [] []]].
  destruct s as [|c s]; [done|].
  rewrite !app_cons. simpl in *.
  destruct (ident_start c); [|done].
  rewrite span_ident_app by (by left).
  destruct (span_ident s) as [run rest]. simpl.
  destruct rest as [|d rest]; [done|].
  rewrite app_cons.
  destruct (decide (d = "}"%char)) as [->|]; [done|].
  by destruct d as [[] [] [] [] [] [] [] []].
Qed.

(** ** The scan *)

Lemma re_sub_fuel fuel1 fuel2 vars s :
  String.length s ≤ fuel1 → String.length s ≤ fuel2 →
  re_sub fuel1 vars s = re_sub fuel2 vars s.
Proof.
  revert fuel2 s. induction fuel1 as [|fuel1 IH]; intros fuel2 s H1 H2.
  - destruct s; [|simpl in H1; lia]. by destruct fuel2.
  - destruct s as [|c s]; [by destruct fuel2|].
    destruct fuel2 as [|fuel2]; [simpl in H2; lia|].
    cbn [re_sub]. destruct (match_placeholder (String c s)) as [[name rest]|] eqn:Hm.
    + apply match_placeholder_shorter in Hm. f_equal. apply IH; simpl in *; lia.
    + f_equal. apply IH; simpl in *; lia.
Qed.

Lemma subst_all_nil vars : subst_all vars "" = "".
Proof. done. Qed.

Lemma subst_all_cons vars c s :
  subst_all vars (String c s) =
    match match_placeholder (String c s) with
    | Some (name, rest) => replace_var vars name +:+ subst_all vars rest
    | None => String c (subst_all vars s)
    end.
Proof.
  unfold subst_all. cbn [String.length re_sub].
  destruct (match_placeholder (String c s)) as [[name rest]|] eqn:Hm; [|done].
  apply match_placeholder_shorter in Hm. f_equal.
  apply re_sub_fuel; simpl in *; lia.
Qed.

(** Every placeholder with a valid identifier is replaced where it
    stands; the text before and after it is rendered on its own. *)
Lemma subst_all_placeholder vars pre name post :
  valid_ident name = true →
  subst_all vars (pre +:+ group0 name +:+ post) =
    subst_all vars pre +:+ replace_var vars name +:+ subst_all vars post.
Proof.
  intros Hv. remember (String.length pre) as n eqn:Hn.
  revert pre Hn. induction (lt_wf n) as [n _ IH]. intros pre ->.
  destruct pre as [|c pre].
  - rewrite app_nil_l, subst_all_nil, app_nil_l.
    pose proof (match_placeholder_group0 name post Hv) as Hm.
    destruct (group0 name +:+ post) as [|d s] eqn:Hg; [done|].
    by rewrite subst_all_cons, Hm.
  - rewrite app_cons, subst_all_cons, <-app_cons.
    rewrite (subst_all_cons vars c pre).
    destruct (match_placeholder (String c pre)) as [[name' rest]|] eqn:Hm.
    + rewrite (match_placeholder_app_Some _ _ _ _ Hm).
      rewrite (IH (String.length rest)); [|by apply match_placeholder_shorter in Hm|done].
      by rewrite app_assoc.
    + assert (∃ y, group0 name +:+ post = String "$" y) as [y Hy].
      { unfold group0. rewrite !app_cons. eauto. }
      rewrite Hy, match_placeholder_app_None by done. rewrite <-Hy.
      rewrite (IH (String.length pre)); [|simpl; lia|done].
      by rewrite app_cons.
Qed.

(** Text without a mapped placeholder is copied. *)
Lemma subst_all_verbatim vars s :
  (∀ pre name post,
      s = pre +:+ group0 name +:+ post → valid_ident name = true → vars !! name = None) →
  subst_all vars s = s.
Proof.
  remember (String.length s) as n eqn:Hn.
  revert s Hn. induction (lt_wf n) as [n _ IH]. intros s -> Hs.
  destruct s as [|c s]; [done|]. rewrite subst_all_cons.
  destruct (match_placeholder (String c s)) as [[name rest]|] eqn:Hm.
  - pose proof Hm as [Heq Hv]%match_placeholder_inv.
    unfold replace_var. rewrite (Hs "" name rest) by done.
    rewrite (IH (String.length rest)); [by rewrite Heq| |done|].
    + by apply match_placeholder_shorter in Hm.
    + intros pre name' post -> Hv'.
      apply (Hs (group0 name +:+ pre) name' post); [|done].
      by rewrite Heq, app_assoc.
  - f_equal. apply (IH (String.length s)); [simpl; lia|done|].
    intros pre name post -> Hv. by apply (Hs (String c pre) name post).
Qed.

Lemma render_subst_all vars s :
  vars ≠ ∅ → render_sql_template vars s = subst_all vars s.
Proof. intros ?. unfold render_sql_template. by case_decide. Qed.

Lemma render_empty s : render_sql_template ∅ s = s.
Proof. unfold render_sql_template. by case_decide. Qed.

Lemma render_placeholder vars pre name post :
  valid_ident name = true →
  render_sql_template vars (pre +:+ group0 name +:+ post) =
    render_sql_template vars pre +:+ replace_var vars name
      +:+ render_sql_template vars post.
Proof.
  intros Hv. unfold render_sql_template. case_decide as Hvars.
  - subst vars. unfold replace_var. by rewrite lookup_empty.
  - by apply subst_all_placeholder.
Qed.

Lemma render_verbatim vars s :
  (∀ pre name post,
      s = pre +:+ group0 name +:+ post → valid_ident name = true → vars !! name = None) →
  render_sql_template vars s = s.
Proof.
  intros Hs. unfold render_sql_template. case_decide; [done|].
  by apply subst_all_verbatim.
Qed.

End TemplateFacts.

(** * Reasoning about runs *)

Section RunFacts.
Context {A B : Type}.
Implicit Types (m : M A) (f : A → M B) (w : World).

Lemma bind_Returned m f w a :
  out (m w) = Returned a →
  bind m f w =
    mkRun (out (f a (final (m w)))) (final (f a (final (m w))))
          (events (m w) ++ events (f a (final (m w)))).
Proof.
  unfold bind. destruct (m w) as [o w' evs]. simpl. intros ->.
  by destruct (f a w').
Qed.

Lemma bind_Raised m f w e :
  out (m w) = Raised e →
  bind m f w = mkRun (Raised e) (final (m w)) (events (m w)).
Proof. unfold bind. destruct (m w) as [o w' evs]. simpl. by intros ->. Qed.

(** What holds of every event of both parts holds of every event of the
    whole. *)
Lemma events_bind (P : Event → Prop) m f w :
  Forall P (events (m w)) →
  (∀ a, out (m w) = Returned a → Forall P (events (f a (final (m w))))) →
  Forall P (events (bind m f w)).
Proof.
  intros Hm Hf. destruct (out (m w)) as [a|e] eqn:Ho.
  - rewrite (bind_Returned _ _ _ _ Ho). simpl. apply Forall_app. split; [done|]. by apply Hf.
  - by rewrite (bind_Raised _ _ _ _ Ho).
Qed.

(** A property of the world that both parts keep is kept by the whole. *)
Lemma final_bind (Q : World → Prop) m f w :
  Q (final (m w)) →
  (∀ a, out (m w) = Returned a → Q (final (f a (final (m w))))) →
  Q (final (bind m f w)).
Proof.
  intros Hm Hf. destruct (out (m w)) as [a|e] eqn:Ho.
  - rewrite (bind_Returned _ _ _ _ Ho). simpl. by apply Hf.
  - by rewrite (bind_Raised _ _ _ _ Ho).
Qed.

Lemma bind_out_Returned m f w b :
  out (bind m f w) = Returned b →
  ∃ a, out (m w) = Returned a ∧ out (f a (final (m w))) = Returned b.
Proof.
  destruct (out (m w)) as [a|e] eqn:Ho.
  - rewrite (bind_Returned _ _ _ _ Ho). simpl. eauto.
  - by rewrite (bind_Raised _ _ _ _ Ho).
Qed.

End RunFacts.

Section TryFacts.
Context {A : Type}.
Implicit Types (m handler : M A) (w : World).

Lemma try_except_caught m handler w :
  out (m w) = Raised Psycopg2Error →
  try_except m handler w =
    mkRun (out (handler (final (m w)))) (final (handler (final (m w))))
          (events (m w) ++ events (handler (final (m w)))).
Proof.
  unfold try_except. destruct (m w) as [o w' evs]. simpl. intros ->.
  by destruct (handler w').
Qed.

Lemma try_except_passed m handler w :
  out (m w) ≠ Raised Psycopg2Error → try_except m handler w = m w.
Proof.
  unfold try_except. destruct (m w) as [[a|[]] w' evs]; simpl; done.
Qed.

Lemma caught_or_passed m w :
  out (m w) = Raised Psycopg2Error ∨ out (m w) ≠ Raised Psycopg2Error.
Proof. destruct (out (m w)) as [a|[]]; auto. Qed.

Lemma events_try_except (P : Event → Prop) m handler w :
  Forall P (events (m w)) →
  Forall P (events (handler (final (m w)))) →
  Forall P (events (try_except m handler w)).
Proof.
  intros Hm Hh. destruct (caught_or_passed m w) as [Ho|Ho].
  - rewrite (try_except_caught _ _ _ Ho). simpl. apply Forall_app. by split.
  - by rewrite (try_except_passed _ _ _ Ho).
Qed.

Lemma final_try_except (Q : World → Prop) m handler w :
  Q (final (m w)) →
  Q (final (handler (final (m w)))) →
  Q (final (try_except m handler w)).
Proof.
  intros Hm Hh. destruct (caught_or_passed m w) as [Ho|Ho].
  - by rewrite (try_except_caught _ _ _ Ho).
  - by rewrite (try_except_passed _ _ _ Ho).
Qed.

End TryFacts.

(** * Discovery: the sorted files and the pending list *)

Section SortFacts.

Lemma elem_of_glob_sql (dir : Directory) name :
  name ∈ glob_sql dir ↔ Str.endswith name ".sql" = true ∧ is_Some (dir !! name).
Proof.
  unfold glob_sql. rewrite list_elem_of_filter, list_elem_of_fmap.
  split.
  - intros [? [[n c] [-> Hin%elem_of_map_to_list]]]. eauto.
  - intros [? [c Hc]]. split; [done|]. exists (name, c).
    split; [done|]. by apply elem_of_map_to_list.
Qed.

Lemma NoDup_glob_sql (dir : Directory) : NoDup (glob_sql dir).
Proof. apply NoDup_filter, NoDup_fst_map_to_list. Qed.

Lemma sorted_Permutation l : sorted l ≡ₚ l.
Proof. apply merge_sort_Permutation. Qed.

Lemma elem_of_sorted l (x : string) : x ∈ sorted l ↔ x ∈ l.
Proof. by rewrite sorted_Permutation. Qed.

Lemma StronglySorted_strict {A} (R : relation A) l :
  StronglySorted R l → NoDup l → StronglySorted (λ a b, R a b ∧ a ≠ b) l.
Proof.
  induction 1 as [|x l Hl IH Hx]; intros Hnd; [constructor|].
  apply NoDup_cons in Hnd as [Hin Hnd]. constructor; [by apply IH|].
  apply Forall_forall. intros y Hy. split.
  - by eapply Forall_forall in Hx.
  - intros ->. done.
Qed.

Lemma StronglySorted_filter {A} (R : relation A) (P : A → Prop)
    `{∀ x, Decision (P x)} l :
  StronglySorted R l → StronglySorted R (filter P l).
Proof.
  induction 1 as [|x l Hl IH Hx]; [constructor|].
  rewrite filter_cons. case_decide; [|done].
  constructor; [done|]. apply Forall_forall. intros y [_ Hy]%list_elem_of_filter.
  by eapply Forall_forall in Hx.
Qed.

(** [sorted] puts distinct names in strict byte-wise order. *)
Lemma sorted_strict l : NoDup l → StronglySorted Str.lt (sorted l).
Proof.
  intros Hnd. apply StronglySorted_strict.
  - apply StronglySorted_merge_sort; apply _.
  - by rewrite sorted_Permutation.
Qed.

Lemma lt_irrefl a : ¬ Str.lt a a.
Proof. by intros [_ ?]. Qed.

Lemma lt_trans a b c : Str.lt a b → Str.lt b c → Str.lt a c.
Proof.
  intros [Hab Hne] [Hbc Hne']. split; [by etrans|].
  intros ->. apply Hne. by apply (anti_symm String.le).
Qed.

Lemma lt_asym a b : Str.lt a b → ¬ Str.lt b a.
Proof. intros H1 H2. by apply (lt_irrefl a), (lt_trans a b a). Qed.

End SortFacts.

Section DictFacts.

Lemma applied_dict_snoc rows row :
  applied_dict (rows ++ [row]) = <[row_script row := row]> (applied_dict rows).
Proof. unfold applied_dict. by rewrite foldl_snoc. Qed.

(** The keys of the dictionary are the scripts of the rows. *)
Lemma applied_dict_is_Some rows name :
  is_Some (applied_dict rows !! name) ↔ name ∈ row_script <$> rows.
Proof.
  induction rows as [|row rows IH] using rev_ind.
  - unfold applied_dict. simpl. rewrite lookup_empty, elem_of_nil.
    split; [by intros []|done].
  - rewrite applied_dict_snoc, fmap_app, elem_of_app. simpl.
    rewrite list_elem_of_singleton.
    destruct (decide (row_script row = name)) as [->|Hne].
    + rewrite lookup_insert_eq. split; [by right|by eexists].
    + rewrite lookup_insert_ne by done. rewrite IH.
      split; [by left|]. by intros [?|?].
Qed.

Lemma applied_dict_None rows name :
  applied_dict rows !! name = None ↔ name ∉ row_script <$> rows.
Proof. rewrite <-applied_dict_is_Some, eq_None_not_Some. done. Qed.

Lemma applied_dict_Some rows name row :
  applied_dict rows !! name = Some row → row ∈ rows ∧ row_script row = name.
Proof.
  induction rows as [|row' rows IH] using rev_ind; [done|].
  rewrite applied_dict_snoc, elem_of_app, list_elem_of_singleton.
  destruct (decide (row_script row' = name)) as [<-|Hne].
  - rewrite lookup_insert_eq. intros [= ->]. split; [by right|done].
  - rewrite lookup_insert_ne by done. intros [??]%IH. split; [by left|done].
Qed.

End DictFacts.

Section PendingFacts.
Variable md5 : string → string.

Lemma from_file_ok (dir : Directory) path content w :
  Str.endswith path ".sql" = true → dir !! path = Some content →
  from_file md5 dir path w = mkRun (Returned (descriptor md5 path content)) w [].
Proof.
  intros Hsql Hfile. unfold from_file, bind, read_bytes. by rewrite Hsql, Hfile.
Qed.

(** The descriptors of the files [paths] of [dir]. *)
Lemma from_files_ok (dir : Directory) paths w :
  Forall (λ p, Str.endswith p ".sql" = true ∧ is_Some (dir !! p)) paths →
  from_files md5 dir paths w =
    mkRun (Returned ((λ p, descriptor md5 p (default "" (dir !! p))) <$> paths)) w [].
Proof.
  induction 1 as [|p paths [Hsql [content Hfile]] _ IH]; [done|].
  cbn [from_files]. unfold bind.
  rewrite (from_file_ok dir p content) by done. cbn [out final events].
  rewrite IH. simpl. by rewrite Hfile.
Qed.

Lemma get_applied_migrations_ok w rows :
  ledger_view w = Some rows →
  get_applied_migrations w = mkRun (Returned (applied_dict rows)) w [ESelectLedger true].
Proof.
  destruct w as [re [db|] [c|]]; try done.
  unfold ledger_view, ledger_of, get_applied_migrations, bind, cursor. simpl.
  destruct (ledger db) as [rows'|]; [|done]. simpl. by intros [= <-].
Qed.

Lemma filter_pending_spec applied all_migrations w :
  filter_pending applied all_migrations w =
    mkRun (Returned (filter (λ m, applied !! filename m = None) all_migrations)) w
          (drift_warnings applied all_migrations).
Proof.
  induction all_migrations as [|m ms IH]; [done|].
  cbn [filter_pending]. rewrite filter_cons. unfold drift_warnings. cbn [mbind list_bind].
  fold (drift_warnings applied ms).
  destruct (applied !! filename m) as [info|] eqn:Hm;
    unfold bind; try case_bool_decide; simpl; rewrite IH; simpl;
    rewrite ?app_nil_r; try case_decide; done.
Qed.

(** [get_pending_migrations] on a connection that can read the ledger. *)
Lemma get_pending_migrations_ok r w rows :
  ledger_view w = Some rows →
  let all_migrations :=
    (λ p, descriptor md5 p (default "" (migrations_dir r !! p)))
      <$> sorted (glob_sql (migrations_dir r)) in
  get_pending_migrations md5 r w =
    mkRun (Returned (filter (λ m, applied_dict rows !! filename m = None) all_migrations)) w
          (ESelectLedger true :: drift_warnings (applied_dict rows) all_migrations).
Proof.
  intros Hview all_migrations.
  assert (Forall (λ p, Str.endswith p ".sql" = true ∧ is_Some (migrations_dir r !! p))
            (sorted (glob_sql (migrations_dir r)))) as Hfiles.
  { apply Forall_forall. intros p Hp. rewrite elem_of_sorted in Hp.
    by apply elem_of_glob_sql. }
  unfold get_pending_migrations, bind.
  rewrite from_files_ok by done. simpl.
  rewrite (get_applied_migrations_ok w rows) by done. simpl.
  by rewrite filter_pending_spec.
Qed.

Lemma all_migrations_sorted (dir : Directory) :
  StronglySorted by_filename
    ((λ p, descriptor md5 p (default "" (dir !! p))) <$> sorted (glob_sql dir)).
Proof.
  apply (StronglySorted_fmap _ Str.lt); [done|].
  apply sorted_strict, NoDup_glob_sql.
Qed.

Lemma elem_of_all_migrations (dir : Directory) m :
  m ∈ (λ p, descriptor md5 p (default "" (dir !! p))) <$> sorted (glob_sql dir) ↔
  on_disk md5 dir m.
Proof.
  rewrite list_elem_of_fmap. unfold on_disk. split.
  - intros [p [-> Hp]]. rewrite elem_of_sorted in Hp.
    apply elem_of_glob_sql in Hp as [Hsql [content Hc]].
    exists content. simpl. by rewrite Hc.
  - intros [content (Hc & Hsql & Hm)]. exists (filename m). split.
    + by rewrite Hc.
    + apply elem_of_sorted, elem_of_glob_sql. eauto.
Qed.

(** C1, as the code has it: on a connection that can read the ledger,
    [get_pending_migrations] returns exactly the descriptors of the
    [.sql] files on disk whose name is not a script of the ledger,
    whatever checksum the ledger holds for it, in strict byte-wise order
    of the file names; it changes nothing. *)
Theorem pending_is_unrecorded_files_in_name_order r w rows :
  ledger_view w = Some rows →
  ∃ pending,
    out (get_pending_migrations md5 r w) = Returned pending ∧
    final (get_pending_migrations md5 r w) = w ∧
    (∀ m, m ∈ pending ↔
          on_disk md5 (migrations_dir r) m ∧ filename m ∉ row_script <$> rows) ∧
    StronglySorted by_filename pending.
Proof.
  intros Hview. rewrite (get_pending_migrations_ok r w rows Hview). simpl.
  eexists. split; [done|]. split; [done|]. split.
  - intros m. rewrite list_elem_of_filter, elem_of_all_migrations, applied_dict_None.
    tauto.
  - apply StronglySorted_filter, all_migrations_sorted.
Qed.

End PendingFacts.

(** * Which script an event belongs to *)

Section LogFacts.

Lemma executed_Exists evs k name :
  executed evs k name ↔
  Exists (λ e, is_execute e = true ∧ script_of e = Some (k, name)) evs.
Proof.
  rewrite Exists_exists. unfold executed. split.
  - intros (sql & ok & Hin). by exists (EExecute k name sql ok).
  - intros (e & Hin & He & Hs). destruct e; try done.
    simpl in Hs. injection Hs as -> ->. eauto.
Qed.

Lemma execution_failed_Exists evs k name :
  execution_failed evs k name ↔
  Exists (λ e, is_failure e = true ∧ script_of e = Some (k, name)) evs.
Proof.
  rewrite Exists_exists. unfold execution_failed. split.
  - intros [[sql Hin]|Hin]; eexists; (split; [exact Hin|done]).
  - intros (e & Hin & He & Hs). destruct e; try done; simpl in *.
    all: repeat match goal with
                | b : bool |- _ => destruct b; try done
                | s : txn_site |- _ => destruct s; try done
                end.
    all: injection Hs as -> ->; eauto.
Qed.

Lemma window_refl l : window l l.
Proof. exists [], []. by rewrite app_nil_r. Qed.

Lemma window_app l pre evs post : window l evs → window l (pre ++ evs ++ post).
Proof.
  intros (pre' & post' & ->). exists (pre ++ pre'), (post' ++ post).
  by rewrite <-!app_assoc.
Qed.

Lemma window_app_l l evs post : window l evs → window l (evs ++ post).
Proof. intros H. by apply (window_app l [] evs post). Qed.

Lemma window_app_r l pre evs : window l evs → window l (pre ++ evs).
Proof. intros H. rewrite <-(app_nil_r evs). by apply window_app. Qed.

Lemma window_elem_of l evs e : window l evs → e ∈ l → e ∈ evs.
Proof. intros (pre & post & ->) He. rewrite !elem_of_app. auto. Qed.

End LogFacts.

Ltac run_primitives :=
  unfold bind, try_except, read_bytes, read_text, cursor, execute_script, commit, insert_row,
    rollback, emit, ret, raise, close, connect, set_conn, set_target; simpl.

Ltac split_cases :=
  repeat (simpl;
    match goal with
    | |- context [match ?x with _ => _ end] =>
        lazymatch x with
        | context [match _ with _ => _ end] => fail
        | _ => destruct x eqn:?
        end
    end); simpl.

(** One step through a [bind] in the goal: the first part returns or
    raises. *)
Ltac step_bind H :=
  match goal with
  | |- context [bind ?m ?f ?w] =>
      let a := fresh "a" in
      let e := fresh "e" in
      destruct (out (m w)) as [a|e] eqn:H;
      [rewrite (bind_Returned m f w a H) | rewrite (bind_Raised m f w e H)];
      cbn [out final events]
  end.

Section ReadFacts.

Lemma readable_decode (dir : Directory) f :
  readable dir f ↔ ∃ content text, dir !! f = Some content ∧ Text.decode content = Some text.
Proof.
  unfold readable. destruct (dir !! f) as [content|]; simpl.
  - split.
    + intros [text Htext]. eauto.
    + intros (? & text & [= <-] & Htext). by exists text.
  - split; [by intros [??]|by intros (? & ? & ? & ?)].
Qed.

Lemma read_text_ok (dir : Directory) f content text w :
  dir !! f = Some content → Text.decode content = Some text →
  read_text dir f w = mkRun (Returned text) w [].
Proof. intros Hf Ht. unfold read_text. by rewrite Hf, Ht. Qed.

Lemma read_text_undecodable (dir : Directory) f content w :
  dir !! f = Some content → Text.decode content = None →
  read_text dir f w = mkRun (Raised UnicodeDecodeError) w [].
Proof. intros Hf Ht. unfold read_text. by rewrite Hf, Ht. Qed.

Lemma not_readable (dir : Directory) f content :
  dir !! f = Some content → Text.decode content = None → ¬ readable dir f.
Proof. intros Hf Ht. unfold readable. rewrite Hf. simpl. rewrite Ht. by intros [??]. Qed.

(** Whether every [.sql] file of a directory can be read is decided by
    running the decoder. *)
Lemma all_readable (dir : Directory) :
  bool_decide (Forall (readable dir) (glob_sql dir)) = true →
  ∀ f, f ∈ glob_sql dir → readable dir f.
Proof. intros Hall%bool_decide_eq_true. by apply Forall_forall. Qed.

Lemma rendered_text r (dir : Directory) f content text :
  dir !! f = Some content → Text.decode content = Some text →
  rendered r dir f = Template.render_sql_template (template_vars r) text.
Proof. intros Hf Ht. unfold rendered. rewrite Hf. simpl. by rewrite Ht. Qed.

End ReadFacts.

Section EventFacts.
Variable md5 : string → string.
Variable create_ok : Creation → list string → bool.
Variable execute_ok : list string → string → bool.
Variable commit_ok : list string → list string → bool.

Local Arguments store_row : simpl never.
Local Arguments Template.render_sql_template : simpl never.
Local Arguments String.substring : simpl never.

Abbreviation apply_migration := (apply_migration execute_ok commit_ok).
Abbreviation migrate_loop := (migrate_loop execute_ok commit_ok).
Abbreviation run_callbacks := (run_callbacks execute_ok commit_ok).
Abbreviation run_after_migrate_scripts := (run_after_migrate_scripts execute_ok commit_ok).
Abbreviation initialize_schema_table := (initialize_schema_table create_ok commit_ok).
Abbreviation ensure_database_exists := (ensure_database_exists create_ok).
Abbreviation migrate := (migrate md5 create_ok execute_ok commit_ok).

(** ** [apply_migration] *)

Lemma apply_migration_events r m dry w :
  Forall (λ e, script_of e = Some (KMigration, filename m))
    (events (apply_migration r m dry w)).
Proof.
  unfold apply_migration.
  destruct w as [re [[led hist]|] [[ss sr]|]]; run_primitives.
  all: split_cases; repeat constructor.
Qed.

(** A migration that returns [True] ran without a failure. *)
Lemma apply_migration_True r m dry w :
  out (apply_migration r m dry w) = Returned true →
  Forall (λ e, is_failure e = false) (events (apply_migration r m dry w)).
Proof.
  unfold apply_migration.
  destruct w as [re [[led hist]|] [[ss sr]|]]; run_primitives.
  all: split_cases; try done; intros _; repeat constructor.
Qed.

(** A [success = true] row is only stored by the sequence execute,
    commit, insert, commit. *)
Lemma apply_migration_recorded r m dry w :
  Forall (λ e, is_recorded_success e = false) (events (apply_migration r m dry w)) ∨
  ∃ sql, events (apply_migration r m dry w) = applied_events r m sql.
Proof.
  unfold apply_migration, applied_events, ledger_row.
  destruct w as [re [[led hist]|] [[ss sr]|]]; run_primitives.
  all: split_cases; try (left; by repeat constructor); right; eauto.
Qed.

Lemma quiet_no_script evs e x :
  Forall quiet evs → e ∈ evs → script_of e = Some x → False.
Proof.
  intros Hq He Hx. rewrite Forall_forall in Hq. specialize (Hq e He).
  unfold quiet in Hq. congruence.
Qed.

Lemma close_events w : Forall quiet (events (close w)).
Proof. run_primitives. split_cases; by repeat constructor. Qed.

Lemma close_ret_events {A} (x : A) w : Forall quiet (events ((close;; ret x)%run w)).
Proof. run_primitives. split_cases; by repeat constructor. Qed.

(** ** The loop of [migrate] *)

Lemma migrate_loop_events r dry ms n w :
  Forall (λ e, e = EClose ∨ ∃ m, m ∈ ms ∧ script_of e = Some (KMigration, filename m))
    (events (migrate_loop r dry ms n w)).
Proof.
  revert n w. induction ms as [|m ms IH]; intros n w; [constructor|].
  cbn [migrate_loop]. apply events_bind.
  - eapply Forall_impl; [apply apply_migration_events|].
    intros e He. right. exists m. split; [by left|done].
  - intros [] _; simpl.
    + eapply Forall_impl; [apply IH|]. intros e [->|(m' & Hm' & He)]; [by left|].
      right. exists m'. split; [by right|done].
    + run_primitives. split_cases; repeat constructor.
Qed.

(** After the first failure the loop runs nothing: a failed script and a
    script run in the same loop are never in ascending order. *)
Lemma migrate_loop_halts r dry ms n w e1 e2 b c :
  StronglySorted by_filename ms →
  e1 ∈ events (migrate_loop r dry ms n w) →
  e2 ∈ events (migrate_loop r dry ms n w) →
  is_failure e1 = true →
  script_of e1 = Some (KMigration, b) → script_of e2 = Some (KMigration, c) →
  ¬ Str.lt b c.
Proof.
  intros Hsorted. revert n w.
  induction Hsorted as [|m ms Hsorted IH Hm]; intros n w; [by intros ?%elem_of_nil|].
  assert (∀ e x, e ∈ events (apply_migration r m dry w) →
                 script_of e = Some (KMigration, x) → x = filename m) as Hhere.
  { intros e x He Hx. pose proof (apply_migration_events r m dry w) as Hall.
    rewrite Forall_forall in Hall. specialize (Hall e He). congruence. }
  cbn [migrate_loop]. step_bind Ho.
  - destruct a; simpl.
    + rewrite !elem_of_app. intros H1 H2 Hfail Hb Hc.
      pose proof (apply_migration_True r m dry w Ho) as Hok.
      rewrite Forall_forall in Hok.
      destruct H1 as [H1|H1]; [specialize (Hok e1 H1); congruence|].
      destruct H2 as [H2|H2]; [|by eapply IH].
      apply (Hhere _ _ H2) in Hc as ->.
      pose proof (migrate_loop_events r dry ms (S n) (final (apply_migration r m dry w)))
        as Hrest.
      rewrite Forall_forall in Hrest. destruct (Hrest e1 H1) as [->|(m' & Hm' & Hs)]; [done|].
      rewrite Forall_forall in Hm. specialize (Hm m' Hm').
      assert (b = filename m') as -> by congruence.
      by apply lt_asym.
    + rewrite !elem_of_app. intros [H1|H1] [H2|H2] Hfail Hb Hc;
        try (by destruct (quiet_no_script _ _ _ (close_ret_events _ _) H1 Hb));
        try (by destruct (quiet_no_script _ _ _ (close_ret_events _ _) H2 Hc)).
      apply (Hhere _ _ H1) in Hb as ->. apply (Hhere _ _ H2) in Hc as ->.
      apply lt_irrefl.
  - intros H1 H2 Hfail Hb Hc.
    apply (Hhere _ _ H1) in Hb as ->. apply (Hhere _ _ H2) in Hc as ->.
    apply lt_irrefl.
Qed.

(** Every [success = true] row stored by the loop closes the sequence
    execute, commit, insert, commit of its migration. *)
Lemma migrate_loop_recorded r dry ms n w e :
  e ∈ events (migrate_loop r dry ms n w) → is_recorded_success e = true →
  ∃ m sql, m ∈ ms ∧ e ∈ applied_events r m sql ∧
           window (applied_events r m sql) (events (migrate_loop r dry ms n w)).
Proof.
  revert n w. induction ms as [|m ms IH]; intros n w; [by intros ?%elem_of_nil|].
  cbn [migrate_loop].
  assert (e ∈ events (apply_migration r m dry w) → is_recorded_success e = true →
          ∃ sql, e ∈ applied_events r m sql ∧
                 events (apply_migration r m dry w) = applied_events r m sql) as Hhere.
  { intros He Hgood. destruct (apply_migration_recorded r m dry w) as [Hnone|[sql Hsql]].
    - rewrite Forall_forall in Hnone. specialize (Hnone e He). congruence.
    - exists sql. by rewrite <-Hsql. }
  step_bind Ho.
  - intros [He|He]%elem_of_app Hgood.
    + destruct (Hhere He Hgood) as (sql & Hin & Heq).
      exists m, sql. split; [by left|]. split; [done|].
      rewrite Heq. apply window_app_l, window_refl.
    + destruct a; simpl in He.
      * destruct (IH _ _ He Hgood) as (m' & sql & Hm' & Hin & Hwin).
        exists m', sql. split; [by right|]. split; [done|]. by apply window_app_r.
      * pose proof (close_ret_events (inl 1%Z : Z + nat)
                      (final (apply_migration r m dry w))) as Hq.
        rewrite Forall_forall in Hq. specialize (Hq e He).
        destruct e as [| | | | | | | | |row []| | | | |]; done.
  - intros He Hgood. destruct (Hhere He Hgood) as (sql & Hin & Heq).
    exists m, sql. split; [by left|]. split; [done|]. rewrite Heq. apply window_refl.
Qed.

(** ** The steps of [migrate] around the loop *)

Lemma ensure_database_exists_events r w :
  Forall quiet (events (ensure_database_exists r w)).
Proof.
  unfold ensure_database_exists. run_primitives. split_cases; by repeat constructor.
Qed.

Lemma connect_events w : Forall quiet (events (connect w)).
Proof. run_primitives. split_cases; by repeat constructor. Qed.

Lemma initialize_schema_table_events w :
  Forall quiet (events (initialize_schema_table w)).
Proof.
  unfold initialize_schema_table. destruct w as [re [[led hist]|] [[ss sr]|]].
  all: run_primitives; split_cases; by repeat constructor.
Qed.

Lemma drift_warnings_quiet applied all_migrations :
  Forall quiet (drift_warnings applied all_migrations).
Proof.
  unfold drift_warnings. induction all_migrations as [|m ms IH]; [constructor|].
  cbn [mbind list_bind]. apply Forall_app. split; [|done].
  split_cases; by repeat constructor.
Qed.

(** Without a readable ledger [get_pending_migrations] raises. *)
Lemma get_pending_migrations_raises r w :
  ledger_view w = None →
  ∃ e evs, get_pending_migrations md5 r w = mkRun (Raised e) w evs ∧ Forall quiet evs.
Proof.
  intros Hview.
  assert (Forall (λ p, Str.endswith p ".sql" = true ∧ is_Some (migrations_dir r !! p))
            (sorted (glob_sql (migrations_dir r)))) as Hfiles.
  { apply Forall_forall. intros p Hp. rewrite elem_of_sorted in Hp.
    by apply elem_of_glob_sql. }
  unfold get_pending_migrations, bind. rewrite from_files_ok by done.
  revert Hview. unfold ledger_view, ledger_of, get_applied_migrations.
  destruct w as [re [[led hist]|] [[ss sr]|]]; run_primitives.
  all: split_cases; try done; intros _; do 2 eexists; (split; [done|by repeat constructor]).
Qed.

Lemma get_pending_migrations_events r w :
  Forall quiet (events (get_pending_migrations md5 r w)).
Proof.
  destruct (ledger_view w) as [rows|] eqn:Hview.
  - rewrite (get_pending_migrations_ok md5 r w rows Hview). simpl.
    constructor; [done|]. apply drift_warnings_quiet.
  - destruct (get_pending_migrations_raises r w Hview) as (e & evs & -> & Hq). done.
Qed.

(** The pending list is in strict order of the file names. *)
Lemma get_pending_migrations_sorted r w pending :
  out (get_pending_migrations md5 r w) = Returned pending →
  StronglySorted by_filename pending.
Proof.
  destruct (ledger_view w) as [rows|] eqn:Hview.
  - rewrite (get_pending_migrations_ok md5 r w rows Hview). simpl. intros [= <-].
    apply StronglySorted_filter, all_migrations_sorted.
  - destruct (get_pending_migrations_raises r w Hview) as (e & evs & -> & Hq). done.
Qed.

Lemma get_pending_migrations_final r w :
  final (get_pending_migrations md5 r w) = w.
Proof.
  destruct (ledger_view w) as [rows|] eqn:Hview.
  - by rewrite (get_pending_migrations_ok md5 r w rows Hview).
  - by destruct (get_pending_migrations_raises r w Hview) as (e & evs & -> & Hq).
Qed.

(** ** Callbacks *)

Lemma run_callbacks_events r dir dry files w :
  Forall callback_event (events (run_callbacks r dir dry files w)).
Proof.
  revert w. induction files as [|f files IH]; intros w; [constructor|].
  cbn [run_callbacks]. apply events_bind; [by run_primitives; split_cases|].
  intros content _. apply events_bind; [|intros; apply IH].
  destruct (final (read_text dir f w)) as [re [[led hist]|] [[ss sr]|]]; run_primitives.
  all: split_cases; repeat constructor; by eexists.
Qed.

Lemma run_after_migrate_scripts_events r dry w :
  Forall callback_event (events (run_after_migrate_scripts r dry w)).
Proof.
  unfold run_after_migrate_scripts. destruct (after_migrate_dir r); [|constructor].
  apply run_callbacks_events.
Qed.

(** ** The event log of [migrate] *)

(** The events of the loop, between quiet events before it and quiet or
    callback events after it. *)
Lemma migrate_events r dry w :
  ∃ pre ms w1 post,
    events (migrate r dry w) = pre ++ events (migrate_loop r dry ms 0 w1) ++ post ∧
    Forall quiet pre ∧
    Forall (λ e, quiet e ∨ callback_event e) post ∧
    StronglySorted by_filename ms.
Proof.
  assert (∀ evs, Forall quiet evs →
            ∃ pre ms w1 post,
              evs = pre ++ events (migrate_loop r dry ms 0 w1) ++ post ∧
              Forall quiet pre ∧ Forall (λ e, quiet e ∨ callback_event e) post ∧
              StronglySorted by_filename ms) as Hquiet.
  { intros evs Hq. exists evs, [], w, []. simpl. rewrite app_nil_r.
    repeat split; [done|constructor|constructor]. }
  assert (∀ w' (b : bool), Forall (λ e, quiet e ∨ callback_event e)
            (events (((if b then ret tt else run_after_migrate_scripts r dry);;
                      close;; ret 0%Z)%run w'))) as Htail.
  { intros w' b. apply events_bind.
    - destruct b; [constructor|].
      eapply Forall_impl; [apply run_after_migrate_scripts_events|]. auto.
    - intros _ _. eapply Forall_impl; [apply close_ret_events|]. auto. }
  unfold migrate.
  pose proof (ensure_database_exists_events r w) as H1.
  step_bind Ho1; [|by apply Hquiet].
  pose proof (connect_events (final (ensure_database_exists r w))) as H2.
  step_bind Ho2; [|apply Hquiet; by apply Forall_app].
  set (w2 := final (connect (final (ensure_database_exists r w)))) in *.
  assert (Forall quiet (events ((if dry then ret tt else initialize_schema_table) w2))) as H3.
  { destruct dry; [constructor|apply initialize_schema_table_events]. }
  step_bind Ho3; [|apply Hquiet; by rewrite !Forall_app].
  set (w3 := final ((if dry then ret tt else initialize_schema_table) w2)) in *.
  pose proof (get_pending_migrations_events r w3) as H4.
  pose proof (get_pending_migrations_final r w3) as Hw4.
  step_bind Ho4; [|apply Hquiet; by rewrite !Forall_app].
  rewrite Hw4. rename a2 into pending.
  pose proof (get_pending_migrations_sorted r w3 pending Ho4) as Hsorted.
  destruct pending as [|m ms].
  - match goal with
    | |- ∃ pre ms w1 post, ?e1 ++ ?e2 ++ ?e3 ++ ?e4 ++ ?tl = _ ∧ _ =>
        exists (e1 ++ e2 ++ e3 ++ e4), [], w, tl
    end.
    split; [by rewrite <-!app_assoc|].
    split; [by rewrite !Forall_app|]. split; [apply Htail|constructor].
  - step_bind Ho5.
    + match goal with
      | |- ∃ pre ms w1 post, ?e1 ++ ?e2 ++ ?e3 ++ ?e4 ++ ?e5 ++ ?tl = _ ∧ _ =>
          exists (e1 ++ e2 ++ e3 ++ e4), (m :: ms), w3, tl
      end.
      split; [by rewrite <-!app_assoc|].
      split; [by rewrite !Forall_app|]. split; [|done].
      destruct a2 as [code|k]; [constructor|].
      destruct (0 <? k)%nat; [apply (Htail _ false)|apply (Htail _ true)].
    + match goal with
      | |- ∃ pre ms w1 post, ?e1 ++ ?e2 ++ ?e3 ++ ?e4 ++ ?e5 = _ ∧ _ =>
          exists (e1 ++ e2 ++ e3 ++ e4), (m :: ms), w3, []
      end.
      split; [by rewrite app_nil_r, <-!app_assoc|].
      split; [by rewrite !Forall_app|]. split; [constructor|done].
Qed.

(** An event of a migration script is an event of the loop. *)
Lemma migration_event_in_loop pre loop post e name :
  Forall quiet pre → Forall (λ e, quiet e ∨ callback_event e) post →
  e ∈ pre ++ loop ++ post → script_of e = Some (KMigration, name) → e ∈ loop.
Proof.
  intros Hpre Hpost [He|[He|He]%elem_of_app]%elem_of_app Hs; [|done|].
  - by destruct (quiet_no_script _ _ _ Hpre He Hs).
  - rewrite Forall_forall in Hpost. destruct (Hpost e He) as [Hq|[n Hn]].
    + unfold quiet in Hq. congruence.
    + congruence.
Qed.

(** C3: in one run of [migrate], when running the script of migration
    [b] fails (its [execute] or the commit after it raises), no script of
    a migration [c] that is ordered after [b] is run: the loop stops at
    the first failure. *)
Theorem migrate_halts_at_first_failure r dry w b c :
  Str.lt b c →
  execution_failed (events (migrate r dry w)) KMigration b →
  ¬ executed (events (migrate r dry w)) KMigration c.
Proof.
  intros Hlt Hfail Hrun.
  destruct (migrate_events r dry w) as (pre & ms & w1 & post & Heq & Hpre & Hpost & Hsorted).
  rewrite Heq in Hfail, Hrun.
  apply execution_failed_Exists, Exists_exists in Hfail as (e1 & H1 & Hf1 & Hs1).
  apply executed_Exists, Exists_exists in Hrun as (e2 & H2 & _ & Hs2).
  apply (migration_event_in_loop _ _ _ _ b Hpre Hpost) in H1; [|done].
  apply (migration_event_in_loop _ _ _ _ c Hpre Hpost) in H2; [|done].
  by apply (migrate_loop_halts r dry ms 0 w1 e1 e2 b c).
Qed.

(** C10: whenever [migrate] stores a ledger row with [success = true],
    the log holds, one after the other, the execution of that script, the
    commit of the script's transaction, the insert of the row and a
    second commit for the row: the script is committed before its row is
    inserted, and the two are never one transaction. *)
Theorem success_row_follows_script_commit r dry w row :
  EInsert row true ∈ events (migrate r dry w) →
  row_success row = true →
  ∃ sql,
    window [EExecute KMigration (row_script row) sql true;
            ECommit (SiteScript KMigration (row_script row)) true;
            EInsert row true;
            ECommit (SiteLedger (row_script row)) true]
      (events (migrate r dry w)).
Proof.
  intros Hin Hsucc.
  destruct (migrate_events r dry w) as (pre & ms & w1 & post & Heq & Hpre & Hpost & Hsorted).
  rewrite Heq in Hin |- *.
  apply (migration_event_in_loop _ _ _ _ (row_script row) Hpre Hpost) in Hin; [|done].
  destruct (migrate_loop_recorded r dry ms 0 w1 _ Hin Hsucc) as (m & sql & _ & Hrow & Hwin).
  exists sql. apply window_app.
  assert (row = mkRow (filename m) (description m) (checksum m) (user r) true) as ->; [|done].
  unfold applied_events in Hrow.
  rewrite !elem_of_cons, elem_of_nil in Hrow.
  destruct Hrow as [?|[?|[?|[?|[]]]]]; congruence.
Qed.

End EventFacts.

(** * The ledger *)

Section LedgerFacts.

(** What is left after the first [n] characters of a longer text: a
    suffix that is not empty. *)
Lemma text_drop_suffix n s :
  n < Text.length s →
  ∃ k, k + String.length (Text.drop n s) = String.length s ∧
       0 < String.length (Text.drop n s) ∧
       ∀ i, String.get i (Text.drop n s) = String.get (i + k) s.
Proof.
  revert n. induction s as [|c s IH]; intros n; simpl; [lia|].
  destruct (Text.continuation c); simpl.
  - intros (k & Hlen & Hpos & Hget)%IH. exists (S k).
    split; [lia|]. split; [done|]. intros i. rewrite Hget. by rewrite Nat.add_succ_r.
  - destruct n as [|n]; simpl.
    + intros _. exists 0. split; [done|]. split; [lia|]. intros i. by rewrite Nat.add_0_r.
    + intros Hn. destruct (IH n) as (k & Hlen & Hpos & Hget); [lia|]. exists (S k).
      split; [lia|]. split; [done|]. intros i. rewrite Hget. by rewrite Nat.add_succ_r.
Qed.

Lemma all_spaces_get s i c :
  Str.all_spaces s = true → String.get i s = Some c → c = " "%char.
Proof.
  revert i. induction s as [|d s IH]; intros i; [done|]. simpl.
  intros [Hd Hs]%andb_true_iff. destruct i; simpl.
  - intros [= <-]. by apply Ascii.eqb_eq in Hd.
  - by apply IH.
Qed.

Lemma endswith_sql_last name :
  Str.endswith name ".sql" = true →
  String.get (String.length name - 1) name = Some "l"%char ∧ 4 ≤ String.length name.
Proof.
  unfold Str.endswith. change (String.length ".sql") with 4. cbv zeta.
  intros [Hlen Hsuf]%andb_true_iff.
  apply Nat.leb_le in Hlen. apply String.eqb_eq in Hsuf. split; [|done].
  pose proof (String.substring_correct1 name (String.length name - 4) 4 3) as Hget.
  rewrite Hsuf in Hget. simpl in Hget. rewrite Hget by lia. f_equal. lia.
Qed.

(** The name of a [.sql] file is stored as it is, or not at all. *)
Lemma varchar_sql_name n name stored :
  Str.endswith name ".sql" = true → varchar n name = Some stored → stored = name.
Proof.
  intros Hsql. unfold varchar. destruct (Text.length name <=? n)%nat eqn:Hlen.
  { by intros [= <-]. }
  apply Nat.leb_gt in Hlen.
  destruct (Str.all_spaces (Text.drop n name)) eqn:Hsp; [|done].
  apply endswith_sql_last in Hsql as [Hlast _].
  destruct (text_drop_suffix n name Hlen) as (k & Hk & Hpos & Hget).
  assert (String.get (String.length (Text.drop n name) - 1) (Text.drop n name)
          = Some "l"%char) as Hl.
  { rewrite Hget, <-Hlast. f_equal. lia. }
  by apply (all_spaces_get _ _ _ Hsp) in Hl.
Qed.

Lemma store_row_inv rows row stored :
  store_row rows row = Some stored →
  varchar 1000 (row_script row) = Some (row_script stored) ∧
  (row_script stored ∉ row_script <$> rows) ∧
  row_success stored = row_success row.
Proof.
  unfold store_row. intros H.
  destruct (varchar 1000 (row_script row)) as [script|]; [|done]. simpl in H.
  destruct (varchar 200 (row_description row)) as [descr|]; [|done]. simpl in H.
  destruct (varchar 32 (row_checksum row)) as [sum|]; [|done]. simpl in H.
  destruct (varchar 100 (row_installed_by row)) as [who|]; [|done]. simpl in H.
  case_bool_decide; [done|]. by injection H as <-.
Qed.

(** The decision of the table does not look at the success flag. *)
Lemma store_row_success rows script descr sum who b b' :
  store_row rows (mkRow script descr sum who b) = None →
  store_row rows (mkRow script descr sum who b') = None.
Proof.
  unfold store_row. simpl.
  destruct (varchar 1000 script); [|done]. simpl.
  destruct (varchar 200 descr); [|done]. simpl.
  destruct (varchar 32 sum); [|done]. simpl.
  destruct (varchar 100 who); [|done]. simpl.
  by case_bool_decide.
Qed.

Lemma ledger_grows_trans rows1 rows2 rows3 :
  ledger_grows rows1 rows2 → ledger_grows rows2 rows3 → ledger_grows rows1 rows3.
Proof. induction 2; [done|]. by econstructor. Qed.

Lemma ledger_grows_one rows row stored :
  store_row rows row = Some stored → ledger_grows rows (rows ++ [stored]).
Proof. intros. econstructor; [constructor|done]. Qed.

Lemma ledger_grows_scripts rows rows' name :
  ledger_grows rows rows' → name ∈ row_script <$> rows → name ∈ row_script <$> rows'.
Proof.
  induction 1; [done|]. intros Hin. rewrite fmap_app, elem_of_app. left. auto.
Qed.

(** A script that is recorded keeps its rows, and gets no other. *)
Lemma ledger_grows_rows_of rows rows' name :
  ledger_grows rows rows' → name ∈ row_script <$> rows →
  rows_of name rows' = rows_of name rows.
Proof.
  induction 1 as [|rows' row stored Hgrows IH Hstore]; [done|]. intros Hin.
  unfold rows_of in *. rewrite filter_app, IH by done.
  rewrite filter_cons_False; [by rewrite filter_nil, app_nil_r|].
  intros Heq. apply store_row_inv in Hstore as (_ & Hfresh & _).
  apply Hfresh. rewrite Heq. by eapply ledger_grows_scripts.
Qed.

End LedgerFacts.

(** * The state of the world along [migrate] *)

Section StateFacts.
Variable md5 : string → string.
Variable create_ok : Creation → list string → bool.
Variable execute_ok : list string → string → bool.
Variable commit_ok : list string → list string → bool.

Local Arguments store_row : simpl never.
Local Arguments Template.render_sql_template : simpl never.
Local Arguments String.substring : simpl never.

Abbreviation apply_migration := (apply_migration execute_ok commit_ok).
Abbreviation migrate_loop := (migrate_loop execute_ok commit_ok).
Abbreviation run_callbacks := (run_callbacks execute_ok commit_ok).
Abbreviation run_after_migrate_scripts := (run_after_migrate_scripts execute_ok commit_ok).
Abbreviation initialize_schema_table := (initialize_schema_table create_ok commit_ok).
Abbreviation ensure_database_exists := (ensure_database_exists create_ok).
Abbreviation migrate := (migrate md5 create_ok execute_ok commit_ok).

Ltac open_world w :=
  destruct w as [re [[led hist]|] [[ss sr]|]];
  unfold ready, ledger_of, empty_connection in *; simpl in *; simplify_eq/=.

(** ** The connection *)

Lemma close_spec w :
  out (close w) = Returned tt ∧ conn (final (close w)) = None ∧
  reachable (final (close w)) = reachable w ∧ target (final (close w)) = target w.
Proof. run_primitives. by split_cases. Qed.

Lemma close_ret_spec {A} (x : A) w :
  out ((close;; ret x)%run w) = Returned x ∧ conn (final ((close;; ret x)%run w)) = None ∧
  reachable (final ((close;; ret x)%run w)) = reachable w ∧
  target (final ((close;; ret x)%run w)) = target w.
Proof. run_primitives. by split_cases. Qed.

(** A loop that leaves [migrate] has closed the connection. *)
Lemma migrate_loop_inl r dry ms n w code :
  out (migrate_loop r dry ms n w) = Returned (inl code) →
  code = 1%Z ∧ conn (final (migrate_loop r dry ms n w)) = None.
Proof.
  revert n w. induction ms as [|m ms IH]; intros n w; [done|].
  cbn [migrate_loop]. step_bind Ho; [|done].
  destruct a; simpl; [apply IH|].
  destruct (close_ret_spec (inl 1%Z : Z + nat) (final (apply_migration r m dry w)))
    as (-> & -> & _). by intros [= <-].
Qed.

(** C9, as the code has it: whenever [migrate] returns an exit code, be
    it 0 or 1, the connection is closed ([self.conn] is [None]) at that
    point.  Nothing is said of a run that ends in an exception. *)
Theorem migrate_returns_with_connection_closed r dry w code :
  out (migrate r dry w) = Returned code →
  conn (final (migrate r dry w)) = None.
Proof.
  assert (∀ (b : bool) w',
            conn (final (((if b then ret tt else run_after_migrate_scripts r dry);;
                          close;; ret 0%Z)%run w')) = None ∨
            ∃ e, out (((if b then ret tt else run_after_migrate_scripts r dry);;
                       close;; ret 0%Z)%run w') = Raised e) as Htail.
  { intros b w'. step_bind Ho; [|right; eauto]. left. apply close_ret_spec. }
  unfold migrate.
  step_bind Ho1; [|done]. step_bind Ho2; [|done]. step_bind Ho3; [|done].
  step_bind Ho4; [|done]. destruct a2 as [|m ms].
  - intros Hout. destruct (Htail a (final (get_pending_migrations md5 r
      (final ((if dry then ret tt else initialize_schema_table)
         (final (connect (final (ensure_database_exists r w))))))))) as [H|[e He]];
      [done|congruence].
  - step_bind Ho5; [|done]. destruct a2 as [code'|k].
    + intros _. by apply migrate_loop_inl in Ho5 as [_ ?].
    + intros Hout. destruct (0 <? k)%nat.
      * match goal with
        | |- conn (final (_ ?w')) = None => destruct (Htail false w') as [H|[e He]]
        end; [done|congruence].
      * match goal with
        | |- conn (final (_ ?w')) = None => destruct (Htail true w') as [H|[e He]]
        end; [done|congruence].
Qed.

(** ** Steps from a ready world *)

Lemma bind_prepend {A B} (m : M A) (f : A → M B) w a w' evs :
  m w = mkRun (Returned a) w' evs → bind m f w = prepend evs (f a w').
Proof. intros H. unfold bind, prepend. rewrite H. by destruct (f a w'). Qed.

Lemma ensure_database_exists_ok r w :
  reachable w = true →
  ensure_database_exists r w =
    match target w with
    | None =>
        if create_ok (CreateDatabase (database r)) []
        then mkRun (Returned true) (set_target (Some empty_database) w)
               [EAdminConnect true; ECreateDatabase (database r)]
        else mkRun (Raised (SystemExit 1)) w
               [EAdminConnect true; ERefused (CreateDatabase (database r))]
    | Some _ => mkRun (Returned false) w [EAdminConnect true]
    end.
Proof.
  intros Hre. unfold ensure_database_exists, try_except. rewrite Hre.
  destruct (target w); [done|]. by destruct (create_ok _ _).
Qed.

Lemma ensure_database_exists_unreachable r w :
  reachable w = false →
  ensure_database_exists r w = mkRun (Raised (SystemExit 1)) w [EAdminConnect false].
Proof. intros Hre. unfold ensure_database_exists, try_except. by rewrite Hre. Qed.

Lemma initialize_schema_table_ok w db :
  reachable w = true → conn w = Some empty_connection → target w = Some db →
  is_Some (ledger db) ∨ create_ok CreateTable (applied_sql db) = true →
  ∃ w', initialize_schema_table w =
          mkRun (Returned tt) w' [ECreateTable; ECommit SiteSchema true] ∧
        ready w' (default [] (ledger db)).
Proof.
  intros Hre Hc Ht Hok. open_world w.
  assert (bool_decide (is_Some led) || create_ok CreateTable hist = true) as Hb.
  { destruct Hok as [?| ->]; [by rewrite bool_decide_eq_true_2|by rewrite orb_true_r]. }
  unfold initialize_schema_table. run_primitives. rewrite Hb. simpl.
  eexists. split; [done|]. unfold ready, ledger_of. simpl. by rewrite app_nil_r.
Qed.

Lemma initialize_schema_table_refused w db :
  conn w = Some empty_connection → target w = Some db →
  ledger db = None → create_ok CreateTable (applied_sql db) = false →
  initialize_schema_table w = mkRun (Raised Psycopg2Error) w [ERefused CreateTable].
Proof.
  intros Hc Ht Hl Hno. open_world w.
  unfold initialize_schema_table. run_primitives. by rewrite Hno.
Qed.

(** [apply_migration] leaves a ready world ready, whatever its outcome;
    when it returns without [dry_run], the table stored its row. *)
Lemma apply_migration_ready r m dry w rows :
  ready w rows →
  ∃ rows',
    ready (final (apply_migration r m dry w)) rows' ∧
    ledger_grows rows rows' ∧
    (∀ b, out (apply_migration r m dry w) = Returned b → dry = false →
          ∃ stored, store_row rows (ledger_row r m b) = Some stored ∧
                    rows' = rows ++ [stored]).
Proof.
  intros (Hre & Hc & Hl). open_world w.
  unfold apply_migration. run_primitives. split_cases.
  all: rewrite ?app_nil_r in *.
  all: eexists; split; [done|].
  all: split; [first [by apply ledger_same | by eapply ledger_grows_one]|].
  all: intros b' ? ?; simplify_eq; eauto.
Qed.

(** The loop keeps the ledger growing; when it runs to its end without
    [dry_run], every migration of the list is recorded. *)
Lemma migrate_loop_ready r dry ms n w rows :
  ready w rows →
  ∃ rows',
    reachable (final (migrate_loop r dry ms n w)) = true ∧
    ledger_of (final (migrate_loop r dry ms n w)) = Some rows' ∧
    ledger_grows rows rows' ∧
    (∀ k, out (migrate_loop r dry ms n w) = Returned (inr k) →
          ready (final (migrate_loop r dry ms n w)) rows' ∧
          (dry = false →
           ∀ m, m ∈ ms → Str.endswith (filename m) ".sql" = true →
                filename m ∈ row_script <$> rows')).
Proof.
  revert n w rows. induction ms as [|m ms IH]; intros n w rows Hready.
  { exists rows. pose proof Hready as (Hre & Hc & Hl). simpl.
    split; [done|]. split; [done|]. split; [constructor|].
    intros k _. split; [done|]. intros _ m' Hm'. by apply elem_of_nil in Hm'. }
  destruct (apply_migration_ready r m dry w rows Hready) as (rows1 & Hready1 & Hgrows1 & Hrow).
  cbn [migrate_loop]. step_bind Ho.
  - destruct a; simpl.
    + destruct (IH (S n) _ _ Hready1) as (rows' & Hre & Hl & Hgrows & Hend).
      exists rows'. split; [done|]. split; [done|].
      split; [by eapply ledger_grows_trans|].
      intros k Hk. destruct (Hend k Hk) as [Hready' Hall]. split; [done|].
      intros -> m' [->|Hm']%elem_of_cons Hsql; [|by apply Hall].
      destruct (Hrow true eq_refl eq_refl) as (stored & Hstore & ->).
      apply (ledger_grows_scripts _ _ _ Hgrows).
      apply store_row_inv in Hstore as (Hname & _ & _). simpl in Hname.
      apply (varchar_sql_name _ _ _ Hsql) in Hname.
      rewrite fmap_app, elem_of_app. right. rewrite <-Hname. by left.
    + destruct (close_ret_spec (inl 1%Z : Z + nat) (final (apply_migration r m dry w)))
        as (Hout & Hconn & Hre & Ht).
      destruct Hready1 as (Hre1 & Hc1 & Hl1).
      exists rows1. rewrite Hout. unfold ledger_of in *. rewrite Hre, Ht.
      by repeat split.
  - destruct Hready1 as (Hre1 & Hc1 & Hl1). exists rows1. by repeat split.
Qed.

(** ** Callbacks *)

Lemma run_callbacks_cons r dir dry f files :
  run_callbacks r dir dry (f :: files) =
    (content <- read_text dir f ;;
     callback_body execute_ok commit_ok dry f
       (Template.render_sql_template (template_vars r) content) ;;
     run_callbacks r dir dry files).
Proof. reflexivity. Qed.

(** One callback script: whatever happens to it, the runner goes on, and
    a failure is rolled back and reported. *)
Lemma callback_body_ready dry f sql w rows :
  ready w rows →
  ∃ w' evs,
    callback_body execute_ok commit_ok dry f sql w = mkRun (Returned tt) w' evs ∧
    ready w' rows ∧
    (evs = [EPreview KCallback f ""] ∧ dry = true ∨
     dry = false ∧
     (evs = [EExecute KCallback f sql true; ECommit (SiteScript KCallback f) true] ∨
      evs = [EExecute KCallback f sql false; ERollback (SiteScript KCallback f);
             EScriptFailed KCallback f] ∨
      evs = [EExecute KCallback f sql true; ECommit (SiteScript KCallback f) false;
             ERollback (SiteScript KCallback f); EScriptFailed KCallback f])).
Proof.
  intros (Hre & Hc & Hl). open_world w.
  unfold callback_body. run_primitives. split_cases.
  all: rewrite ?app_nil_r in *.
  all: do 2 eexists; split; [done|]; split; [done|]; auto 6.
Qed.

Lemma bind_raised {A B} (m : M A) (f : A → M B) w e w' evs :
  m w = mkRun (Raised e) w' evs → bind m f w = mkRun (Raised e) w' evs.
Proof. intros H. unfold bind. by rewrite H. Qed.

(** The loop of the callbacks goes on after a script that fails, and
    ends early only at a file that cannot be read as text. *)
Lemma run_callbacks_ready r dir dry files w rows :
  ready w rows → (∀ f, f ∈ files → is_Some (dir !! f)) →
  let R := run_callbacks r dir dry files w in
  ready (final R) rows ∧
  (out R = Returned tt ∨
   out R = Raised UnicodeDecodeError ∧ ∃ f, f ∈ files ∧ ¬ readable dir f) ∧
  ((∀ f, f ∈ files → readable dir f) →
   out R = Returned tt ∧
   (dry = false → ∀ f, f ∈ files → executed (events R) KCallback f)) ∧
  (∀ name, execution_failed (events R) KCallback name →
           dry = false ∧
           window [ERollback (SiteScript KCallback name); EScriptFailed KCallback name]
             (events R)).
Proof.
  revert w. induction files as [|f files IH]; intros w Hready Hfiles R; subst R.
  { simpl. split; [done|]. split; [by left|]. split.
    - intros _. split; [done|]. intros _ f Hf. by apply elem_of_nil in Hf.
    - intros name [[? Hin]|Hin]; by apply elem_of_nil in Hin. }
  destruct (Hfiles f) as [content Hcontent]; [by left|].
  rewrite run_callbacks_cons.
  destruct (Text.decode content) as [text|] eqn:Htext.
  2: { rewrite (bind_raised _ _ _ _ _ _ (read_text_undecodable dir f content w Hcontent Htext)).
       cbn [out final events]. split; [done|]. split; [|split].
       - right. split; [done|]. exists f. split; [by left|]. by eapply not_readable.
       - intros Hall. destruct (not_readable dir f content Hcontent Htext).
         apply Hall. by left.
       - intros name [[? Hin]|Hin]; by apply elem_of_nil in Hin. }
  rewrite (bind_prepend _ _ _ _ _ _ (read_text_ok dir f content text w Hcontent Htext)).
  destruct (callback_body_ready dry f
              (Template.render_sql_template (template_vars r) text) w rows Hready)
    as (w' & evs & Hbody & Hready' & Hevs).
  rewrite (bind_prepend _ _ _ _ _ _ Hbody).
  destruct (IH w' Hready') as (Hfin & Hout & Hexec & Hfail).
  { intros f' Hf'. apply Hfiles. by right. }
  unfold prepend. cbn [out final events app]. split; [done|]. split; [|split].
  - destruct Hout as [?|[? (f' & Hf' & Hno)]]; [by left|right].
    split; [done|]. exists f'. split; [by right|done].
  - intros Hall. destruct Hexec as [Hout' Hexec].
    { intros f' Hf'. apply Hall. by right. }
    split; [done|]. intros -> f' [->|Hf']%elem_of_cons.
    + destruct Hevs as [[_ ?] | [_ [-> | [-> | ->]]]]; [done|..];
        do 2 eexists; apply elem_of_app; left; by left.
    + destruct (Hexec eq_refl f' Hf') as (sql & ok & Hin).
      exists sql, ok. apply elem_of_app. by right.
  - intros name Hname.
    apply execution_failed_Exists, Exists_app in Hname as [Hname|Hname].
    + apply Exists_exists in Hname as (e & He & Hf & Hs).
      destruct Hevs as [[-> _] | [-> [-> | [-> | ->]]]];
        repeat (apply elem_of_cons in He as [->|He]; try done);
        try (by apply elem_of_nil in He);
        simpl in Hs; injection Hs as <-; (split; [done|]); apply window_app_l.
      * by exists [EExecute KCallback f
                     (Template.render_sql_template (template_vars r) text) false], [].
      * by exists [EExecute KCallback f
                     (Template.render_sql_template (template_vars r) text) true;
                   ECommit (SiteScript KCallback f) false], [].
    + destruct (Hfail name) as [-> Hwin]; [by apply execution_failed_Exists|].
      split; [done|]. by apply window_app_r.
Qed.

Lemma run_after_migrate_scripts_ready r dry w rows :
  ready w rows →
  let R := run_after_migrate_scripts r dry w in
  ready (final R) rows ∧
  (out R = Returned tt ∨ out R = Raised UnicodeDecodeError ∧ ¬ callbacks_readable r) ∧
  (callbacks_readable r →
   out R = Returned tt ∧
   (dry = false → ∀ dir f, after_migrate_dir r = Some dir → f ∈ glob_sql dir →
                  executed (events R) KCallback f)) ∧
  (∀ name, execution_failed (events R) KCallback name →
           dry = false ∧
           window [ERollback (SiteScript KCallback name); EScriptFailed KCallback name]
             (events R)).
Proof.
  intros Hready R. subst R. unfold run_after_migrate_scripts, callbacks_readable.
  destruct (after_migrate_dir r) as [dir|].
  - destruct (run_callbacks_ready r dir dry (sorted (glob_sql dir)) w rows Hready)
      as (Hfin & Hout & Hexec & Hfail).
    { intros f Hf. rewrite elem_of_sorted in Hf. by apply elem_of_glob_sql in Hf as [_ ?]. }
    split; [done|]. split; [|split; [|done]].
    + destruct Hout as [?|[? (f & Hf & Hno)]]; [by left|right]. split; [done|].
      intros Hall. apply Hno, (Hall dir f eq_refl). by rewrite elem_of_sorted in Hf.
    + intros Hall. destruct Hexec as [Hout' Hexec].
      { intros f Hf. apply (Hall dir f eq_refl). by rewrite elem_of_sorted in Hf. }
      split; [done|]. intros -> dir' f [= <-] Hf. apply Hexec; [done|].
      by rewrite elem_of_sorted.
  - simpl. split; [done|]. split; [by left|]. split; [done|].
    intros name [[? Hin]|Hin]; by apply elem_of_nil in Hin.
Qed.

(** ** [migrate] up to the pending list *)

Lemma prepend_prepend {A} evs1 evs2 (R : Run A) :
  prepend evs1 (prepend evs2 R) = prepend (evs1 ++ evs2) R.
Proof. unfold prepend. simpl. by rewrite app_assoc. Qed.

Lemma ready_view w rows : ready w rows → ledger_view w = Some rows.
Proof.
  intros (_ & Hc & Hl). unfold ledger_view. rewrite Hc, Hl. simpl.
  by rewrite app_nil_r.
Qed.

Lemma migrate_after_discovery {A} r (k : list Migration → M A) w3 rows pre :
  ready w3 rows →
  prepend pre ((pending <- get_pending_migrations md5 r ;; k pending) w3) =
  prepend
    (pre ++ ESelectLedger true ::
       drift_warnings (applied_dict rows) (all_migrations md5 (migrations_dir r)))
    (k (filter (λ m, applied_dict rows !! filename m = None)
          (all_migrations md5 (migrations_dir r))) w3).
Proof.
  intros Hready%ready_view.
  rewrite (bind_prepend _ _ _ _ _ _ (get_pending_migrations_ok md5 r w3 rows Hready)).
  by rewrite prepend_prepend.
Qed.

Lemma set_up_ok_ledger r dry w :
  reachable w = true → is_Some (ledger_of w) → set_up_ok create_ok r dry w = true.
Proof.
  unfold set_up_ok, ledger_of. intros -> [rows Hl].
  destruct (target w) as [db|]; simpl in *; [|done].
  by rewrite bool_decide_eq_true_2.
Qed.

Lemma set_up_ok_reachable r dry w : set_up_ok create_ok r dry w = true → reachable w = true.
Proof. unfold set_up_ok. by intros [? _]%andb_true_iff. Qed.

(** When the server lets it, [migrate] gets to its pending list: the
    files on disk whose name the ledger does not hold. *)
Lemma migrate_discovers r dry w :
  set_up_ok create_ok r dry w = true →
  ∃ pre w3,
    Forall quiet pre ∧
    ready w3 (default [] (ledger_of w)) ∧
    migrate r dry w =
      prepend
        (pre ++ ESelectLedger true ::
           drift_warnings (applied_dict (default [] (ledger_of w)))
             (all_migrations md5 (migrations_dir r)))
        (migrate_rest execute_ok commit_ok r dry (bool_decide (target w = None))
           (filter (λ m, applied_dict (default [] (ledger_of w)) !! filename m = None)
              (all_migrations md5 (migrations_dir r))) w3).
Proof.
  intros Hok. pose proof (set_up_ok_reachable r dry w Hok) as Hre. unfold migrate.
  assert (∃ b w1 db evs,
            ensure_database_exists r w = mkRun (Returned b) w1 evs ∧ Forall quiet evs ∧
            b = bool_decide (target w = None) ∧
            reachable w1 = true ∧ target w1 = Some db ∧
            (is_Some (ledger db) ∨
             dry = false ∧ create_ok CreateTable (applied_sql db) = true) ∧
            default [] (ledger db) = default [] (ledger_of w)) as
    (b & w1 & db & evs1 & Hensure & Hq1 & -> & Hre1 & Ht1 & Hdry1 & Hrows).
  { rewrite (ensure_database_exists_ok r w Hre). unfold set_up_ok, ledger_of in *.
    rewrite Hre in Hok. simpl in Hok.
    destruct (target w) as [db|] eqn:Ht; simpl in *.
    - exists false, w, db, [EAdminConnect true].
      split_and!; try done; try (by repeat constructor).
      apply orb_true_iff in Hok as [Hl%bool_decide_eq_true|[Hd%negb_true_iff ?]%andb_true_iff];
        auto.
    - apply andb_true_iff in Hok as [[Hcd Hd%negb_true_iff]%andb_true_iff Hct].
      rewrite Hcd.
      exists true, (set_target (Some empty_database) w), empty_database,
        [EAdminConnect true; ECreateDatabase (database r)].
      split_and!; try done; try (by repeat constructor). }
  rewrite (bind_prepend _ _ _ _ _ _ Hensure).
  assert (connect w1 = mkRun (Returned tt) (set_conn (Some empty_connection) w1)
                         [EConnect true]) as Hconnect.
  { unfold connect. by rewrite Hre1, Ht1. }
  rewrite (bind_prepend _ _ _ _ _ _ Hconnect), prepend_prepend.
  assert (∃ w3 evs3,
            (if dry then ret tt else initialize_schema_table)
              (set_conn (Some empty_connection) w1) = mkRun (Returned tt) w3 evs3 ∧
            Forall quiet evs3 ∧ ready w3 (default [] (ledger_of w))) as
    (w3 & evs3 & Hinit & Hq3 & Hready).
  { rewrite <-Hrows. destruct dry.
    - destruct Hdry1 as [[rows Hl]|[? _]]; [|done].
      eexists _, []. split; [done|]. split; [constructor|].
      unfold ready, ledger_of. simpl. rewrite Hre1, Ht1. simpl. by rewrite Hl.
    - destruct (initialize_schema_table_ok (set_conn (Some empty_connection) w1) db)
        as (w3 & -> & Hready); [done..| |].
      { destruct Hdry1 as [?|[_ ?]]; auto. }
      eexists _, _. split; [done|]. split; [by repeat constructor|done]. }
  rewrite (bind_prepend _ _ _ _ _ _ Hinit), prepend_prepend.
  rewrite (migrate_after_discovery r _ w3 _ _ Hready).
  eexists _, w3. split; [|split; [exact Hready|reflexivity]].
  rewrite !Forall_app. repeat split; try done. by repeat constructor.
Qed.

(** Otherwise [migrate] raises before it looks at a migration. *)
Lemma migrate_fails_early r dry w :
  set_up_ok create_ok r dry w = false →
  ∃ e, out (migrate r dry w) = Raised e ∧ Forall quiet (events (migrate r dry w)).
Proof.
  intros Hno. unfold migrate.
  destruct (reachable w) eqn:Hre.
  2: { rewrite (bind_raised _ _ _ _ _ _ (ensure_database_exists_unreachable r w Hre)).
       eexists. split; [done|]. by repeat constructor. }
  assert ((∃ evs, ensure_database_exists r w = mkRun (Raised (SystemExit 1)) w evs ∧
                  Forall quiet evs) ∨
          ∃ b w1 db evs,
            ensure_database_exists r w = mkRun (Returned b) w1 evs ∧ Forall quiet evs ∧
            reachable w1 = true ∧ target w1 = Some db ∧ ledger db = None ∧
            (dry = true ∨ create_ok CreateTable (applied_sql db) = false)) as Hcases.
  { rewrite (ensure_database_exists_ok r w Hre). unfold set_up_ok in Hno.
    rewrite Hre in Hno. simpl in Hno.
    destruct (target w) as [db|] eqn:Ht; simpl in *.
    - right. exists false, w, db, [EAdminConnect true].
      apply orb_false_iff in Hno as [Hl%bool_decide_eq_false Hd].
      split_and!; try done; try (by repeat constructor).
      + destruct (ledger db); [|done]. by destruct Hl.
      + destruct dry; [by left|by right].
    - destruct (create_ok (CreateDatabase (database r)) []) eqn:Hcd; simpl in Hno.
      + right. exists true, (set_target (Some empty_database) w), empty_database,
          [EAdminConnect true; ECreateDatabase (database r)].
        split_and!; try done; try (by repeat constructor).
        destruct dry; [by left|by right].
      + left. eexists. split; [done|]. by repeat constructor. }
  destruct Hcases as [(evs & Hensure & Hq)|(b & w1 & db & evs1 & Hensure & Hq1 & Hre1 & Ht1 & Hl1 & Hdry)].
  { rewrite (bind_raised _ _ _ _ _ _ Hensure). eauto. }
  rewrite (bind_prepend _ _ _ _ _ _ Hensure).
  assert (connect w1 = mkRun (Returned tt) (set_conn (Some empty_connection) w1)
                         [EConnect true]) as Hconnect.
  { unfold connect. by rewrite Hre1, Ht1. }
  rewrite (bind_prepend _ _ _ _ _ _ Hconnect), prepend_prepend.
  set (w2 := set_conn (Some empty_connection) w1).
  destruct dry.
  - assert (ret tt w2 = mkRun (Returned tt) w2 []) as Hret by done.
    rewrite (bind_prepend _ _ _ _ _ _ Hret), prepend_prepend.
    assert (ledger_view w2 = None) as Hview.
    { unfold ledger_view, ledger_of. subst w2. simpl. rewrite Ht1. simpl. by rewrite Hl1. }
    destruct (get_pending_migrations_raises md5 r w2 Hview) as (e & evs & Hraise & Hq).
    rewrite (bind_raised _ _ _ _ _ _ Hraise). unfold prepend. cbn [out events].
    eexists. split; [done|]. rewrite !Forall_app.
    split_and!; try done; by repeat constructor.
  - destruct Hdry as [?|Hct]; [done|].
    rewrite (bind_raised _ _ _ _ _ _
               (initialize_schema_table_refused w2 db eq_refl Ht1 Hl1 Hct)).
    unfold prepend. cbn [out events].
    eexists. split; [done|]. rewrite !Forall_app.
    split_and!; try done; by repeat constructor.
Qed.

(** ** [migrate] from the pending list on *)

(** What [migrate] does after the loop: callbacks or not, [close],
    [return 0]; a callback file that cannot be read ends the run with
    the connection open. *)
Lemma migrate_tail_ready r dry (b : bool) w rows :
  ready w rows →
  let T := ((if b then ret tt else run_after_migrate_scripts r dry);;
            close;; ret 0%Z) w in
  reachable (final T) = true ∧ ledger_of (final T) = Some rows ∧
  Forall (λ e, quiet e ∨ callback_event e) (events T) ∧
  (out T = Returned 0%Z ∧ conn (final T) = None ∨
   out T = Raised UnicodeDecodeError ∧ b = false ∧ ¬ callbacks_readable r) ∧
  (b = true ∨ callbacks_readable r → out T = Returned 0%Z) ∧
  (∀ name, execution_failed (events T) KCallback name →
     window [ERollback (SiteScript KCallback name); EScriptFailed KCallback name] (events T) ∧
     (callbacks_readable r →
      ∀ dir f, after_migrate_dir r = Some dir → f ∈ glob_sql dir →
               executed (events T) KCallback f)).
Proof.
  intros Hready T. subst T.
  assert (let H := (if b then ret tt else run_after_migrate_scripts r dry) w in
          ready (final H) rows ∧ Forall callback_event (events H) ∧
          (out H = Returned tt ∨
           out H = Raised UnicodeDecodeError ∧ b = false ∧ ¬ callbacks_readable r) ∧
          (b = true ∨ callbacks_readable r → out H = Returned tt) ∧
          (∀ name, execution_failed (events H) KCallback name →
             window [ERollback (SiteScript KCallback name); EScriptFailed KCallback name]
               (events H) ∧
             (callbacks_readable r →
              ∀ dir f, after_migrate_dir r = Some dir → f ∈ glob_sql dir →
                       executed (events H) KCallback f)))
    as (Hready' & Hcb & Hout & Hret & Hfail).
  { destruct b; cbv zeta.
    - simpl. split_and!; try done; try (by constructor); try (by left).
      intros name [[? Hin]|Hin]; by apply elem_of_nil in Hin.
    - destruct (run_after_migrate_scripts_ready r dry w rows Hready)
        as (Hfin & Hout & Hexec & Hfail).
      split; [done|]. split; [apply run_after_migrate_scripts_events|]. split; [|split].
      + destruct Hout as [?|[??]]; auto.
      + intros [?|Hall]; [done|]. by apply Hexec.
      + intros name Hname. destruct (Hfail name Hname) as [-> Hwin]. split; [done|].
        intros Hall. by apply Hexec. }
  step_bind HoH.
  - destruct (close_ret_spec 0%Z (final ((if b then ret tt
                                          else run_after_migrate_scripts r dry) w)))
      as (Hout' & Hconn & Hre & Ht).
    pose proof (close_ret_events 0%Z (final ((if b then ret tt
                                              else run_after_migrate_scripts r dry) w))) as Hq.
    destruct Hready' as (Hre' & Hc' & Hl').
    unfold ledger_of in *. rewrite Hout', Hconn, Hre, Ht. split_and!; try done.
    + apply Forall_app. split; (eapply Forall_impl; [done|]); simpl; auto.
    + by left.
    + intros name Hname.
      apply execution_failed_Exists, Exists_app in Hname as [Hname|Hname].
      * apply execution_failed_Exists, Hfail in Hname as [Hwin Hexec].
        split; [by apply window_app_l|].
        intros Hall dir f Hdir Hf. destruct (Hexec Hall dir f Hdir Hf) as (sql & ok & Hin).
        exists sql, ok. apply elem_of_app. by left.
      * apply Exists_exists in Hname as (e & He & _ & Hs).
        by destruct (quiet_no_script _ _ _ Hq He Hs).
  - destruct Hready' as (Hre' & Hc' & Hl').
    destruct Hout as [?|(He & -> & Hno)]; [done|]. injection He as ->.
    split_and!; try done.
    + eapply Forall_impl; [done|]. simpl. auto.
    + by right.
    + intros [?|?]; done.
Qed.

Lemma migrate_rest_ready r dry c pending w rows :
  ready w rows →
  let R := migrate_rest execute_ok commit_ok r dry c pending w in
  ∃ rows',
    reachable (final R) = true ∧ ledger_of (final R) = Some rows' ∧
    ledger_grows rows rows' ∧
    Forall (λ e, quiet e ∨ callback_event e ∨
                 ∃ m, m ∈ pending ∧ script_of e = Some (KMigration, filename m)) (events R) ∧
    (out R = Returned 0%Z → dry = false →
     ∀ m, m ∈ pending → Str.endswith (filename m) ".sql" = true →
          filename m ∈ row_script <$> rows') ∧
    (∀ name, execution_failed (events R) KCallback name →
       window [ERollback (SiteScript KCallback name); EScriptFailed KCallback name]
         (events R) ∧
       (callbacks_readable r →
        out R = Returned 0%Z ∧
        ∀ dir f, after_migrate_dir r = Some dir → f ∈ glob_sql dir →
                 executed (events R) KCallback f)).
Proof.
  intros Hready R. subst R. destruct pending as [|m ms].
  { destruct (migrate_tail_ready r dry c w rows Hready)
      as (Hre & Hl & Hev & Hout & Hret & Hfail).
    exists rows. unfold migrate_rest. split_and!; try done.
    - constructor.
    - eapply Forall_impl; [done|]; simpl; tauto.
    - intros _ _ m' Hm'. by apply elem_of_nil in Hm'.
    - intros name Hname. destruct (Hfail name Hname) as [Hwin Hexec]. split; [done|].
      intros Hall. split; [apply Hret; by right|by apply Hexec]. }
  destruct (migrate_loop_ready r dry (m :: ms) 0 w rows Hready)
    as (rows' & Hre & Hl & Hgrows & Hend).
  pose proof (migrate_loop_events execute_ok commit_ok r dry (m :: ms) 0 w) as Hloop.
  assert (Forall (λ e, quiet e ∨ callback_event e ∨
                       ∃ m', m' ∈ m :: ms ∧ script_of e = Some (KMigration, filename m'))
            (events (migrate_loop r dry (m :: ms) 0 w))) as Hloop'.
  { eapply Forall_impl; [done|]. simpl. intros e [->|?]; [by left|auto]. }
  assert (∀ name, ¬ execution_failed (events (migrate_loop r dry (m :: ms) 0 w))
                    KCallback name) as Hnocb.
  { intros name (e & He & _ & Hs)%execution_failed_Exists%Exists_exists.
    rewrite Forall_forall in Hloop. destruct (Hloop e He) as [->|(m' & _ & Hs')]; [done|].
    congruence. }
  unfold migrate_rest. step_bind Ho.
  - destruct a as [code|k].
    + exists rows'. simpl. rewrite app_nil_r. split_and!; try done.
      all: try (intros [= ->]; by apply migrate_loop_inl in Ho as [? _]).
      all: try (intros name Hname; by destruct (Hnocb name)).
    + destruct (Hend k eq_refl) as [Hready' Hall].
      destruct (migrate_tail_ready r dry (negb (0 <? k)%nat) _ rows' Hready')
        as (Hre' & Hl' & Hev & Hout & Hret & Hfail).
      assert (∀ (b : bool) (x y : M unit), (if b then x else y) =
                                           (if negb b then y else x)) as Hif
          by (by intros []).
      rewrite (Hif (0 <? k)%nat). exists rows'. split_and!; try done.
      all: try (by intros _ ?; apply Hall).
      all: try (apply Forall_app; split; [done|]; eapply Forall_impl; [done|];
                simpl; tauto).
      intros name Hname.
      apply execution_failed_Exists, Exists_app in Hname as [Hname|Hname];
        [by apply execution_failed_Exists, Hnocb in Hname|].
      apply execution_failed_Exists, Hfail in Hname as [Hwin Hexec].
      split; [by apply window_app_r|].
      intros Hread. split; [apply Hret; by right|].
      intros dir f Hdir Hf. destruct (Hexec Hread dir f Hdir Hf) as (sql & ok & Hin).
      exists sql, ok. apply elem_of_app. by right.
  - exists rows'. split_and!; try done.
    all: try (intros name Hname; by destruct (Hnocb name)).
Qed.

(** ** The claims about whole runs *)

Lemma elem_of_prepend_events {A} pre (R : Run A) e :
  e ∈ events (prepend pre R) ↔ e ∈ pre ∨ e ∈ events R.
Proof. unfold prepend. simpl. apply elem_of_app. Qed.

Lemma drift_warning_elem_of applied all_migrations m info :
  m ∈ all_migrations → applied !! filename m = Some info →
  row_checksum info ≠ checksum m →
  EWarnChecksum (filename m) (row_checksum info) (checksum m)
    ∈ drift_warnings applied all_migrations.
Proof.
  intros Hm Hinfo Hdrift. unfold drift_warnings. apply list_elem_of_bind.
  exists m. split; [|done]. rewrite Hinfo, bool_decide_true by done. by left.
Qed.

(** C8, as the code has it: when a callback script fails in a run of
    [migrate] (its [execute] or the commit after it raises), the log
    holds its rollback followed by the report of the failure; when every
    [.sql] file of the callback directory can be read as text, every one
    of them is still run and [migrate] returns 0. *)
Theorem failing_callback_is_isolated r dry w name :
  execution_failed (events (migrate r dry w)) KCallback name →
  window [ERollback (SiteScript KCallback name); EScriptFailed KCallback name]
    (events (migrate r dry w)) ∧
  (callbacks_readable r →
   (∀ dir f, after_migrate_dir r = Some dir → f ∈ glob_sql dir →
             executed (events (migrate r dry w)) KCallback f) ∧
   out (migrate r dry w) = Returned 0%Z).
Proof.
  intros Hfail.
  destruct (set_up_ok create_ok r dry w) eqn:Hok.
  2: { destruct (migrate_fails_early r dry w Hok) as (e & _ & Hq).
       apply execution_failed_Exists, Exists_exists in Hfail as (e' & He' & _ & Hs).
       by destruct (quiet_no_script _ _ _ Hq He' Hs). }
  destruct (migrate_discovers r dry w Hok) as (pre & w3 & Hq & Hready & Heq).
  rewrite Heq in Hfail |- *. clear Heq.
  set (rows := default [] (ledger_of w)) in *.
  set (pending := filter _ _) in *.
  destruct (migrate_rest_ready r dry (bool_decide (target w = None)) pending w3 rows Hready)
    as (rows' & _ & _ & _ & _ & _ & Hcb).
  unfold prepend in *. cbn [out final events] in *.
  apply execution_failed_Exists, Exists_app in Hfail as [Hfail|Hfail].
  { apply Exists_exists in Hfail as (e & He & _ & Hs). exfalso.
    apply elem_of_app in He as [He|He].
    - by destruct (quiet_no_script _ _ _ Hq He Hs).
    - apply elem_of_cons in He as [->|He]; [done|].
      by destruct (quiet_no_script _ _ _ (drift_warnings_quiet _ _) He Hs). }
  apply execution_failed_Exists, Hcb in Hfail as (Hwin & Hrest).
  split; [by apply window_app_r|]. intros Hread.
  destruct (Hrest Hread) as [Hout Hexec]. split; [|done].
  intros dir f Hdir Hf. destruct (Hexec dir f Hdir Hf) as (sql & ok & Hin).
  exists sql, ok. apply elem_of_app. by right.
Qed.

(** C5: on a reachable server whose ledger holds a row for the file
    [name] with a checksum other than that of the file on disk, a run of
    [migrate] logs the mismatch as a warning; [get_pending_migrations]
    still returns, with a pending list that leaves the file out; no event
    of the run (preview, execution, insert) belongs to that migration, and
    the run ends with the same ledger rows for [name]. *)
Theorem drifted_migration_is_flagged_and_skipped r dry w rows name content row :
  reachable w = true → ledger_of w = Some rows →
  migrations_dir r !! name = Some content → Str.endswith name ".sql" = true →
  applied_dict rows !! name = Some row → row_checksum row ≠ md5 content →
  EWarnChecksum name (row_checksum row) (md5 content) ∈ events (migrate r dry w) ∧
  (∀ w', ledger_view w' = Some rows →
         ∃ pending, out (get_pending_migrations md5 r w') = Returned pending ∧
                    name ∉ filename <$> pending) ∧
  Forall (λ e, script_of e ≠ Some (KMigration, name)) (events (migrate r dry w)) ∧
  ∃ rows', ledger_of (final (migrate r dry w)) = Some rows' ∧
           rows_of name rows' = rows_of name rows.
Proof.
  intros Hre Hl Hfile Hsql Hrow Hdrift.
  assert (name ∈ row_script <$> rows) as Hrecorded.
  { apply applied_dict_is_Some. by eexists. }
  assert (∀ m, m ∈ filter (λ m, applied_dict rows !! filename m = None)
                     (all_migrations md5 (migrations_dir r)) → filename m ≠ name) as Hskip.
  { intros m [Hm _]%list_elem_of_filter Heq. rewrite Heq in Hm. congruence. }
  destruct (migrate_discovers r dry w) as (pre & w3 & Hq & Hready & Heq).
  { apply set_up_ok_ledger; [done|]. rewrite Hl. by eexists. }
  rewrite Hl in Heq, Hready. simpl in Heq, Hready. rewrite Heq. clear Heq.
  set (pending := filter _ _) in *.
  destruct (migrate_rest_ready r dry (bool_decide (target w = None)) pending w3 rows Hready)
    as (rows' & _ & Hl' & Hgrows & Hev & _ & _).
  unfold prepend. cbn [out final events]. split_and!.
  - rewrite !elem_of_app, elem_of_cons. left. right. right.
    apply (drift_warning_elem_of _ _ (descriptor md5 name content)); [|done..].
    apply elem_of_all_migrations. by exists content.
  - intros w' Hview.
    rewrite (get_pending_migrations_ok md5 r w' rows Hview). simpl.
    eexists. split; [done|].
    intros (m & Hname & Hm)%list_elem_of_fmap. by apply Hskip in Hm.
  - rewrite !Forall_app. split_and!.
    + eapply Forall_impl; [done|]. unfold quiet. intros e ->. done.
    + constructor; [done|]. eapply Forall_impl; [apply drift_warnings_quiet|].
      unfold quiet. intros e ->. done.
    + eapply Forall_impl; [done|]. simpl.
      intros e [Hquiet|[[n Hn]|(m & Hm & Hs)]]; rewrite ?Hquiet, ?Hn, ?Hs; try done.
      intros [= Heq]. by apply Hskip in Hm.
  - exists rows'. split; [done|]. by apply ledger_grows_rows_of.
Qed.

Lemma filter_nil_Forall {A} (P : A → Prop) `{∀ x, Decision (P x)} (l : list A) :
  Forall (λ x, ¬ P x) l → filter P l = [].
Proof.
  induction 1 as [|x l Hx _ IH]; [done|]. by rewrite filter_cons_False.
Qed.

(** C6, as the code has it: when a run of [migrate] without [dry_run]
    returns 0, a second run on the unchanged files leaves the ledger as
    the first run left it, and none of its events (preview, execution,
    insert) belongs to a migration. *)
Theorem second_run_applies_nothing r w :
  out (migrate r false w) = Returned 0%Z →
  ledger_of (final (migrate r false (final (migrate r false w)))) =
    ledger_of (final (migrate r false w)) ∧
  Forall (λ e, ∀ name, script_of e ≠ Some (KMigration, name))
    (events (migrate r false (final (migrate r false w)))).
Proof.
  intros Hout.
  assert (set_up_ok create_ok r false w = true) as Hok.
  { destruct (set_up_ok create_ok r false w) eqn:Hok; [done|].
    destruct (migrate_fails_early r false w Hok) as (e & He & _). congruence. }
  destruct (migrate_discovers r false w Hok) as (pre & w3 & Hq & Hready & Heq).
  rewrite Heq in Hout |- *. clear Heq.
  set (rows := default [] (ledger_of w)) in *.
  set (pending := filter _ _) in *.
  destruct (migrate_rest_ready r false (bool_decide (target w = None)) pending w3 rows Hready)
    as (rows1 & Hre1 & Hl1 & Hgrows & _ & Hall & _).
  unfold prepend in *. cbn [out final events] in *.
  set (w1 := final (migrate_rest execute_ok commit_ok r false _ pending w3)) in *.
  assert (Forall (λ m, ¬ applied_dict rows1 !! filename m = None)
            (all_migrations md5 (migrations_dir r))) as Hrecorded.
  { apply Forall_forall. intros m Hm. rewrite applied_dict_None. intros Hnot. apply Hnot.
    pose proof Hm as (content & _ & Hsql & _)%elem_of_all_migrations.
    destruct (applied_dict rows !! filename m) as [info|] eqn:Hinfo.
    - apply (ledger_grows_scripts _ _ _ Hgrows), applied_dict_is_Some. by eexists.
    - apply Hall; [done..| |done]. apply list_elem_of_filter. done. }
  destruct (migrate_discovers r false w1) as (pre2 & w4 & Hq2 & Hready2 & Heq2).
  { apply set_up_ok_ledger; [done|]. rewrite Hl1. by eexists. }
  rewrite Heq2. clear Heq2. rewrite Hl1 in *. simpl in *.
  rewrite (filter_nil_Forall _ _ Hrecorded).
  destruct (migrate_tail_ready r false (bool_decide (target w1 = None)) w4 rows1 Hready2)
    as (_ & Hl2 & Hev2 & _).
  unfold prepend, migrate_rest. cbn [out final events]. split_and!; try done.
  rewrite !Forall_app. split_and!.
  - eapply Forall_impl; [done|]. unfold quiet. intros e -> ?. done.
  - constructor; [done|]. eapply Forall_impl; [apply drift_warnings_quiet|].
    unfold quiet. intros e -> ?. done.
  - eapply Forall_impl; [done|]. simpl. unfold quiet.
    intros e [->|[n ->]] ?; done.
Qed.

End StateFacts.

(** * What a dry run leaves alone, and what an attempt records *)

Section FrameFacts.
Variable md5 : string → string.
Variable create_ok : Creation → list string → bool.
Variable execute_ok : list string → string → bool.
Variable commit_ok : list string → list string → bool.

Local Arguments store_row : simpl never.
Local Arguments Template.render_sql_template : simpl never.
Local Arguments String.substring : simpl never.

Abbreviation apply_migration := (apply_migration execute_ok commit_ok).
Abbreviation migrate_loop := (migrate_loop execute_ok commit_ok).
Abbreviation run_callbacks := (run_callbacks execute_ok commit_ok).
Abbreviation run_after_migrate_scripts := (run_after_migrate_scripts execute_ok commit_ok).
Abbreviation ensure_database_exists := (ensure_database_exists create_ok).
Abbreviation migrate := (migrate md5 create_ok execute_ok commit_ok).

Lemma drift_warnings_no_write applied all_migrations :
  Forall (λ e, writes e = false) (drift_warnings applied all_migrations).
Proof.
  unfold drift_warnings. induction all_migrations as [|m ms IH]; [constructor|].
  cbn [mbind list_bind]. apply Forall_app. split; [|done].
  split_cases; by repeat constructor.
Qed.

Lemma apply_migration_dry r m w :
  final (apply_migration r m true w) = w ∧
  Forall (λ e, writes e = false) (events (apply_migration r m true w)) ∧
  out (apply_migration r m true w) ≠ Returned false.
Proof.
  unfold apply_migration. run_primitives. split_cases; by repeat constructor.
Qed.

Lemma migrate_loop_dry r ms n w :
  target (final (migrate_loop r true ms n w)) = target w ∧
  Forall (λ e, writes e = false) (events (migrate_loop r true ms n w)).
Proof.
  revert n w. induction ms as [|m ms IH]; intros n w; [by repeat constructor|].
  destruct (apply_migration_dry r m w) as (Hw & Hev & Hout).
  cbn [migrate_loop]. step_bind Ho; [|by rewrite Hw].
  destruct a; [|done]. simpl. rewrite Hw. destruct (IH (S n) w) as [Ht Hev'].
  split; [done|]. by apply Forall_app.
Qed.

Lemma run_callbacks_dry r dir files w :
  final (run_callbacks r dir true files w) = w ∧
  Forall (λ e, writes e = false) (events (run_callbacks r dir true files w)).
Proof.
  revert w. induction files as [|f files IH]; intros w; [by repeat constructor|].
  cbn [run_callbacks]. unfold bind at 1, read_text.
  destruct (dir !! f) as [content|]; [|by repeat constructor].
  destruct (Text.decode content) as [text|]; [|by repeat constructor].
  unfold bind, emit. destruct (IH w) as [Hw Hev].
  destruct (run_callbacks r dir true files w) as [o w' evs]. simpl in *.
  split; [done|]. by constructor.
Qed.

(** What holds of C2: with [dry_run] set, [migrate] creates no table,
    runs no script, inserts no row and commits nothing, and a target
    database that exists is left as it is. *)
Lemma dry_run_writes_nothing r w :
  Forall (λ e, writes e = false) (events (migrate r true w)) ∧
  (∀ db, target w = Some db → target (final (migrate r true w)) = Some db).
Proof.
  assert (∀ (b : bool) w',
            target (final (((if b then ret tt else run_after_migrate_scripts r true);;
                            close;; ret 0%Z) w')) = target w' ∧
            Forall (λ e, writes e = false)
              (events (((if b then ret tt else run_after_migrate_scripts r true);;
                        close;; ret 0%Z) w'))) as Htail.
  { intros b w'.
    assert (final ((if b then ret tt else run_after_migrate_scripts r true) w') = w' ∧
            Forall (λ e, writes e = false)
              (events ((if b then ret tt else run_after_migrate_scripts r true) w')))
      as [Hw Hev].
    { destruct b; [by repeat constructor|]. unfold run_after_migrate_scripts.
      destruct (after_migrate_dir r); [apply run_callbacks_dry|by repeat constructor]. }
    step_bind Ho; [|by rewrite Hw]. rewrite Hw.
    destruct (close_ret_spec 0%Z w') as (_ & _ & _ & Ht). split; [done|].
    apply Forall_app. split; [done|].
    run_primitives. split_cases; by repeat constructor. }
  assert (Forall (λ e, writes e = false) (events (ensure_database_exists r w)) ∧
          (∀ db, target w = Some db →
                 target (final (ensure_database_exists r w)) = Some db)) as [Hev1 Ht1].
  { unfold ensure_database_exists. run_primitives.
    split_cases; split; try (by repeat constructor); by intros db [= <-]. }
  assert (∀ w', Forall (λ e, writes e = false) (events (connect w')) ∧
                target (final (connect w')) = target w') as Hconnect.
  { intros w'. run_primitives. split_cases; by repeat constructor. }
  assert (∀ w', Forall (λ e, writes e = false) (events (get_pending_migrations md5 r w')))
    as Hpending.
  { intros w'. destruct (ledger_view w') as [rows|] eqn:Hview.
    - rewrite (get_pending_migrations_ok md5 r w' rows Hview). simpl.
      constructor; [done|]. apply drift_warnings_no_write.
    - assert (Forall (λ p, Str.endswith p ".sql" = true ∧ is_Some (migrations_dir r !! p))
                (sorted (glob_sql (migrations_dir r)))) as Hfiles.
      { apply Forall_forall. intros p Hp. rewrite elem_of_sorted in Hp.
        by apply elem_of_glob_sql. }
      unfold get_pending_migrations, bind. rewrite from_files_ok by done.
      revert Hview. unfold ledger_view, ledger_of, get_applied_migrations.
      destruct w' as [re [[led hist]|] [[ss sr]|]]; run_primitives.
      all: split_cases; try done; intros _; by repeat constructor. }
  unfold migrate. step_bind Ho1; [|done].
  destruct (Hconnect (final (ensure_database_exists r w))) as [Hev2 Ht2].
  step_bind Ho2;
    [|split; [by apply Forall_app|intros db Hdb; rewrite Ht2; by apply Ht1]].
  step_bind Ho3; [|done]. simpl.
  set (w2 := final (connect (final (ensure_database_exists r w)))) in *.
  specialize (Hpending w2). pose proof (get_pending_migrations_final md5 r w2) as Hw4.
  step_bind Ho4;
    [|split; [by rewrite !Forall_app|intros db Hdb; rewrite Hw4, Ht2; by apply Ht1]].
  rewrite Hw4. destruct a2 as [|m ms]; cbn beta iota.
  - destruct (Htail a w2) as [Ht Hev]. split; [by rewrite !Forall_app|].
    intros db Hdb. rewrite Ht, Ht2. by apply Ht1.
  - destruct (migrate_loop_dry r (m :: ms) 0 w2) as [Ht5 Hev5].
    step_bind Ho5;
      [|split; [by rewrite !Forall_app|intros db Hdb; rewrite Ht5, Ht2; by apply Ht1]].
    destruct a2 as [code|k].
    + unfold ret. cbn [out final events].
      split; [by rewrite app_nil_r, !Forall_app|].
      intros db Hdb. rewrite Ht5, Ht2. by apply Ht1.
    + destruct (0 <? k)%nat.
      * destruct (Htail false (final (migrate_loop r true (m :: ms) 0 w2))) as [Ht Hev].
        split; [by rewrite !Forall_app|].
        intros db Hdb. rewrite Ht, Ht5, Ht2. by apply Ht1.
      * destruct (Htail true (final (migrate_loop r true (m :: ms) 0 w2))) as [Ht Hev].
        split; [by rewrite !Forall_app|].
        intros db Hdb. rewrite Ht, Ht5, Ht2. by apply Ht1.
Qed.

Lemma store_row_flag rows script descr sum who b b' stored :
  store_row rows (mkRow script descr sum who b) = Some stored →
  store_row rows (mkRow script descr sum who b') =
    Some (mkRow (row_script stored) (row_description stored) (row_checksum stored)
            (row_installed_by stored) b').
Proof.
  unfold store_row. simpl.
  destruct (varchar 1000 script); [|done]. simpl.
  destruct (varchar 200 descr); [|done]. simpl.
  destruct (varchar 32 sum); [|done]. simpl.
  destruct (varchar 100 who); [|done]. simpl.
  case_bool_decide; [done|]. by intros [= <-].
Qed.

(** What holds of C4: when the file can be read as text and the ledger
    table accepts the row of the migration, one attempt without
    [dry_run] inserts exactly one row,
    with [success] telling whether the script was executed and committed;
    after a failure the rollback comes before the insert. *)
Lemma apply_migration_records_once r m w rows content text :
  ready w rows → migrations_dir r !! filepath m = Some content →
  Text.decode content = Some text →
  is_Some (store_row rows (ledger_row r m true)) →
  let sql := Template.render_sql_template (template_vars r) text in
  let n := filename m in
  ∃ b stored,
    out (apply_migration r m false w) = Returned b ∧
    b = execute_ok (history_of w) sql && commit_ok (history_of w) [sql] ∧
    store_row rows (ledger_row r m b) = Some stored ∧
    ledger_of (final (apply_migration r m false w)) = Some (rows ++ [stored]) ∧
    (events (apply_migration r m false w) = applied_events r m sql ∨
     events (apply_migration r m false w) =
       [EExecute KMigration n sql false; ERollback (SiteScript KMigration n);
        EInsert (ledger_row r m false) true; ECommit (SiteLedger n) true;
        EScriptFailed KMigration n] ∨
     events (apply_migration r m false w) =
       [EExecute KMigration n sql true; ECommit (SiteScript KMigration n) false;
        ERollback (SiteScript KMigration n);
        EInsert (ledger_row r m false) true; ECommit (SiteLedger n) true;
        EScriptFailed KMigration n]).
Proof.
  intros (Hre & Hc & Hl) Hfile Htext [stored Hstored] sql n. subst sql n.
  pose proof (store_row_flag _ _ _ _ _ _ false _ Hstored) as Hfalse.
  unfold ledger_row in *.
  destruct w as [re [[led hist]|] [[ss sr]|]];
    unfold ready, ledger_of, history_of, empty_connection in *; simpl in *;
    simplify_eq/=.
  unfold apply_migration, applied_events, ledger_row. run_primitives.
  rewrite Hfile. simpl. rewrite Htext. simpl. rewrite !app_nil_r. split_cases.
  all: rewrite ?app_nil_r in *; try congruence.
  all: eexists _, _; split_and!; eauto.
  all: simpl; by rewrite ?andb_false_r.
Qed.

(** When the ledger table is there or can be created, [info] reports the
    sizes of the ledger and the pending list that
    [get_pending_migrations] computes. *)
Lemma info_reports_pending r w db :
  reachable w = true → target w = Some db →
  is_Some (ledger db) ∨ create_ok CreateTable (applied_sql db) = true →
  let rows := default [] (ledger db) in
  let pending := filter (λ m, applied_dict rows !! filename m = None)
                   (all_migrations md5 (migrations_dir r)) in
  out (info md5 create_ok commit_ok r w) = Returned tt ∧
  EInfo (size (applied_dict rows)) (filename <$> pending)
    ∈ events (info md5 create_ok commit_ok r w) ∧
  conn (final (info md5 create_ok commit_ok r w)) = None.
Proof.
  intros Hre Ht Htable rows pending.
  assert (connect w = mkRun (Returned tt) (set_conn (Some empty_connection) w)
                        [EConnect true]) as Hconnect.
  { unfold connect. by rewrite Hre, Ht. }
  destruct (initialize_schema_table_ok create_ok commit_ok
              (set_conn (Some empty_connection) w) db)
    as (w3 & Hinit & Hready); [done..|].
  pose proof (ready_view _ _ Hready) as Hview.
  unfold info.
  assert (try_except (connect;; initialize_schema_table create_ok commit_ok;; ret true)
            (ret false) w =
          mkRun (Returned true) w3 [EConnect true; ECreateTable; ECommit SiteSchema true])
    as Htry.
  { rewrite try_except_passed.
    - rewrite (bind_prepend _ _ _ _ _ _ Hconnect), (bind_prepend _ _ _ _ _ _ Hinit). done.
    - rewrite (bind_prepend _ _ _ _ _ _ Hconnect), (bind_prepend _ _ _ _ _ _ Hinit). done. }
  rewrite (bind_prepend _ _ _ _ _ _ Htry). cbn [negb].
  rewrite (bind_prepend _ _ _ _ _ _ (get_applied_migrations_ok w3 _ Hview)).
  rewrite (bind_prepend _ _ _ _ _ _ (get_pending_migrations_ok md5 r w3 _ Hview)).
  fold rows. fold (all_migrations md5 (migrations_dir r)). fold pending.
  destruct Hready as (_ & Hc & _). unfold prepend, bind, emit, close. rewrite Hc. simpl.
  split; [done|]. split; [|done].
  do 5 apply list_elem_of_further. apply elem_of_app. right. by left.
Qed.

End FrameFacts.

(** C7: [render_sql_template] replaces every placeholder made of a dollar
    sign, an opening brace, an identifier (a letter or underscore followed
    by letters, digits or underscores) and a closing brace by the value
    the mapping holds for the identifier, wherever it stands in the text;
    a placeholder whose identifier is not a key is copied; text in which
    no mapped placeholder occurs, such as a placeholder with the malformed
    identifier [1bad], comes back unchanged.  The function is total: no
    input raises. *)
Theorem render_replaces_exactly_mapped_placeholders (vars : gmap string string) :
  (∀ pre name post v,
      Template.valid_ident name = true → vars !! name = Some v →
      Template.render_sql_template vars (pre +:+ Template.group0 name +:+ post) =
        Template.render_sql_template vars pre +:+ v
          +:+ Template.render_sql_template vars post) ∧
  (∀ pre name post,
      Template.valid_ident name = true → vars !! name = None →
      Template.render_sql_template vars (pre +:+ Template.group0 name +:+ post) =
        Template.render_sql_template vars pre +:+ Template.group0 name
          +:+ Template.render_sql_template vars post) ∧
  (∀ s,
      (∀ pre name post,
          s = pre +:+ Template.group0 name +:+ post →
          Template.valid_ident name = true → vars !! name = None) →
      Template.render_sql_template vars s = s) ∧
  Template.render_sql_template vars "${1bad}" = "${1bad}".
Proof.
  split_and!.
  - intros pre name post v Hv Hname.
    rewrite TemplateFacts.render_placeholder by done.
    unfold Template.replace_var. by rewrite Hname.
  - intros pre name post Hv Hname.
    rewrite TemplateFacts.render_placeholder by done.
    unfold Template.replace_var. by rewrite Hname.
  - apply TemplateFacts.render_verbatim.
  - unfold Template.render_sql_template. by case_decide.
Qed.

Example render_select :
  Template.render_sql_template {[ "X" := "5" ]} "SELECT '${X}'" = "SELECT '5'".
Proof. by vm_compute. Qed.

Example render_unmapped :
  Template.render_sql_template {[ "Y" := "5" ]} "SELECT '${X}'" = "SELECT '${X}'".
Proof. by vm_compute. Qed.

Lemma render_witness :
  Template.render_sql_template {[ "X" := "5" ]}
    ("SELECT '" +:+ Template.group0 "X" +:+ "' -- ${1bad}") = "SELECT '5' -- ${1bad}".
Proof.
  destruct (render_replaces_exactly_mapped_placeholders {[ "X" := "5" ]})
    as (Hmapped & _ & _ & _).
  rewrite (Hmapped "SELECT '" "X" "' -- ${1bad}" "5"); [|reflexivity|by vm_compute].
  by vm_compute.
Defined.

(** * File names and descriptors *)

Section NameFacts.

Lemma rfind_dot_sql pos base :
  Str.rfind_dot pos (base +:+ ".sql") = Some (pos + String.length base).
Proof.
  revert pos. induction base as [|c base IH]; intros pos.
  - simpl. f_equal. lia.
  - rewrite StrFacts.app_cons. cbn [Str.rfind_dot String.length].
    rewrite IH. f_equal. lia.
Qed.

Lemma substring_app_l base suffix :
  String.substring 0 (String.length base) (base +:+ suffix) = base.
Proof.
  induction base as [|c base IH]; simpl.
  - by destruct suffix.
  - by rewrite IH.
Qed.

Lemma substring_full s : String.substring 0 (String.length s) s = s.
Proof. induction s as [|c s IH]; simpl; [done|]. by rewrite IH. Qed.

Lemma substring_app_r base suffix :
  String.substring (String.length base) (String.length suffix) (base +:+ suffix) = suffix.
Proof. induction base as [|c base IH]; simpl; [apply substring_full|done]. Qed.

Lemma endswith_app base suffix : Str.endswith (base +:+ suffix) suffix = true.
Proof.
  unfold Str.endswith. rewrite StrFacts.length_app.
  apply andb_true_iff. split; [apply Nat.leb_le; lia|].
  replace (String.length base + String.length suffix - String.length suffix)
    with (String.length base) by lia.
  rewrite substring_app_r. apply String.eqb_refl.
Qed.

(** The stem of [base.sql] is [base], unless [base] is empty. *)
Lemma stem_sql base : base ≠ "" → Str.stem (base +:+ ".sql") = base.
Proof.
  intros Hbase. unfold Str.stem. rewrite rfind_dot_sql, StrFacts.length_app. simpl.
  destruct base as [|c base]; [done|]. cbn [String.length].
  replace (0 <? S (String.length base))%nat with true by (symmetry; apply Nat.ltb_lt; lia).
  replace (S (String.length base) <? S (String.length base) + 4 - 1)%nat with true
    by (symmetry; apply Nat.ltb_lt; lia).
  simpl andb. cbv iota.
  apply (substring_app_l (String c base) ".sql").
Qed.

Lemma length_replace_char old new s :
  String.length (Str.replace_char old new s) = String.length s.
Proof. induction s as [|c s IH]; simpl; [done|]. by rewrite IH. Qed.

Lemma get_replace_char old new s i :
  old ≠ new → String.get i (Str.replace_char old new s) ≠ Some old.
Proof.
  intros Hne. revert i. induction s as [|c s IH]; intros i; [done|]. simpl.
  destruct i as [|i]; [|apply IH].
  destruct (Ascii.eqb c old) eqn:Hc; [congruence|].
  apply Ascii.eqb_neq in Hc. congruence.
Qed.

End NameFacts.

Section FromFileFacts.
Variable md5 : string → string.

(** X1: [Migration.from_file] on the file [base.sql] of a directory, with
    a base that is not empty: the descriptor holds the name of the file as
    [filename] and as path, the checksum of the content of the file, and
    as description the base with every underscore replaced by a space, so
    the description is four characters shorter than the name and has no
    underscore.  Nothing else happens. *)
Theorem from_file_describes_a_sql_file (dir : Directory) base content w :
  base ≠ "" → dir !! (base +:+ ".sql") = Some content →
  ∃ m,
    from_file md5 dir (base +:+ ".sql") w = mkRun (Returned m) w [] ∧
    filename m = base +:+ ".sql" ∧ filepath m = filename m ∧
    checksum m = md5 content ∧
    description m = Str.replace_char "_" " " base ∧
    String.length (description m) + 4 = String.length (filename m) ∧
    ∀ i, String.get i (description m) ≠ Some "_"%char.
Proof.
  intros Hbase Hfile.
  rewrite (from_file_ok md5 dir _ content) by (done || apply endswith_app).
  eexists. split; [done|]. unfold descriptor. cbn [filename filepath checksum description].
  rewrite (stem_sql base Hbase). split_and!; try done.
  - rewrite length_replace_char, StrFacts.length_app. done.
  - intros i. by apply get_replace_char.
Qed.

(** A path that does not end in [.sql] makes [Migration.from_file] raise
    [ValueError] before the file is opened. *)
Lemma from_file_rejects_other_names (dir : Directory) path w :
  Str.endswith path ".sql" = false →
  from_file md5 dir path w = mkRun (Raised ValueError) w [].
Proof. intros Hsql. unfold from_file. by rewrite Hsql. Qed.

End FromFileFacts.

(** * Exit codes, order and content of a run *)

Section OutcomeFacts.
Variable md5 : string → string.
Variable create_ok : Creation → list string → bool.
Variable execute_ok : list string → string → bool.
Variable commit_ok : list string → list string → bool.

Local Arguments store_row : simpl never.
Local Arguments Template.render_sql_template : simpl never.
Local Arguments String.substring : simpl never.

Abbreviation apply_migration := (apply_migration execute_ok commit_ok).
Abbreviation migrate_loop := (migrate_loop execute_ok commit_ok).
Abbreviation run_callbacks := (run_callbacks execute_ok commit_ok).
Abbreviation run_after_migrate_scripts := (run_after_migrate_scripts execute_ok commit_ok).
Abbreviation initialize_schema_table := (initialize_schema_table create_ok commit_ok).
Abbreviation ensure_database_exists := (ensure_database_exists create_ok).
Abbreviation migrate := (migrate md5 create_ok execute_ok commit_ok).

(** A migration returns [False] only after its script failed, and never
    with [dry_run]. *)
Lemma apply_migration_False r m dry w :
  out (apply_migration r m dry w) = Returned false →
  dry = false ∧ execution_failed (events (apply_migration r m dry w)) KMigration (filename m).
Proof.
  unfold apply_migration, ledger_row, execution_failed.
  destruct w as [re [[led hist]|] [[ss sr]|]]; run_primitives.
  all: split_cases; try done; intros _.
  all: try (split; [done|]).
  all: try (right; apply list_elem_of_further, list_elem_of_here).
  all: try (left; eexists; apply list_elem_of_here).
  all: rewrite ?app_nil_r in *.
  all: match goal with
       | H : store_row ?rows (mkRow ?a ?b ?c ?d true) = None |- _ =>
           apply (store_row_success _ _ _ _ _ _ false) in H; congruence
       end.
Qed.


(** The loop leaves [migrate] with exit code 1, after a migration failed;
    when it runs to its end, no migration failed. *)
Lemma migrate_loop_outcome r dry ms n w :
  match out (migrate_loop r dry ms n w) with
  | Returned (inl code) =>
      code = 1%Z ∧
      ∃ m, m ∈ ms ∧ execution_failed (events (migrate_loop r dry ms n w)) KMigration (filename m)
  | Returned (inr k) =>
      Forall (λ e, is_failure e = false) (events (migrate_loop r dry ms n w))
  | Raised _ => True
  end.
Proof.
  revert n w. induction ms as [|m ms IH]; intros n w; [by constructor|].
  cbn [migrate_loop]. step_bind Ho; [|done].
  destruct a; simpl.
  - specialize (IH (S n) (final (apply_migration r m dry w))).
    destruct (out (migrate_loop r dry ms (S n) (final (apply_migration r m dry w))))
      as [[code|k]|e]; [| |done].
    + destruct IH as (-> & m' & Hm' & Hfail). split; [done|]. exists m'.
      split; [by right|].
      apply execution_failed_Exists, Exists_app. right. by apply execution_failed_Exists.
    + apply Forall_app. split; [by apply apply_migration_True|done].
  - destruct (close_ret_spec (inl 1%Z : Z + nat) (final (apply_migration r m dry w)))
      as (-> & _).
    split; [done|]. exists m. split; [by left|].
    apply apply_migration_False in Ho as [_ Hfail].
    apply execution_failed_Exists, Exists_app. left. by apply execution_failed_Exists.
Qed.

Lemma apply_migration_run r m dry w :
  migrations_run (events (apply_migration r m dry w)) = [] ∨
  migrations_run (events (apply_migration r m dry w)) = [filename m].
Proof.
  unfold apply_migration.
  destruct w as [re [[led hist]|] [[ss sr]|]]; run_primitives.
  all: split_cases; auto.
Qed.

Lemma apply_migration_run_True r m w :
  out (apply_migration r m false w) = Returned true →
  migrations_run (events (apply_migration r m false w)) = [filename m].
Proof.
  unfold apply_migration.
  destruct w as [re [[led hist]|] [[ss sr]|]]; run_primitives.
  all: split_cases; try done.
Qed.

Lemma migrations_run_app evs1 evs2 :
  migrations_run (evs1 ++ evs2) = migrations_run evs1 ++ migrations_run evs2.
Proof. apply omap_app. Qed.

Lemma migrations_run_none evs :
  Forall (λ e, ∀ name, script_of e = Some (KMigration, name) → is_execute e = false) evs →
  migrations_run evs = [].
Proof.
  induction 1 as [|e evs He _ IH]; [done|].
  change (e :: evs) with ([e] ++ evs). rewrite migrations_run_app, IH, app_nil_r.
  destruct e as [| | | | | | | |[] name| | | | | |]; try done.
  by specialize (He name eq_refl).
Qed.

Lemma migrations_run_quiet evs :
  Forall (λ e, quiet e ∨ callback_event e) evs → migrations_run evs = [].
Proof.
  intros Hq. apply migrations_run_none. eapply Forall_impl; [done|]. simpl.
  unfold quiet. intros e [Hn | [name' Hn]] name He; congruence.
Qed.

Lemma migrate_loop_dry_run r ms n w :
  migrations_run (events (migrate_loop r true ms n w)) = [].
Proof.
  destruct (migrate_loop_dry execute_ok commit_ok r ms n w) as [_ Hev].
  apply migrations_run_none. eapply Forall_impl; [done|]. simpl.
  intros e He name _. by destruct e.
Qed.

(** The scripts that the loop executes are the first of its list, in the
    order of the list. *)
Lemma migrate_loop_run r dry ms n w :
  migrations_run (events (migrate_loop r dry ms n w)) `prefix_of` filename <$> ms.
Proof.
  destruct dry; [rewrite migrate_loop_dry_run; apply prefix_nil|].
  revert n w. induction ms as [|m ms IH]; intros n w; [done|].
  cbn [migrate_loop]. step_bind Ho.
  - rewrite migrations_run_app. destruct a; simpl.
    + rewrite (apply_migration_run_True r m w Ho). simpl. apply prefix_cons, IH.
    + rewrite (migrations_run_quiet (events ((close;; ret (inl 1%Z))%run _))).
      * rewrite app_nil_r.
        destruct (apply_migration_run r m false w) as [-> | ->];
          [apply prefix_nil|apply prefix_cons, prefix_nil].
      * eapply Forall_impl; [apply close_ret_events|]. auto.
  - destruct (apply_migration_run r m false w) as [-> | ->];
      [apply prefix_nil|apply prefix_cons, prefix_nil].
Qed.


(** The pending migrations are files of the migrations directory. *)
Lemma get_pending_migrations_on_disk r w pending :
  out (get_pending_migrations md5 r w) = Returned pending →
  Forall (on_disk md5 (migrations_dir r)) pending.
Proof.
  destruct (ledger_view w) as [rows|] eqn:Hview.
  - rewrite (get_pending_migrations_ok md5 r w rows Hview). simpl. intros [= <-].
    apply Forall_forall. intros m [_ Hm]%list_elem_of_filter.
    by apply elem_of_all_migrations.
  - destruct (get_pending_migrations_raises md5 r w Hview) as (e & evs & -> & Hq). done.
Qed.

(** The log and the outcome of [migrate] around its loop: quiet events
    before the loop, callbacks and quiet events after it; an exit code is
    that of the loop, or 0 after a loop that ran to its end; callbacks
    only follow a loop that ran to its end. *)
Lemma migrate_shape r dry w :
  ∃ pre ms w1 post,
    events (migrate r dry w) = pre ++ events (migrate_loop r dry ms 0 w1) ++ post ∧
    Forall quiet pre ∧
    Forall (λ e, quiet e ∨ callback_event e) post ∧
    StronglySorted by_filename ms ∧
    Forall (on_disk md5 (migrations_dir r)) ms ∧
    (∀ code, out (migrate r dry w) = Returned code →
       out (migrate_loop r dry ms 0 w1) = Returned (inl code) ∨
       code = 0%Z ∧ ∃ k, out (migrate_loop r dry ms 0 w1) = Returned (inr k)) ∧
    (post ≠ [] → ∃ k, out (migrate_loop r dry ms 0 w1) = Returned (inr k)).
Proof.
  assert (∀ evs e, Forall quiet evs →
            ∃ pre ms w1 post,
              evs = pre ++ events (migrate_loop r dry ms 0 w1) ++ post ∧
              Forall quiet pre ∧ Forall (λ e, quiet e ∨ callback_event e) post ∧
              StronglySorted by_filename ms ∧
              Forall (on_disk md5 (migrations_dir r)) ms ∧
              (∀ code, @Raised Z e = Returned code →
                 out (migrate_loop r dry ms 0 w1) = Returned (inl code) ∨
                 code = 0%Z ∧ ∃ k, out (migrate_loop r dry ms 0 w1) = Returned (inr k)) ∧
              (post ≠ [] → ∃ k, out (migrate_loop r dry ms 0 w1) = Returned (inr k))) as Hquiet.
  { intros evs e Hq. exists evs, [], w, []. simpl. rewrite app_nil_r.
    split_and!; try done; constructor. }
  assert (∀ w' (b : bool),
            Forall (λ e, quiet e ∨ callback_event e)
              (events (((if b then ret tt else run_after_migrate_scripts r dry);;
                        close;; ret 0%Z)%run w')) ∧
            ∀ code, out (((if b then ret tt else run_after_migrate_scripts r dry);;
                          close;; ret 0%Z)%run w') = Returned code → code = 0%Z) as Htail.
  { intros w' b. split.
    - apply events_bind.
      + destruct b; [constructor|].
        eapply Forall_impl; [apply run_after_migrate_scripts_events|]. auto.
      + intros _ _. eapply Forall_impl; [apply close_ret_events|]. auto.
    - intros code. step_bind Ho; [|done].
      destruct (close_ret_spec 0%Z (final ((if b then ret tt
                  else run_after_migrate_scripts r dry) w'))) as (-> & _).
      by intros [= <-]. }
  unfold migrate.
  pose proof (ensure_database_exists_events create_ok r w) as H1.
  step_bind Ho1; [|by apply Hquiet].
  pose proof (connect_events (final (ensure_database_exists r w))) as H2.
  step_bind Ho2; [|apply Hquiet; by apply Forall_app].
  set (w2 := final (connect (final (ensure_database_exists r w)))) in *.
  assert (Forall quiet (events ((if dry then ret tt else initialize_schema_table) w2))) as H3.
  { destruct dry; [constructor|apply initialize_schema_table_events]. }
  step_bind Ho3; [|apply Hquiet; by rewrite !Forall_app].
  set (w3 := final ((if dry then ret tt else initialize_schema_table) w2)) in *.
  pose proof (get_pending_migrations_events md5 r w3) as H4.
  pose proof (get_pending_migrations_final md5 r w3) as Hw4.
  step_bind Ho4; [|apply Hquiet; by rewrite !Forall_app].
  rewrite Hw4. rename a2 into pending.
  pose proof (get_pending_migrations_sorted md5 r w3 pending Ho4) as Hsorted.
  pose proof (get_pending_migrations_on_disk r w3 pending Ho4) as Hdisk.
  destruct pending as [|m ms].
  - destruct (Htail w3 a) as [Hev Hcode].
    match goal with
    | |- ∃ pre ms w1 post, ?e1 ++ ?e2 ++ ?e3 ++ ?e4 ++ ?tl = _ ∧ _ =>
        exists (e1 ++ e2 ++ e3 ++ e4), [], w, tl
    end.
    split; [by rewrite <-!app_assoc|].
    split; [by rewrite !Forall_app|]. split; [done|].
    split; [constructor|]. split; [constructor|]. split.
    + intros code Hout. right. split; [by apply Hcode|]. by exists 0.
    + intros _. by exists 0.
  - pose proof (migrate_loop_outcome r dry (m :: ms) 0 w3) as Hloop.
    step_bind Ho5.
    + match goal with
      | |- ∃ pre ms w1 post, ?e1 ++ ?e2 ++ ?e3 ++ ?e4 ++ ?e5 ++ ?tl = _ ∧ _ =>
          exists (e1 ++ e2 ++ e3 ++ e4), (m :: ms), w3, tl
      end.
      split; [by rewrite <-!app_assoc|].
      split; [by rewrite !Forall_app|].
      destruct a2 as [code'|k].
      * split; [constructor|]. split; [done|]. split; [done|]. split.
        -- intros code [= <-]. by left.
        -- done.
      * assert (∃ b : bool, (if (0 <? k)%nat then run_after_migrate_scripts r dry else ret tt) =
                            (if b then ret tt else run_after_migrate_scripts r dry)) as [b ->].
        { destruct (0 <? k)%nat; [by exists false|by exists true]. }
        destruct (Htail (final (migrate_loop r dry (m :: ms) 0 w3)) b) as [Hev Hcode].
        split; [done|]. split; [done|]. split; [done|]. split.
        -- intros code Hout. right. split; [by apply Hcode|]. by exists k.
        -- intros _. by exists k.
    + match goal with
      | |- ∃ pre ms w1 post, ?e1 ++ ?e2 ++ ?e3 ++ ?e4 ++ ?e5 = _ ∧ _ =>
          exists (e1 ++ e2 ++ e3 ++ e4), (m :: ms), w3, []
      end.
      split; [by rewrite app_nil_r, <-!app_assoc|].
      split; [by rewrite !Forall_app|]. split; [constructor|].
      split; [done|]. split; [done|]. split; done.
Qed.


Lemma loop_event_not_callback r dry ms n w e :
  e ∈ events (migrate_loop r dry ms n w) → ¬ callback_event e.
Proof.
  intros He [name Hn].
  pose proof (migrate_loop_events execute_ok commit_ok r dry ms n w) as Hloop.
  rewrite Forall_forall in Hloop. destruct (Hloop e He) as [-> | (m & _ & Hs)]; [done|].
  congruence.
Qed.

(** X2: when [migrate] returns, its exit code is 0 or 1, and it is 1
    exactly when the script of a migration failed in this run (its
    [execute] or the commit after it raised). *)
Theorem migrate_returns_1_exactly_after_a_failure r dry w code :
  out (migrate r dry w) = Returned code →
  (code = 0%Z ∨ code = 1%Z) ∧
  (code = 1%Z ↔ ∃ name, execution_failed (events (migrate r dry w)) KMigration name).
Proof.
  intros Hout.
  destruct (migrate_shape r dry w)
    as (pre & ms & w1 & post & Heq & Hpre & Hpost & _ & _ & Hcode & _).
  pose proof (migrate_loop_outcome r dry ms 0 w1) as Hloop.
  rewrite Heq.
  destruct (Hcode code Hout) as [Hinl | [-> [k Hinr]]].
  - rewrite Hinl in Hloop. destruct Hloop as (-> & m & _ & Hfail).
    split; [by right|]. split; [|done]. intros _. exists (filename m).
    apply execution_failed_Exists. rewrite !Exists_app. right. left.
    by apply execution_failed_Exists.
  - rewrite Hinr in Hloop. split; [by left|]. split; [done|].
    intros (name & (e & He & Hfail & Hs)%execution_failed_Exists%Exists_exists).
    apply (migration_event_in_loop _ _ _ _ name Hpre Hpost) in He; [|done].
    rewrite Forall_forall in Hloop. specialize (Hloop e He). congruence.
Qed.


(** X3: after the script of a migration failed, [migrate] runs no
    callback script: the log of such a run holds no event of a callback,
    and the run does not return 0. *)
Theorem no_callback_after_a_failed_migration r dry w name :
  execution_failed (events (migrate r dry w)) KMigration name →
  Forall (λ e, ¬ callback_event e) (events (migrate r dry w)) ∧
  out (migrate r dry w) ≠ Returned 0%Z.
Proof.
  intros (e & He & Hfail & Hs)%execution_failed_Exists%Exists_exists.
  destruct (migrate_shape r dry w)
    as (pre & ms & w1 & post & Heq & Hpre & Hpost & _ & _ & Hcode & Hafter).
  pose proof (migrate_loop_outcome r dry ms 0 w1) as Hloop.
  rewrite Heq in He. apply (migration_event_in_loop _ _ _ _ name Hpre Hpost) in He; [|done].
  assert (∀ k, out (migrate_loop r dry ms 0 w1) ≠ Returned (inr k)) as Hnot.
  { intros k Hk. rewrite Hk in Hloop. rewrite Forall_forall in Hloop.
    specialize (Hloop e He). congruence. }
  split.
  - assert (post = []) as ->.
    { destruct post as [|e' post]; [done|]. destruct Hafter as [k Hk]; [done|].
      by destruct (Hnot k). }
    rewrite Heq, app_nil_r. apply Forall_app. split.
    + eapply Forall_impl; [done|]. unfold quiet. intros e' Hq [n Hn]. congruence.
    + apply Forall_forall. intros e' He'. by eapply loop_event_not_callback.
  - intros Hout. destruct (Hcode 0%Z Hout) as [Hinl | [_ [k Hk]]].
    + rewrite Hinl in Hloop. by destruct Hloop as [? _].
    + by destruct (Hnot k).
Qed.

(** X4: in one run of [migrate] every migration script is executed at
    most once and the scripts are executed in the strict byte-wise order
    of their file names; each is a [.sql] file of the migrations
    directory; with [dry_run] none is executed. *)
Theorem migrations_run_once_in_name_order r dry w :
  StronglySorted Str.lt (migrations_run (events (migrate r dry w))) ∧
  (∀ name, name ∈ migrations_run (events (migrate r dry w)) →
           Str.endswith name ".sql" = true ∧ is_Some (migrations_dir r !! name)) ∧
  (dry = true → migrations_run (events (migrate r dry w)) = []).
Proof.
  destruct (migrate_shape r dry w)
    as (pre & ms & w1 & post & Heq & Hpre & Hpost & Hsorted & Hdisk & _ & _).
  rewrite Heq, !migrations_run_app.
  rewrite (migrations_run_quiet pre) by (eapply Forall_impl; [done|]; auto).
  rewrite (migrations_run_quiet post), app_nil_r by done. simpl.
  destruct (migrate_loop_run r dry ms 0 w1) as [rest Hrest].
  assert (StronglySorted Str.lt (filename <$> ms)) as Hnames.
  { apply (StronglySorted_fmap filename by_filename Str.lt); [|done]. by intros m1 m2 Hlt. }
  rewrite Hrest in Hnames. split_and!.
  - by apply StronglySorted_app_1_l in Hnames.
  - intros name Hname.
    assert (name ∈ filename <$> ms) as (m & -> & Hm)%list_elem_of_fmap.
    { rewrite Hrest. apply elem_of_app. by left. }
    rewrite Forall_forall in Hdisk. destruct (Hdisk m Hm) as (content & Hfile & Hsql & _).
    split; [done|by eexists].
  - intros ->. apply migrate_loop_dry_run.
Qed.

Lemma apply_migration_from_disk r m dry w :
  on_disk md5 (migrations_dir r) m →
  Forall (from_disk md5 r) (events (apply_migration r m dry w)).
Proof.
  intros (content & Hfile & Hsql & Hm). rewrite Hm. rewrite Hm in Hfile. simpl in Hfile.
  unfold apply_migration, ledger_row, descriptor. simpl.
  destruct w as [re [[led hist]|] [[ss sr]|]]; run_primitives; rewrite Hfile.
  all: split_cases; repeat constructor; simpl; eauto.
Qed.

Lemma migrate_loop_from_disk r dry ms n w :
  Forall (on_disk md5 (migrations_dir r)) ms →
  Forall (from_disk md5 r) (events (migrate_loop r dry ms n w)).
Proof.
  intros Hdisk. revert n w. induction Hdisk as [|m ms Hm _ IH]; intros n w; [constructor|].
  cbn [migrate_loop]. apply events_bind; [by apply apply_migration_from_disk|].
  intros [] _; simpl; [apply IH|].
  run_primitives. split_cases; by repeat constructor.
Qed.

Lemma quiet_or_callback_from_disk r e :
  quiet e ∨ callback_event e → from_disk md5 r e.
Proof.
  unfold quiet. intros [Hq | [name Hn]]; destruct e; try done; simpl in *.
  all: by simplify_eq.
Qed.

(** X5: what [migrate] sends to the server for a migration comes from the
    file on disk: the executed script is the text of the file (its bytes
    decoded, its line endings turned into line feeds) with the template
    variables replaced, the preview of a dry run is the first 500
    characters of that, and the ledger row holds the name of the file,
    the description made from the name, the user of the runner and the
    checksum of the bytes of the file as they are on disk. *)
Theorem migrate_sends_what_is_on_disk r dry w :
  Forall (from_disk md5 r) (events (migrate r dry w)).
Proof.
  destruct (migrate_shape r dry w)
    as (pre & ms & w1 & post & Heq & Hpre & Hpost & _ & Hdisk & _ & _).
  rewrite Heq, !Forall_app. split_and!.
  - eapply Forall_impl; [done|]. intros e He. apply quiet_or_callback_from_disk. by left.
  - by apply migrate_loop_from_disk.
  - eapply Forall_impl; [done|]. intros e He. by apply quiet_or_callback_from_disk.
Qed.

End OutcomeFacts.

(** * What later runs do *)

Section RerunFacts.
Variable md5 : string → string.
Variable create_ok : Creation → list string → bool.
Variable execute_ok : list string → string → bool.
Variable commit_ok : list string → list string → bool.

Local Arguments store_row : simpl never.
Local Arguments Template.render_sql_template : simpl never.
Local Arguments String.substring : simpl never.

Abbreviation apply_migration := (apply_migration execute_ok commit_ok).
Abbreviation migrate_loop := (migrate_loop execute_ok commit_ok).
Abbreviation run_callbacks := (run_callbacks execute_ok commit_ok).
Abbreviation run_after_migrate_scripts := (run_after_migrate_scripts execute_ok commit_ok).
Abbreviation initialize_schema_table := (initialize_schema_table create_ok commit_ok).
Abbreviation ensure_database_exists := (ensure_database_exists create_ok).
Abbreviation migrate := (migrate md5 create_ok execute_ok commit_ok).

(** The pending list of a run that starts with the ledger rows [rows]. *)
Lemma elem_of_pending rows dir m :
  m ∈ filter (λ m, applied_dict rows !! filename m = None) (all_migrations md5 dir) ↔
  on_disk md5 dir m ∧ filename m ∉ row_script <$> rows.
Proof.
  rewrite list_elem_of_filter, applied_dict_None.
  unfold all_migrations. rewrite elem_of_all_migrations. tauto.
Qed.

Lemma filename_filter_pending rows (content : string → string) (l : list string) :
  filename <$> filter (λ m, applied_dict rows !! filename m = None)
                 ((λ p, descriptor md5 p (content p)) <$> l) =
  filter (λ name, name ∉ row_script <$> rows) l.
Proof.
  induction l as [|p l IH]; [done|].
  rewrite fmap_cons, !filter_cons.
  pose proof (applied_dict_None rows p) as Hiff.
  destruct (decide (applied_dict rows !! filename (descriptor md5 p (content p)) = None))
    as [Hnone|Hsome];
    destruct (decide (p ∉ row_script <$> rows)) as [Hfresh|Hold].
  - rewrite fmap_cons. cbn [filename descriptor]. by rewrite IH.
  - destruct Hold. by apply Hiff.
  - destruct Hsome. by apply Hiff.
  - done.
Qed.

Lemma filename_pending dir rows :
  filename <$> filter (λ m, applied_dict rows !! filename m = None) (all_migrations md5 dir) =
  pending_names dir rows.
Proof. apply filename_filter_pending. Qed.

(** Every event of a migration in a run of [migrate] belongs to a file on
    disk that the ledger did not hold when the run started. *)
Lemma migrate_events_pending r dry w :
  Forall (λ e, ∀ name, script_of e = Some (KMigration, name) →
            ∃ m, on_disk md5 (migrations_dir r) m ∧ filename m = name ∧
                 name ∉ row_script <$> default [] (ledger_of w))
    (events (migrate r dry w)).
Proof.
  assert (∀ evs, Forall quiet evs →
            Forall (λ e, ∀ name, script_of e = Some (KMigration, name) →
                      ∃ m, on_disk md5 (migrations_dir r) m ∧ filename m = name ∧
                           name ∉ row_script <$> default [] (ledger_of w)) evs) as Hquiet.
  { intros evs Hq. eapply Forall_impl; [done|]. unfold quiet. intros e -> name. done. }
  destruct (set_up_ok create_ok r dry w) eqn:Hok.
  2: { destruct (migrate_fails_early md5 create_ok execute_ok commit_ok r dry w Hok)
         as (e & _ & Hq). by apply Hquiet. }
  destruct (migrate_discovers md5 create_ok execute_ok commit_ok r dry w Hok)
    as (pre & w3 & Hq & Hready & ->).
  set (rows := default [] (ledger_of w)) in *.
  set (pending := filter _ _) in *.
  destruct (migrate_rest_ready execute_ok commit_ok r dry
              (bool_decide (target w = None)) pending w3 rows Hready)
    as (rows' & _ & _ & _ & Hev & _ & _).
  unfold prepend. cbn [events]. rewrite !Forall_app. split_and!.
  - by apply Hquiet.
  - apply Hquiet. constructor; [done|]. apply drift_warnings_quiet.
  - eapply Forall_impl; [done|]. simpl.
    intros e [Hquiet'|[[n Hn]|(m & Hm & Hs)]] name Hname;
      [unfold quiet in Hquiet'; congruence|congruence|].
    apply elem_of_pending in Hm as [Hdisk Hfresh].
    exists m. split; [done|]. split; congruence.
Qed.

(** X6: a migration whose file name the ledger holds is not run again,
    whatever the row says: successful or failed, with the checksum of the
    file or another.  No event of a run of [migrate] (preview, execution,
    insert, commit) belongs to it. *)
Theorem recorded_script_is_never_run r dry w rows name :
  ledger_of w = Some rows → name ∈ row_script <$> rows →
  Forall (λ e, script_of e ≠ Some (KMigration, name)) (events (migrate r dry w)).
Proof.
  intros Hl Hname.
  eapply Forall_impl; [apply migrate_events_pending|]. simpl.
  intros e He Hs. destruct (He name Hs) as (m & _ & _ & Hfresh).
  rewrite Hl in Hfresh. done.
Qed.


(** When the loop leaves [migrate], the last row of the ledger records
    the migration that failed, with [success = false], and every failure
    in the log of the loop is a failure of that migration. *)
Lemma migrate_loop_failed r ms n w rows code :
  ready w rows → Forall (λ m, Str.endswith (filename m) ".sql" = true) ms →
  out (migrate_loop r false ms n w) = Returned (inl code) →
  ∃ m rows' stored,
    m ∈ ms ∧
    ledger_of (final (migrate_loop r false ms n w)) = Some (rows' ++ [stored]) ∧
    row_script stored = filename m ∧ row_success stored = false ∧
    Forall (λ e, is_failure e = true → script_of e = Some (KMigration, filename m))
      (events (migrate_loop r false ms n w)).
Proof.
  intros Hready Hsql. revert n w rows Hready.
  induction Hsql as [|m ms Hm _ IH]; intros n w rows Hready; [done|].
  destruct (apply_migration_ready execute_ok commit_ok r m false w rows Hready)
    as (rows1 & Hready1 & _ & Hrow).
  cbn [migrate_loop]. step_bind Ho; [|done].
  destruct a; simpl.
  - intros Hout. destruct (IH _ _ _ Hready1 Hout) as (m' & rows' & stored & Hm' & Hl & Hs & Hf & Hev).
    exists m', rows', stored. split_and!; try done; [by right|].
    apply Forall_app. split; [|done].
    eapply Forall_impl; [by apply apply_migration_True|]. simpl. congruence.
  - destruct (close_ret_spec (inl 1%Z : Z + nat) (final (apply_migration r m false w)))
      as (_ & _ & _ & Ht).
    intros _. destruct (Hrow false eq_refl eq_refl) as (stored & Hstore & ->).
    apply store_row_inv in Hstore as (Hname & _ & Hflag). simpl in Hname, Hflag.
    apply (varchar_sql_name _ _ _ Hm) in Hname.
    exists m, rows, stored. split_and!; try done; [by left| |].
    + destruct Hready1 as (_ & _ & Hl). unfold ledger_of in *. by rewrite Ht.
    + apply Forall_app. split.
      * eapply Forall_impl; [apply apply_migration_events|]. simpl. auto.
      * eapply Forall_impl; [apply close_ret_events|]. unfold quiet.
        intros e Hq Hfail. by destruct e as [| | | | | | | | | |[]| | | |].
Qed.

(** X7: a migration that failed is not tried again.  When a run of
    [migrate] returns 1 after the script of migration [name] failed, the
    last row of the ledger records [name] with [success = false], and no
    event of a later run, with or without [dry_run], belongs to that
    migration: the file name is in the ledger, so the file is not
    pending. *)
Theorem failed_migration_is_not_retried r w name :
  out (migrate r false w) = Returned 1%Z →
  execution_failed (events (migrate r false w)) KMigration name →
  (∃ rows row, ledger_of (final (migrate r false w)) = Some (rows ++ [row]) ∧
               row_script row = name ∧ row_success row = false) ∧
  ∀ dry, Forall (λ e, script_of e ≠ Some (KMigration, name))
           (events (migrate r dry (final (migrate r false w)))).
Proof.
  intros Hout (e & He & Hfail & Hs)%execution_failed_Exists%Exists_exists.
  assert (set_up_ok create_ok r false w = true) as Hok.
  { destruct (set_up_ok create_ok r false w) eqn:Hok; [done|].
    destruct (migrate_fails_early md5 create_ok execute_ok commit_ok r false w Hok)
      as (x & Hx & _). congruence. }
  destruct (migrate_discovers md5 create_ok execute_ok commit_ok r false w Hok)
    as (pre & w3 & Hq & Hready & Heq).
  rewrite Heq in Hout, He |- *. clear Heq.
  set (rows := default [] (ledger_of w)) in *.
  set (pending := filter _ _) in *.
  assert (Forall (λ m, Str.endswith (filename m) ".sql" = true) pending) as Hsql.
  { apply Forall_forall. intros m [(content & _ & Hsql & _) _]%elem_of_pending. done. }
  unfold prepend in *. cbn [out final events] in *.
  assert (∃ rows' row,
            ledger_of (final (migrate_rest execute_ok commit_ok r false
                                (bool_decide (target w = None)) pending w3)) =
              Some (rows' ++ [row]) ∧
            row_script row = name ∧ row_success row = false) as Hrecorded.
  { apply elem_of_app in He as [He | He].
    { exfalso. apply elem_of_app in He as [He | He].
      - by destruct (quiet_no_script _ _ _ Hq He Hs).
      - apply elem_of_cons in He as [-> | He]; [done|].
        by destruct (quiet_no_script _ _ _ (drift_warnings_quiet _ _) He Hs). }
    destruct pending as [|m ms].
    { destruct (migrate_tail_ready execute_ok commit_ok r false
                  (bool_decide (target w = None)) w3 rows Hready)
        as (_ & _ & _ & [[Hout0 _]|[Hout0 _]] & _);
        unfold migrate_rest in Hout; congruence. }
    destruct (migrate_loop_ready execute_ok commit_ok r false (m :: ms) 0 w3 rows Hready)
      as (rows1 & _ & _ & _ & Hend).
    revert Hout He. unfold migrate_rest. step_bind Ho; [|done].
    destruct a as [code|k].
    - unfold ret. cbn [out final events]. rewrite app_nil_r. intros [= ->] He.
      destruct (migrate_loop_failed r (m :: ms) 0 w3 rows 1%Z Hready Hsql Ho)
        as (m' & rows' & stored & _ & Hl & Hscript & Hflag & Hev).
      exists rows', stored. split; [done|]. split; [|done].
      rewrite Forall_forall in Hev. specialize (Hev e He Hfail). congruence.
    - destruct (Hend k eq_refl) as [Hready' _].
      assert (∃ b : bool, (if (0 <? k)%nat then run_after_migrate_scripts r false else ret tt) =
                          (if b then ret tt else run_after_migrate_scripts r false)) as [b ->].
      { destruct (0 <? k)%nat; [by exists false|by exists true]. }
      destruct (migrate_tail_ready execute_ok commit_ok r false b _ rows1 Hready')
        as (_ & _ & _ & [[Hout0 _]|[Hout0 _]] & _);
        intros Hout; congruence. }
  split; [done|]. intros dry.
  destruct Hrecorded as (rows' & row & Hl & Hscript & _).
  eapply Forall_impl; [apply migrate_events_pending|]. simpl.
  intros e' He' Hs'. destruct (He' name Hs') as (m & _ & _ & Hfresh).
  rewrite Hl in Hfresh. simpl in Hfresh. apply Hfresh.
  rewrite fmap_app, elem_of_app. right. rewrite <-Hscript. by left.
Qed.


Lemma elem_of_events_bind_l {A B} (m : M A) (f : A → M B) w e :
  e ∈ events (m w) → e ∈ events (bind m f w).
Proof.
  intros He. destruct (out (m w)) as [a|x] eqn:Ho.
  - rewrite (bind_Returned _ _ _ _ Ho). simpl. apply elem_of_app. by left.
  - by rewrite (bind_Raised _ _ _ _ Ho).
Qed.

Lemma ledger_grows_prefix rows rows' : ledger_grows rows rows' → rows `prefix_of` rows'.
Proof. induction 1; [done|]. by apply prefix_app_r. Qed.

(** The [UNIQUE] constraint keeps the scripts of the ledger distinct. *)
Lemma ledger_grows_NoDup rows rows' :
  ledger_grows rows rows' → NoDup (row_script <$> rows) → NoDup (row_script <$> rows').
Proof.
  induction 1 as [|rows' row stored _ IH Hstore]; [done|]. intros Hnd.
  apply store_row_inv in Hstore as (_ & Hfresh & _).
  rewrite fmap_app. apply NoDup_app. split; [by apply IH|]. split.
  - intros x Hx ->%list_elem_of_singleton. done.
  - apply NoDup_singleton.
Qed.

(** X8: [migrate] only appends to the ledger.  Whatever the outcome of a
    run, the rows that the ledger held before are its first rows after,
    unchanged and in the same order, and scripts that were distinct stay
    distinct. *)
Theorem migrate_only_appends_to_the_ledger r dry w rows :
  ledger_of w = Some rows →
  ∃ rows', ledger_of (final (migrate r dry w)) = Some rows' ∧
           rows `prefix_of` rows' ∧
           (NoDup (row_script <$> rows) → NoDup (row_script <$> rows')).
Proof.
  intros Hl. destruct (reachable w) eqn:Hre.
  - destruct (migrate_discovers md5 create_ok execute_ok commit_ok r dry w)
      as (pre & w3 & _ & Hready & ->).
    { apply set_up_ok_ledger; [done|]. rewrite Hl. by eexists. }
    rewrite Hl in Hready. simpl in Hready.
    set (pending := filter _ _).
    destruct (migrate_rest_ready execute_ok commit_ok r dry
                (bool_decide (target w = None)) pending w3 rows Hready)
      as (rows' & _ & Hl' & Hgrows & _).
    exists rows'. unfold prepend. cbn [final].
    split; [done|]. split; [by apply ledger_grows_prefix|by apply ledger_grows_NoDup].
  - exists rows. unfold migrate.
    rewrite (bind_Raised _ _ _ (SystemExit 1));
      rewrite (ensure_database_exists_unreachable create_ok r w Hre); done.
Qed.

(** X9: when no migration is pending on a database that has its ledger
    table, [migrate] without [dry_run] leaves the ledger as it is and
    goes on to the callbacks: when every callback file can be read as
    text, every one of them is executed and the run returns 0.  On a
    server without the target database, a run with nothing pending runs
    no callback at all. *)
Theorem callbacks_when_nothing_is_pending r w :
  reachable w = true →
  (∀ m, on_disk md5 (migrations_dir r) m →
        filename m ∈ row_script <$> default [] (ledger_of w)) →
  (∀ rows, ledger_of w = Some rows →
     ledger_of (final (migrate r false w)) = Some rows ∧
     (callbacks_readable r →
      out (migrate r false w) = Returned 0%Z ∧
      ∀ dir f, after_migrate_dir r = Some dir → f ∈ glob_sql dir →
               executed (events (migrate r false w)) KCallback f)) ∧
  (target w = None → Forall quiet (events (migrate r false w))).
Proof.
  intros Hre Hrecorded.
  assert (filter (λ m, applied_dict (default [] (ledger_of w)) !! filename m = None)
            (all_migrations md5 (migrations_dir r)) = []) as Hnone.
  { apply filter_nil_Forall, Forall_forall. intros m Hm.
    apply elem_of_all_migrations in Hm. rewrite applied_dict_None. auto. }
  split.
  - intros rows Hl.
    destruct (migrate_discovers md5 create_ok execute_ok commit_ok r false w)
      as (pre & w3 & Hq & Hready & ->).
    { apply set_up_ok_ledger; [done|]. rewrite Hl. by eexists. }
    rewrite Hnone. rewrite Hl in Hready. simpl in Hready.
    assert (target w ≠ None) as Ht.
    { unfold ledger_of in Hl. by destruct (target w). }
    rewrite bool_decide_false by done.
    unfold migrate_rest, prepend. cbn [out final events].
    destruct (migrate_tail_ready execute_ok commit_ok r false false w3 rows Hready)
      as (_ & Hl' & _ & _ & Hret & _).
    split; [done|]. intros Hread. split; [apply Hret; by right|].
    destruct (run_after_migrate_scripts_ready execute_ok commit_ok r false w3 rows Hready)
      as (_ & _ & Hexec & _).
    destruct (Hexec Hread) as [_ Hall].
    intros dir f Hdir Hf. destruct (Hall eq_refl dir f Hdir Hf) as (sql & ok & Hin).
    exists sql, ok. rewrite !elem_of_app. right. by apply elem_of_events_bind_l.
  - intros Ht.
    destruct (set_up_ok create_ok r false w) eqn:Hok.
    2: { by destruct (migrate_fails_early md5 create_ok execute_ok commit_ok r false w Hok)
           as (e & _ & Hq). }
    destruct (migrate_discovers md5 create_ok execute_ok commit_ok r false w Hok)
      as (pre & w3 & Hq & Hready & ->).
    rewrite Hnone, bool_decide_true by done.
    unfold migrate_rest, prepend. cbn [out final events].
    rewrite !Forall_app. split_and!; try done.
    + constructor; [done|]. apply drift_warnings_quiet.
    + apply events_bind; [constructor|]. intros _ _. apply (close_ret_events 0%Z).
Qed.

End RerunFacts.

(** * [info] *)

Section InfoFacts.
Variable md5 : string → string.
Variable create_ok : Creation → list string → bool.
Variable execute_ok : list string → string → bool.
Variable commit_ok : list string → list string → bool.

Local Arguments store_row : simpl never.
Local Arguments Template.render_sql_template : simpl never.
Local Arguments String.substring : simpl never.

Abbreviation info := (info md5 create_ok commit_ok).

(** Without a connection [info] reports the error and returns. *)
Lemma info_not_connected r w :
  reachable w = false ∨ target w = None →
  info r w = mkRun (Returned tt) w [EConnect false].
Proof.
  intros Hcase. unfold info, bind at 1, try_except, bind at 1, connect.
  destruct Hcase as [-> | ->]; [done|]. by rewrite andb_false_r.
Qed.

(** With a connection [info] makes sure that the ledger table exists, reads
    it twice, reports and closes. *)
Lemma info_connected r w db :
  reachable w = true → target w = Some db →
  is_Some (ledger db) ∨ create_ok CreateTable (applied_sql db) = true →
  let rows := default [] (ledger db) in
  let all := all_migrations md5 (migrations_dir r) in
  let pending := filter (λ m, applied_dict rows !! filename m = None) all in
  info r w =
    mkRun (Returned tt)
      (mkWorld true (Some (mkDatabase (Some rows) (applied_sql db))) None)
      ([EConnect true; ECreateTable; ECommit SiteSchema true; ESelectLedger true;
        ESelectLedger true] ++ drift_warnings (applied_dict rows) all ++
       [EInfo (size (applied_dict rows)) (filename <$> pending); EClose]).
Proof.
  intros Hre Ht Htable rows all pending.
  set (w3 := mkWorld true (Some (mkDatabase (Some rows) (applied_sql db)))
               (Some empty_connection)).
  assert (bool_decide (is_Some (ledger db)) || create_ok CreateTable (applied_sql db) = true)
    as Hb.
  { destruct Htable as [?| ->]; [by rewrite bool_decide_eq_true_2|by rewrite orb_true_r]. }
  assert (try_except (connect;; initialize_schema_table create_ok commit_ok;; ret true)
            (ret false) w =
          mkRun (Returned true) w3 [EConnect true; ECreateTable; ECommit SiteSchema true])
    as Htry.
  { destruct w as [re tg c]. simpl in Hre, Ht. subst re tg.
    unfold initialize_schema_table. run_primitives. rewrite Hb. simpl.
    by rewrite !app_nil_r. }
  assert (ledger_view w3 = Some rows) as Hview.
  { unfold ledger_view, ledger_of. simpl. by rewrite app_nil_r. }
  unfold info.
  rewrite (bind_prepend _ _ _ _ _ _ Htry). cbn [negb].
  rewrite (bind_prepend _ _ _ _ _ _ (get_applied_migrations_ok w3 _ Hview)).
  rewrite (bind_prepend _ _ _ _ _ _ (get_pending_migrations_ok md5 r w3 _ Hview)).
  fold all. fold pending. unfold prepend, bind, emit, close. simpl.
  done.
Qed.


(** Distinct scripts give as many dictionary entries as there are rows. *)
Lemma size_applied_dict rows :
  NoDup (row_script <$> rows) → size (applied_dict rows) = length rows.
Proof.
  induction rows as [|row rows IH] using rev_ind; [done|].
  rewrite fmap_app, NoDup_app. intros (Hnd & Hfresh & _).
  rewrite applied_dict_snoc, length_app, map_size_insert_None, IH by
    (try done; apply applied_dict_None; intros Hin; apply (Hfresh _ Hin); by left).
  simpl. lia.
Qed.

(** When the server does not let the runner create the ledger table,
    [info] takes the error for a failed connection: it returns, with the
    connection it has opened. *)
Lemma info_refused r w db :
  reachable w = true → target w = Some db →
  ledger db = None → create_ok CreateTable (applied_sql db) = false →
  info r w = mkRun (Returned tt) (set_conn (Some empty_connection) w)
               [EConnect true; ERefused CreateTable].
Proof.
  intros Hre Ht Hl Hno. unfold info.
  assert (try_except (connect;; initialize_schema_table create_ok commit_ok;; ret true)
            (ret false) w =
          mkRun (Returned false) (set_conn (Some empty_connection) w)
            [EConnect true; ERefused CreateTable]) as Htry.
  { destruct w as [re tg c]. destruct db as [led hist]. simpl in *. subst re tg led.
    unfold initialize_schema_table. run_primitives. by rewrite Hno. }
  by rewrite (bind_prepend _ _ _ _ _ _ Htry).
Qed.

(** X10: on a reachable server with the target database, [info] changes
    one thing only: a ledger table that did not exist is created, empty,
    when the server lets the runner create it.  [info] then runs no
    script and inserts no row, prints the number of rows of the ledger
    and the names of the pending files, and closes the connection.  When
    the server refuses the table, [info] returns all the same, with
    nothing changed on the server and the connection left open. *)
Theorem info_only_creates_the_ledger_table r w db :
  reachable w = true → target w = Some db →
  let rows := default [] (ledger db) in
  (is_Some (ledger db) ∨ create_ok CreateTable (applied_sql db) = true →
   out (info r w) = Returned tt ∧
   final (info r w) = mkWorld true (Some (mkDatabase (Some rows) (applied_sql db))) None ∧
   Forall quiet (events (info r w)) ∧
   (NoDup (row_script <$> rows) →
    EInfo (length rows) (pending_names (migrations_dir r) rows) ∈ events (info r w))) ∧
  (ledger db = None → create_ok CreateTable (applied_sql db) = false →
   info r w = mkRun (Returned tt) (set_conn (Some empty_connection) w)
                [EConnect true; ERefused CreateTable]).
Proof.
  intros Hre Ht rows. split; [|by apply info_refused].
  intros Htable. rewrite (info_connected r w db Hre Ht Htable). cbn [out final events].
  fold rows. split; [done|]. split; [done|]. split.
  - rewrite Forall_app. split; [by repeat constructor|].
    rewrite Forall_app. split; [apply drift_warnings_quiet|by repeat constructor].
  - intros Hnd. rewrite <-(size_applied_dict rows Hnd), <-(filename_pending md5).
    rewrite !elem_of_app. right. right. by left.
Qed.

End InfoFacts.

(** * What a run records, and what a dry run shows *)

Section RecordFacts.
Variable md5 : string → string.
Variable create_ok : Creation → list string → bool.
Variable execute_ok : list string → string → bool.
Variable commit_ok : list string → list string → bool.

Local Arguments store_row : simpl never.
Local Arguments Template.render_sql_template : simpl never.
Local Arguments String.substring : simpl never.

Abbreviation apply_migration := (apply_migration execute_ok commit_ok).
Abbreviation migrate_loop := (migrate_loop execute_ok commit_ok).
Abbreviation run_callbacks := (run_callbacks execute_ok commit_ok).
Abbreviation run_after_migrate_scripts := (run_after_migrate_scripts execute_ok commit_ok).
Abbreviation initialize_schema_table := (initialize_schema_table create_ok commit_ok).
Abbreviation ensure_database_exists := (ensure_database_exists create_ok).
Abbreviation migrate := (migrate md5 create_ok execute_ok commit_ok).

(** A loop that runs to its end without [dry_run] has added one row with
    [success = true] for each migration of its list, in the order of the
    list. *)
Lemma migrate_loop_completes r ms n w rows k :
  ready w rows → Forall (λ m, Str.endswith (filename m) ".sql" = true) ms →
  out (migrate_loop r false ms n w) = Returned (inr k) →
  ∃ new,
    ready (final (migrate_loop r false ms n w)) (rows ++ new) ∧
    row_script <$> new = filename <$> ms ∧
    Forall (λ row, row_success row = true) new.
Proof.
  intros Hready Hsql. revert n w rows Hready.
  induction Hsql as [|m ms Hm _ IH]; intros n w rows Hready.
  { intros _. exists []. by rewrite app_nil_r. }
  destruct (apply_migration_ready execute_ok commit_ok r m false w rows Hready)
    as (rows1 & Hready1 & _ & Hrow).
  cbn [migrate_loop]. step_bind Ho; [|done].
  destruct a; simpl.
  - destruct (Hrow true eq_refl eq_refl) as (stored & Hstore & ->).
    intros Hout. destruct (IH _ _ _ Hready1 Hout) as (new & Hready' & Hnames & Hflags).
    apply store_row_inv in Hstore as (Hname & _ & Hflag). simpl in Hname, Hflag.
    apply (varchar_sql_name _ _ _ Hm) in Hname.
    exists (stored :: new). rewrite <-app_assoc in Hready'. split; [done|].
    split; [by rewrite !fmap_cons, Hname, Hnames|by constructor].
  - destruct (close_ret_spec (inl 1%Z : Z + nat) (final (apply_migration r m false w)))
      as (-> & _). done.
Qed.

(** X11: when [migrate] without [dry_run] returns 0, it has appended to the
    ledger one row with [success = true] for each pending file, in the
    order of the file names, and nothing else; every [.sql] file of the
    migrations directory is then recorded in the ledger. *)
Theorem successful_run_records_pending_in_order r w :
  out (migrate r false w) = Returned 0%Z →
  let rows := default [] (ledger_of w) in
  ∃ new,
    ledger_of (final (migrate r false w)) = Some (rows ++ new) ∧
    row_script <$> new = pending_names (migrations_dir r) rows ∧
    Forall (λ row, row_success row = true) new ∧
    ∀ name, name ∈ glob_sql (migrations_dir r) → name ∈ row_script <$> rows ++ new.
Proof.
  intros Hout rows.
  assert (set_up_ok create_ok r false w = true) as Hok.
  { destruct (set_up_ok create_ok r false w) eqn:Hok; [done|].
    destruct (migrate_fails_early md5 create_ok execute_ok commit_ok r false w Hok)
      as (x & Hx & _). congruence. }
  destruct (migrate_discovers md5 create_ok execute_ok commit_ok r false w Hok)
    as (pre & w3 & Hq & Hready & Heq).
  rewrite Heq in Hout |- *. clear Heq. fold rows in Hready, Hout |- *.
  rewrite <-(filename_pending md5 (migrations_dir r) rows).
  set (pending := filter _ _) in *.
  assert (Forall (λ m, Str.endswith (filename m) ".sql" = true) pending) as Hsql.
  { apply Forall_forall. intros m [(content & _ & Hsql & _) _]%(elem_of_pending md5). done. }
  unfold prepend in *. cbn [out final events] in *.
  assert (∃ new,
            ledger_of (final (migrate_rest execute_ok commit_ok r false
                                (bool_decide (target w = None)) pending w3)) =
              Some (rows ++ new) ∧
            row_script <$> new = filename <$> pending ∧
            Forall (λ row, row_success row = true) new) as (new & Hl & Hnames & Hflags).
  { destruct pending as [|m ms].
    { destruct (migrate_tail_ready execute_ok commit_ok r false
                  (bool_decide (target w = None)) w3 rows Hready) as (_ & Hl & _).
      exists []. by rewrite app_nil_r. }
    revert Hout. unfold migrate_rest. step_bind Ho; [|done].
    destruct a as [code|k].
    - unfold ret. cbn [out]. intros [= ->].
      by apply (migrate_loop_inl execute_ok commit_ok) in Ho as [? _].
    - intros _.
      destruct (migrate_loop_completes r (m :: ms) 0 w3 rows k Hready Hsql Ho)
        as (new & Hready' & Hnames & Hflags).
      assert (∃ b : bool, (if (0 <? k)%nat then run_after_migrate_scripts r false else ret tt) =
                          (if b then ret tt else run_after_migrate_scripts r false)) as [b ->].
      { destruct (0 <? k)%nat; [by exists false|by exists true]. }
      destruct (migrate_tail_ready execute_ok commit_ok r false b _ _ Hready')
        as (_ & Hl & _).
      by exists new. }
  exists new. split_and!; try done.
  intros name Hname. rewrite fmap_app, elem_of_app, Hnames.
  destruct (decide (name ∈ row_script <$> rows)) as [|Hfresh]; [by left|]. right.
  subst pending. rewrite (filename_pending md5). apply list_elem_of_filter. split; [done|].
  by apply elem_of_sorted.
Qed.


(** With [dry_run] the loop prints one preview per migration that can
    be read, and changes nothing. *)
Lemma migrate_loop_previews r ms n w :
  Forall (λ m, on_disk md5 (migrations_dir r) m ∧
               readable (migrations_dir r) (filename m)) ms →
  migrate_loop r true ms n w =
    mkRun (Returned (inr (n + length ms))) w (migration_preview r <$> (filename <$> ms)).
Proof.
  intros Hdisk. revert n. induction Hdisk as [|m ms Hm _ IH]; intros n.
  { simpl. by rewrite Nat.add_0_r. }
  destruct Hm as [(content & Hfile & _ & Hm) (content' & text & Hfile' & Htext)%readable_decode].
  rewrite Hfile in Hfile'. injection Hfile' as <-.
  assert (apply_migration r m true w =
          mkRun (Returned true) w [migration_preview r (filename m)]) as Happly.
  { unfold apply_migration, migration_preview.
    rewrite (rendered_text r _ _ _ _ Hfile Htext). rewrite Hm. simpl.
    unfold bind, read_text, emit, ret. by rewrite Hfile, Htext. }
  cbn [migrate_loop]. rewrite (bind_prepend _ _ _ _ _ _ Happly). cbn [negb].
  rewrite IH. unfold prepend. simpl. do 3 f_equal. lia.
Qed.

(** X12: a dry run on a reachable server whose database has the ledger
    table, with pending files and callback files that can be read as
    text, returns 0, prints a preview for every pending migration (the
    first 500 characters of the rendered text of each [.sql] file that
    the ledger does not record) and changes nothing: no event of the run
    writes to the database, and the run ends in the world it started
    from, with the connection closed. *)
Theorem dry_run_previews_every_pending_migration r w rows :
  reachable w = true → ledger_of w = Some rows →
  (∀ name, name ∈ pending_names (migrations_dir r) rows →
           readable (migrations_dir r) name) →
  callbacks_readable r →
  out (migrate r true w) = Returned 0%Z ∧
  final (migrate r true w) = set_conn None w ∧
  Forall (λ e, writes e = false) (events (migrate r true w)) ∧
  ∀ name, name ∈ pending_names (migrations_dir r) rows →
          migration_preview r name ∈ events (migrate r true w).
Proof.
  intros Hre Hl Hreadable Hcallbacks.
  destruct (dry_run_writes_nothing md5 create_ok execute_ok commit_ok r w)
    as [Hwrites Htarget].
  revert Hwrites Htarget.
  destruct (migrate_discovers md5 create_ok execute_ok commit_ok r true w)
    as (pre & w3 & Hq & Hready & ->).
  { apply set_up_ok_ledger; [done|]. rewrite Hl. by eexists. }
  rewrite Hl in Hready |- *. simpl in Hready |- *.
  revert Hreadable. rewrite <-(filename_pending md5 (migrations_dir r) rows).
  set (pending := filter _ _) in *. intros Hreadable.
  assert (Forall (λ m, on_disk md5 (migrations_dir r) m ∧
                       readable (migrations_dir r) (filename m)) pending) as Hdisk.
  { apply Forall_forall. intros m Hm. split.
    - by apply (elem_of_pending md5) in Hm as [? _].
    - apply Hreadable, list_elem_of_fmap. by exists m. }
  unfold prepend. cbn [out final events]. intros Hwrites Htarget.
  assert (∀ w' : World, reachable w' = true → conn w' = None →
            (∀ db, target w = Some db → target w' = Some db) → w' = set_conn None w) as Hsame.
  { intros [re tg c] Hre' Hc Ht. simpl in *. subst re c.
    destruct w as [re [db|] c]; simpl in *; [|done]. subst re.
    by rewrite (Ht db eq_refl). }
  assert (∀ (b : bool) w', ready w' rows →
            let T := ((if b then ret tt else run_after_migrate_scripts r true);;
                      close;; ret 0%Z)%run w' in
            out T = Returned 0%Z ∧ conn (final T) = None ∧ reachable (final T) = true)
    as Htail.
  { intros b w' Hready'.
    destruct (migrate_tail_ready execute_ok commit_ok r true b w' rows Hready')
      as (Hre' & _ & _ & Hout & Hret & _).
    cbv zeta. rewrite (Hret (or_intror Hcallbacks)) in Hout |- *.
    destruct Hout as [[_ ?]|[? _]]; done. }
  destruct pending as [|m ms] eqn:Hpending.
  { destruct (Htail (bool_decide (target w = None)) w3 Hready) as (Hout & Hc & Hre').
    split; [done|]. split; [by apply Hsame|]. split; [done|].
    by intros name ?%elem_of_nil. }
  revert Hwrites Htarget. unfold migrate_rest.
  rewrite (bind_prepend _ _ _ _ _ _ (migrate_loop_previews r (m :: ms) 0 w3 Hdisk)).
  assert (∃ b : bool, (if (0 <? 0 + length (m :: ms))%nat
                       then run_after_migrate_scripts r true else ret tt) =
                      (if b then ret tt else run_after_migrate_scripts r true)) as [b ->].
  { destruct (0 <? _)%nat; [by exists false|by exists true]. }
  destruct (Htail b w3 Hready) as (Hout & Hc & Hre').
  unfold prepend. cbn [out final events]. intros Hwrites Htarget.
  split; [done|]. split; [by apply Hsame|]. split; [done|].
  intros name Hname. rewrite !elem_of_app. right. left.
  apply list_elem_of_fmap. by exists name.
Qed.

(** The dictionary of a ledger with distinct scripts holds every row
    under its script. *)
Lemma applied_dict_lookup rows row :
  NoDup (row_script <$> rows) → row ∈ rows →
  applied_dict rows !! row_script row = Some row.
Proof.
  induction rows as [|row' rows IH] using rev_ind; [by intros _ ?%elem_of_nil|].
  rewrite fmap_app, NoDup_app, applied_dict_snoc. intros (Hnd & Hfresh & _).
  intros [Hin | ->%list_elem_of_singleton]%elem_of_app.
  - rewrite lookup_insert_ne; [by apply IH|].
    intros Heq. apply (Hfresh (row_script row)).
    + apply list_elem_of_fmap. by exists row.
    + rewrite <-Heq. by left.
  - by rewrite lookup_insert_eq.
Qed.

End RecordFacts.

(** X13: on a connection that can read the ledger, [get_applied_migrations]
    returns a dictionary that maps every script of the ledger to its row,
    and nothing else: the dictionary has as many entries as the ledger
    has rows.  The ledger is read, not changed. *)
Theorem get_applied_migrations_maps_scripts_to_rows w rows :
  ledger_view w = Some rows → NoDup (row_script <$> rows) →
  ∃ applied,
    get_applied_migrations w = mkRun (Returned applied) w [ESelectLedger true] ∧
    (∀ name row, applied !! name = Some row ↔ row ∈ rows ∧ row_script row = name) ∧
    size applied = length rows.
Proof.
  intros Hview Hnd. exists (applied_dict rows).
  split; [by apply get_applied_migrations_ok|]. split.
  - intros name row. split; [apply applied_dict_Some|].
    intros [Hin <-]. by apply applied_dict_lookup.
  - by apply size_applied_dict.
Qed.

(** * Checksum warnings, and what one migration commits *)

Section WarningFacts.
Variable md5 : string → string.

Lemma elem_of_drift_warnings applied all_migrations name stored current :
  EWarnChecksum name stored current ∈ drift_warnings applied all_migrations ↔
  ∃ m info, m ∈ all_migrations ∧ filename m = name ∧ applied !! name = Some info ∧
            row_checksum info = stored ∧ checksum m = current ∧ stored ≠ current.
Proof.
  unfold drift_warnings. rewrite list_elem_of_bind. split.
  - intros (m & Hin & Hm). exists m.
    destruct (applied !! filename m) as [info|] eqn:Hinfo; [|by apply elem_of_nil in Hin].
    destruct (decide (row_checksum info ≠ checksum m)) as [Hne|Heq].
    2: { rewrite bool_decide_false in Hin by done. by apply elem_of_nil in Hin. }
    rewrite bool_decide_true in Hin by done.
    apply list_elem_of_singleton in Hin. injection Hin as -> -> ->.
    exists info. by split_and!.
  - intros (m & info & Hm & <- & Hinfo & <- & <- & Hne). exists m. split; [|done].
    rewrite Hinfo, bool_decide_true by done. by left.
Qed.

(** X14: [get_pending_migrations] warns about a checksum exactly for the
    files on disk that the ledger records with another checksum: the
    warning names the file, the checksum of the ledger and the checksum
    of the file as it is now.  A file that is not recorded, or is recorded
    with the checksum it has, gets no warning. *)
Theorem checksum_warnings_are_the_drifted_files r w rows name stored current :
  ledger_view w = Some rows → NoDup (row_script <$> rows) →
  EWarnChecksum name stored current ∈ events (get_pending_migrations md5 r w) ↔
  ∃ content row,
    migrations_dir r !! name = Some content ∧ Str.endswith name ".sql" = true ∧
    row ∈ rows ∧ row_script row = name ∧
    row_checksum row = stored ∧ md5 content = current ∧ stored ≠ current.
Proof.
  intros Hview Hnd. rewrite (get_pending_migrations_ok md5 r w rows Hview). cbn [events].
  rewrite elem_of_cons, elem_of_drift_warnings. split.
  - intros [?|(m & info & Hm & Hname & Hinfo & Hstored & Hcurrent & Hne)]; [done|].
    apply elem_of_all_migrations in Hm as (content & Hfile & Hsql & Heq).
    apply applied_dict_Some in Hinfo as [Hin Hscript].
    exists content, info. rewrite Hname in *. split_and!; try done.
    rewrite <-Hcurrent, Heq. done.
  - intros (content & row & Hfile & Hsql & Hin & Hscript & Hstored & Hcurrent & Hne).
    right. exists (descriptor md5 name content), row. split_and!; try done.
    + apply elem_of_all_migrations. by exists content.
    + rewrite <-Hscript. by apply applied_dict_lookup.
Qed.

End WarningFacts.

Section CommitFacts.
Variable execute_ok : list string → string → bool.
Variable commit_ok : list string → list string → bool.

Local Arguments store_row : simpl never.
Local Arguments Template.render_sql_template : simpl never.
Local Arguments String.substring : simpl never.

Abbreviation apply_migration := (apply_migration execute_ok commit_ok).

(** X15: the database holds the script of a migration exactly when
    [apply_migration] says so, as long as the file can be read and the
    ledger takes the row.  From a connection with an empty transaction,
    [apply_migration] without [dry_run] raises [UnicodeDecodeError]
    before it sends anything when the file is no text; else it returns
    [True] with the rendered script committed, once, at the end of the
    history, or returns [False] with the history as it was, and leaves
    no open transaction.  If it raises then, the ledger refused the row:
    the script may be committed, and the ledger is as before. *)
Theorem apply_migration_commits_what_it_reports r m w rows content :
  ready w rows → migrations_dir r !! filepath m = Some content →
  let R := apply_migration r m false w in
  match Text.decode content with
  | None => R = mkRun (Raised UnicodeDecodeError) w []
  | Some text =>
      let sql := Template.render_sql_template (template_vars r) text in
      conn (final R) = Some empty_connection ∧
      match out R with
      | Returned true => history_of (final R) = history_of w ++ [sql]
      | Returned false => history_of (final R) = history_of w
      | Raised e =>
          e = Psycopg2Error ∧ store_row rows (ledger_row r m true) = None ∧
          ledger_of (final R) = Some rows ∧
          (history_of (final R) = history_of w ++ [sql] ∨
           history_of (final R) = history_of w)
      end
  end.
Proof.
  intros (Hre & Hc & Hl) Hfile R. subst R.
  destruct (Text.decode content) as [text|] eqn:Htext.
  2: { unfold apply_migration.
       by rewrite (bind_raised _ _ _ _ _ _
                     (read_text_undecodable _ _ _ w Hfile Htext)). }
  cbv zeta.
  destruct w as [re [[led hist]|] [[ss sr]|]];
    unfold ready, ledger_of, history_of, empty_connection in *; simpl in *;
    simplify_eq/=.
  unfold apply_migration, ledger_row. run_primitives.
  rewrite Hfile. simpl. rewrite Htext. simpl. rewrite !app_nil_r. split_cases.
  all: rewrite ?app_nil_r in *; try done.
  all: split; [done|]; try split_and!; auto.
  all: try (match goal with
            | H : store_row ?rows (mkRow ?a ?b ?c ?d true) = None,
              H' : store_row ?rows (mkRow ?a ?b ?c ?d false) = Some _ |- _ =>
                apply (store_row_success _ _ _ _ _ true false) in H; congruence
            end).
  all: match goal with
       | H : store_row ?rows (mkRow ?a ?b ?c ?d false) = None |- _ =>
           by apply (store_row_success _ _ _ _ _ false true)
       end.
Qed.

End CommitFacts.

(** * The ways out of a run *)

Section ExitFacts.
Context {A B : Type}.
Implicit Types (m : M A) (f : A → M B) (w : World).

Lemma no_exit_bind m f w :
  no_exit (m w) → (∀ a, out (m w) = Returned a → no_exit (f a (final (m w)))) →
  no_exit (bind m f w).
Proof.
  intros Hm Hf. destruct (out (m w)) as [a|e] eqn:Ho.
  - rewrite (bind_Returned _ _ _ _ Ho). intros code. simpl. by apply Hf.
  - rewrite (bind_Raised _ _ _ _ Ho). intros code. simpl. intros [= ->]. by apply (Hm code).
Qed.

Lemma no_exit_try_except (m handler : M A) w :
  no_exit (m w) → no_exit (handler (final (m w))) → no_exit (try_except m handler w).
Proof.
  intros Hm Hh. destruct (caught_or_passed m w) as [Ho|Ho].
  - rewrite (try_except_caught _ _ _ Ho). intros code. simpl. apply Hh.
  - by rewrite (try_except_passed _ _ _ Ho).
Qed.

(** [except Exception] lets a result and a [SystemExit] through and
    handles everything else. *)
Lemma try_except_Exception_Returned (m handler : M A) w a :
  out (m w) = Returned a → out (try_except_Exception m handler w) = Returned a.
Proof. unfold try_except_Exception. destruct (m w) as [o w' evs]. simpl. by intros ->. Qed.

Lemma try_except_Exception_exit (m handler : M A) w code :
  out (m w) = Raised (SystemExit code) →
  try_except_Exception m handler w = m w.
Proof. unfold try_except_Exception. destruct (m w) as [o w' evs]. simpl. by intros ->. Qed.


End ExitFacts.

Section EscapeFacts.
Variable md5 : string → string.
Variable create_ok : Creation → list string → bool.
Variable execute_ok : list string → string → bool.
Variable commit_ok : list string → list string → bool.

Local Arguments store_row : simpl never.
Local Arguments Template.render_sql_template : simpl never.
Local Arguments String.substring : simpl never.

Abbreviation apply_migration := (apply_migration execute_ok commit_ok).
Abbreviation migrate_loop := (migrate_loop execute_ok commit_ok).
Abbreviation run_callbacks := (run_callbacks execute_ok commit_ok).
Abbreviation run_after_migrate_scripts := (run_after_migrate_scripts execute_ok commit_ok).
Abbreviation initialize_schema_table := (initialize_schema_table create_ok commit_ok).
Abbreviation ensure_database_exists := (ensure_database_exists create_ok).
Abbreviation migrate := (migrate md5 create_ok execute_ok commit_ok).

Lemma apply_migration_no_exit r m dry w : no_exit (apply_migration r m dry w).
Proof.
  unfold no_exit, apply_migration.
  destruct w as [re [[led hist]|] [[ss sr]|]]; run_primitives.
  all: by split_cases.
Qed.

Lemma close_ret_no_exit {A} (x : A) w : no_exit ((close;; ret x)%run w).
Proof. unfold no_exit. run_primitives. by split_cases. Qed.

Lemma migrate_loop_no_exit r dry ms n w : no_exit (migrate_loop r dry ms n w).
Proof.
  revert n w. induction ms as [|m ms IH]; intros n w; [done|].
  cbn [migrate_loop]. apply no_exit_bind; [apply apply_migration_no_exit|].
  intros [] _; simpl; [apply IH|apply close_ret_no_exit].
Qed.

Lemma run_callbacks_no_exit r dir dry files w : no_exit (run_callbacks r dir dry files w).
Proof.
  revert w. induction files as [|f files IH]; intros w; [done|].
  cbn [run_callbacks]. apply no_exit_bind.
  { unfold no_exit. run_primitives. by split_cases. }
  intros content _. apply no_exit_bind; [|intros; apply IH].
  unfold no_exit.
  destruct (final (read_text dir f w)) as [re [[led hist]|] [[ss sr]|]]; run_primitives.
  all: by split_cases.
Qed.

Lemma migrate_tail_no_exit r dry (b : bool) w :
  no_exit (((if b then ret tt else run_after_migrate_scripts r dry);; close;; ret 0%Z)%run w).
Proof.
  apply no_exit_bind; [|intros; apply close_ret_no_exit].
  destruct b; [done|]. unfold run_after_migrate_scripts.
  destruct (after_migrate_dir r); [apply run_callbacks_no_exit|done].
Qed.

Lemma get_pending_migrations_no_exit r w : no_exit (get_pending_migrations md5 r w).
Proof.
  destruct (ledger_view w) as [rows|] eqn:Hview.
  - by rewrite (get_pending_migrations_ok md5 r w rows Hview).
  - assert (Forall (λ p, Str.endswith p ".sql" = true ∧ is_Some (migrations_dir r !! p))
              (sorted (glob_sql (migrations_dir r)))) as Hfiles.
    { apply Forall_forall. intros p Hp. rewrite elem_of_sorted in Hp.
      by apply elem_of_glob_sql. }
    unfold get_pending_migrations, bind. rewrite from_files_ok by done.
    unfold no_exit, get_applied_migrations.
    destruct w as [re [[led hist]|] [[ss sr]|]]; run_primitives.
    all: split_cases; try done; by rewrite filter_pending_spec.
Qed.

(** [migrate] ends in [sys.exit] only when [ensure_database_exists]
    cannot reach the server or may not create the database, with code
    1. *)
Lemma migrate_exit r dry w code :
  out (migrate r dry w) = Raised (SystemExit code) →
  code = 1%Z ∧
  (reachable w = false ∨
   reachable w = true ∧ target w = None ∧
   create_ok (CreateDatabase (database r)) [] = false).
Proof.
  unfold migrate. step_bind Ho1.
  2: { destruct (reachable w) eqn:Hre.
       - rewrite (ensure_database_exists_ok create_ok r w Hre) in Ho1.
         destruct (target w); [done|].
         destruct (create_ok (CreateDatabase (database r)) []); [done|].
         simpl in Ho1. injection Ho1 as <-. intros [= <-]. auto.
       - rewrite (ensure_database_exists_unreachable create_ok r w Hre) in Ho1. simpl in Ho1.
         injection Ho1 as <-. intros [= <-]. auto. }
  intros Hout. exfalso. revert Hout.
  match goal with |- out ?R = _ → False => cut (no_exit R); [intros H; apply H|] end.
  apply no_exit_bind.
  { unfold no_exit. run_primitives. by split_cases. }
  intros _ _. apply no_exit_bind.
  { destruct dry; [done|]. unfold no_exit, initialize_schema_table.
    destruct (final (connect (final (ensure_database_exists r w))))
      as [re [[led hist]|] [[ss sr]|]]; run_primitives.
    all: by split_cases. }
  intros _ _. apply no_exit_bind; [apply get_pending_migrations_no_exit|].
  intros [|m ms] _.
  - apply migrate_tail_no_exit.
  - apply no_exit_bind; [apply migrate_loop_no_exit|].
    intros [c|k] _; [done|].
    destruct (0 <? k)%nat; [apply (migrate_tail_no_exit r dry false)|
                            apply (migrate_tail_no_exit r dry true)].
Qed.


Lemma info_returns r w : out (info md5 create_ok commit_ok r w) = Returned tt.
Proof.
  destruct (reachable w) eqn:Hre.
  - destruct (target w) as [db|] eqn:Ht.
    + destruct (ledger db) as [rows|] eqn:Hl.
      * rewrite (info_connected md5 create_ok commit_ok r w db Hre Ht); [done|].
        left. rewrite Hl. by eexists.
      * destruct (create_ok CreateTable (applied_sql db)) eqn:Hct.
        -- rewrite (info_connected md5 create_ok commit_ok r w db Hre Ht); [done|by right].
        -- by rewrite (info_refused md5 create_ok commit_ok r w db Hre Ht Hl Hct).
    + by rewrite (info_not_connected md5 create_ok commit_ok r w (or_intror Ht)).
  - by rewrite (info_not_connected md5 create_ok commit_ok r w (or_introl Hre)).
Qed.

End EscapeFacts.

(** * Callbacks, and [sys.exit] *)

Section CallbackFacts.
Variable md5 : string → string.
Variable create_ok : Creation → list string → bool.
Variable execute_ok : list string → string → bool.
Variable commit_ok : list string → list string → bool.

Local Arguments store_row : simpl never.
Local Arguments Template.render_sql_template : simpl never.
Local Arguments String.substring : simpl never.

Abbreviation apply_migration := (apply_migration execute_ok commit_ok).
Abbreviation migrate_loop := (migrate_loop execute_ok commit_ok).
Abbreviation run_callbacks := (run_callbacks execute_ok commit_ok).
Abbreviation run_after_migrate_scripts := (run_after_migrate_scripts execute_ok commit_ok).
Abbreviation initialize_schema_table := (initialize_schema_table create_ok commit_ok).
Abbreviation ensure_database_exists := (ensure_database_exists create_ok).
Abbreviation migrate := (migrate md5 create_ok execute_ok commit_ok).

Lemma callbacks_run_app evs1 evs2 :
  callbacks_run (evs1 ++ evs2) = callbacks_run evs1 ++ callbacks_run evs2.
Proof. apply omap_app. Qed.

Lemma callbacks_run_none evs :
  Forall (λ e, ∀ name, script_of e = Some (KCallback, name) → is_execute e = false) evs →
  callbacks_run evs = [].
Proof.
  induction 1 as [|e evs He _ IH]; [done|].
  change (e :: evs) with ([e] ++ evs). rewrite callbacks_run_app, IH, app_nil_r.
  destruct e as [| | | | | | | |[] name| | | | | |]; try done.
  by specialize (He name eq_refl).
Qed.

Lemma callbacks_run_quiet evs : Forall quiet evs → callbacks_run evs = [].
Proof.
  intros Hq. apply callbacks_run_none. eapply Forall_impl; [done|]. simpl.
  unfold quiet. intros e Hn name He. congruence.
Qed.

Lemma readable_prefix_all (dir : Directory) files :
  (∀ f, f ∈ files → readable dir f) → readable_prefix dir files = files.
Proof.
  induction files as [|f files IH]; [done|]. intros Hall. simpl.
  rewrite decide_True by (apply Hall; by left). f_equal. apply IH.
  intros f' Hf'. apply Hall. by right.
Qed.

(** From a ready world the callback loop executes the files of its list
    in the order of the list, up to the first that cannot be read; with
    [dry_run] it executes none. *)
Lemma run_callbacks_run r dir dry files w rows :
  ready w rows → (∀ f, f ∈ files → is_Some (dir !! f)) →
  callbacks_run (events (run_callbacks r dir dry files w)) =
    if dry then [] else readable_prefix dir files.
Proof.
  revert w. induction files as [|f files IH]; intros w Hready Hfiles.
  { by destruct dry. }
  destruct (Hfiles f) as [content Hcontent]; [by left|].
  rewrite (run_callbacks_cons execute_ok commit_ok).
  destruct (Text.decode content) as [text|] eqn:Htext.
  2: { rewrite (bind_raised _ _ _ _ _ _ (read_text_undecodable dir f content w Hcontent Htext)).
       cbn [events readable_prefix].
       rewrite decide_False by (by eapply not_readable). by destruct dry. }
  rewrite (bind_prepend _ _ _ _ _ _ (read_text_ok dir f content text w Hcontent Htext)).
  destruct (callback_body_ready execute_ok commit_ok dry f
              (Template.render_sql_template (template_vars r) text) w rows Hready)
    as (w' & evs & Hbody & Hready' & Hevs).
  rewrite (bind_prepend _ _ _ _ _ _ Hbody).
  unfold prepend. cbn [events app readable_prefix]. rewrite callbacks_run_app, (IH w' Hready').
  2: { intros f' Hf'. apply Hfiles. by right. }
  rewrite decide_True by (apply readable_decode; eauto).
  by destruct Hevs as [[-> ->] | [-> [-> | [-> | ->]]]].
Qed.

Lemma migrate_tail_run r dry (b : bool) w rows :
  ready w rows →
  let T := ((if b then ret tt else run_after_migrate_scripts r dry);; close;; ret 0%Z) w in
  callbacks_run (events T) = [] ∨
  ∃ dir, after_migrate_dir r = Some dir ∧ dry = false ∧
         callbacks_run (events T) = readable_prefix dir (sorted (glob_sql dir)).
Proof.
  intros Hready T. subst T.
  assert (callbacks_run (events ((if b then ret tt else run_after_migrate_scripts r dry) w))
            = [] ∨
          ∃ dir, after_migrate_dir r = Some dir ∧ dry = false ∧
                 callbacks_run
                   (events ((if b then ret tt else run_after_migrate_scripts r dry) w)) =
                   readable_prefix dir (sorted (glob_sql dir))) as Hevs.
  { destruct b; [by left|].
    unfold run_after_migrate_scripts. destruct (after_migrate_dir r) as [dir|]; [|by left].
    rewrite (run_callbacks_run r dir dry _ w rows Hready).
    2: { intros f Hf. rewrite elem_of_sorted in Hf. by apply elem_of_glob_sql in Hf as [_ ?]. }
    destruct dry; [by left|]. right. by exists dir. }
  step_bind Ho; [|done].
  rewrite callbacks_run_app.
  rewrite (callbacks_run_quiet (events ((close;; ret 0%Z)%run _)))
    by apply close_ret_events.
  by rewrite app_nil_r.
Qed.

(** X16: in a run of [migrate] the callback scripts are executed in the
    byte-wise order of their file names, each at most once and without
    a gap: the log shows either no callback execution, or, without
    [dry_run], the [.sql] files of the callback directory up to the
    first that cannot be read as text, which is all of them when all can
    be read. *)
Theorem callbacks_run_in_name_order r dry w :
  callbacks_run (events (migrate r dry w)) = [] ∨
  ∃ dir, after_migrate_dir r = Some dir ∧ dry = false ∧
         callbacks_run (events (migrate r dry w)) =
           readable_prefix dir (sorted (glob_sql dir)) ∧
         (callbacks_readable r →
          callbacks_run (events (migrate r dry w)) = sorted (glob_sql dir)).
Proof.
  assert (callbacks_run (events (migrate r dry w)) = [] ∨
          ∃ dir, after_migrate_dir r = Some dir ∧ dry = false ∧
                 callbacks_run (events (migrate r dry w)) =
                   readable_prefix dir (sorted (glob_sql dir))) as Hrun.
  { destruct (set_up_ok create_ok r dry w) eqn:Hok.
    2: { left.
         destruct (migrate_fails_early md5 create_ok execute_ok commit_ok r dry w Hok)
           as (e & _ & Hq).
         by apply callbacks_run_quiet. }
    destruct (migrate_discovers md5 create_ok execute_ok commit_ok r dry w Hok)
      as (pre & w3 & Hq & Hready & ->).
    set (rows := default [] (ledger_of w)) in *.
    set (pending := filter _ _) in *.
    unfold prepend. cbn [events].
    rewrite callbacks_run_app, (callbacks_run_quiet (pre ++ _)), app_nil_l.
    2: { apply Forall_app. split; [done|]. constructor; [done|].
         apply drift_warnings_quiet. }
    destruct pending as [|m ms].
    { apply (migrate_tail_run r dry _ w3 rows Hready). }
    assert (callbacks_run (events (migrate_loop r dry (m :: ms) 0 w3)) = []) as Hloop.
    { apply callbacks_run_none. eapply Forall_impl; [apply migrate_loop_events|]. simpl.
      intros e [-> | (m' & _ & Hs)] name Hname; [done|congruence]. }
    destruct (migrate_loop_ready execute_ok commit_ok r dry (m :: ms) 0 w3 rows Hready)
      as (rows' & _ & _ & _ & Hend).
    unfold migrate_rest. step_bind Ho; [|by left].
    rewrite callbacks_run_app, Hloop, app_nil_l.
    destruct a as [code|k]; [by left|].
    destruct (Hend k eq_refl) as [Hready' _].
    assert (∃ b : bool, (if (0 <? k)%nat then run_after_migrate_scripts r dry else ret tt) =
                        (if b then ret tt else run_after_migrate_scripts r dry)) as [b ->].
    { destruct (0 <? k)%nat; [by exists false|by exists true]. }
    apply (migrate_tail_run r dry b _ rows' Hready'). }
  destruct Hrun as [?|(dir & Hdir & Hdry & Heq)]; [by left|right].
  exists dir. split_and!; try done.
  intros Hread. rewrite Heq. apply readable_prefix_all.
  intros f Hf. apply (Hread dir f Hdir). by rewrite elem_of_sorted in Hf.
Qed.

(** X17: [migrate] ends in [sys.exit] exactly when
    [ensure_database_exists] fails: the server cannot be reached, or the
    target database is missing and the server does not let the runner
    create it.  The exit status is 1, nothing is changed and no
    connection to the target database is made.  Every other failure
    surfaces as an exit code or as an exception. *)
Theorem migrate_exits_when_the_database_cannot_be_ensured r dry w :
  (reachable w = false →
   migrate r dry w = mkRun (Raised (SystemExit 1)) w [EAdminConnect false]) ∧
  (reachable w = true → target w = None →
   create_ok (CreateDatabase (database r)) [] = false →
   migrate r dry w =
     mkRun (Raised (SystemExit 1)) w
       [EAdminConnect true; ERefused (CreateDatabase (database r))]) ∧
  (∀ code, out (migrate r dry w) = Raised (SystemExit code) →
           code = 1%Z ∧
           (reachable w = false ∨
            target w = None ∧ create_ok (CreateDatabase (database r)) [] = false)).
Proof.
  split_and!.
  - intros Hre. unfold migrate.
    by rewrite (bind_raised _ _ _ _ _ _ (ensure_database_exists_unreachable create_ok r w Hre)).
  - intros Hre Ht Hno. unfold migrate.
    rewrite (bind_raised _ _ w (SystemExit 1) w
               [EAdminConnect true; ERefused (CreateDatabase (database r))]); [done|].
    rewrite (ensure_database_exists_ok create_ok r w Hre). by rewrite Ht, Hno.
  - intros code Hout.
    apply (migrate_exit md5 create_ok execute_ok commit_ok) in Hout as [-> Hcase].
    split; [done|]. destruct Hcase as [?|(_ & ? & ?)]; auto.
Qed.

End CallbackFacts.

(** * Seed scripts *)

Section SeedFacts.
Variable execute_ok : list string → string → bool.
Variable commit_ok : list string → list string → bool.

Local Arguments Template.render_sql_template : simpl never.
Local Arguments String.substring : simpl never.

Abbreviation seed_loop := (seed_loop execute_ok commit_ok).
Abbreviation seed := (seed execute_ok commit_ok).
Abbreviation seed_try := (seed_try execute_ok commit_ok).

Lemma seed_loop_cons r dir dry f files :
  seed_loop r dir dry (f :: files) =
    (content <- read_text dir f ;;
     let sql := Template.render_sql_template (template_vars r) content in
     if dry then
       emit (EPreview KCallback f (Text.take 500 sql)) ;;
       seed_loop r dir dry files
     else
       cursor ;;
       failed <- seed_try f sql ;;
       if failed then ret (Some 1%Z) else seed_loop r dir dry files).
Proof. reflexivity. Qed.

(** One seed script on an open connection with an empty transaction. *)
Lemma seed_try_clean f sql re led hist :
  let w := mkWorld re (Some (mkDatabase led hist)) (Some empty_connection) in
  seed_try f sql w =
    if execute_ok hist sql then
      if commit_ok hist [sql] then
        mkRun (Returned false)
          (mkWorld re (Some (mkDatabase led (hist ++ [sql]))) (Some empty_connection))
          [EExecute KCallback f sql true; ECommit (SiteScript KCallback f) true]
      else
        mkRun (Returned true) (mkWorld re (Some (mkDatabase led hist)) None)
          [EExecute KCallback f sql true; ECommit (SiteScript KCallback f) false;
           ERollback (SiteScript KCallback f); EScriptFailed KCallback f; EClose]
    else
      mkRun (Returned true) (mkWorld re (Some (mkDatabase led hist)) None)
        [EExecute KCallback f sql false; ERollback (SiteScript KCallback f);
         EScriptFailed KCallback f; EClose].
Proof.
  intros w. subst w. unfold seed_try. run_primitives. rewrite !app_nil_r.
  destruct (execute_ok hist sql); simpl; [|done].
  destruct (commit_ok hist [sql]); simpl; [|done].
  destruct led; simpl; by rewrite ?app_nil_r.
Qed.

(** The loop of [seed] without [dry_run], on an open connection with an
    empty transaction: the scripts [done] are executed and committed one
    after the other; then the loop runs to its end, or the script after
    [done] fails, is rolled back, and the loop leaves with exit code 1 and
    the connection closed, or the file after [done] cannot be read and
    the loop raises, with the connection open. *)
Lemma seed_loop_clean r dir files w :
  clean w → (∀ f, f ∈ files → is_Some (dir !! f)) →
  let R := seed_loop r dir false files w in
  ∃ done rest tail,
    files = done ++ rest ∧
    events R = (done ≫= seeded_events r dir) ++ tail ∧
    history_of (final R) = history_of w ++ (rendered r dir <$> done) ∧
    ledger_of (final R) = ledger_of w ∧
    reachable (final R) = reachable w ∧
    (rest = [] ∧ tail = [] ∧ out R = Returned None ∧ clean (final R) ∨
     (∃ f rest', rest = f :: rest' ∧ seed_failure f (rendered r dir f) tail ∧
                 out R = Returned (Some 1%Z) ∧ conn (final R) = None) ∨
     (∃ f rest', rest = f :: rest' ∧ ¬ readable dir f ∧ tail = [] ∧
                 out R = Raised UnicodeDecodeError ∧ clean (final R))).
Proof.
  revert w. induction files as [|f files IH]; intros w Hclean Hfiles R; subst R.
  { exists [], [], []. simpl. rewrite app_nil_r. split_and!; try done. by left. }
  destruct (Hfiles f) as [content Hcontent]; [by left|].
  rewrite seed_loop_cons.
  destruct (Text.decode content) as [text|] eqn:Htext.
  2: { rewrite (bind_raised _ _ _ _ _ _ (read_text_undecodable dir f content w Hcontent Htext)).
       exists [], (f :: files), []. cbn [out final events app mbind list_bind fmap list_fmap].
       rewrite app_nil_r. split_and!; try done.
       right. right. exists f, files. split_and!; try done. by eapply not_readable. }
  rewrite (bind_prepend _ _ _ _ _ _ (read_text_ok dir f content text w Hcontent Htext)).
  cbv zeta.
  destruct w as [re [[led hist]|] [c|]]; destruct Hclean as [Hc Ht];
    simpl in Hc, Ht; try done; try (by destruct Ht).
  injection Hc as ->.
  assert (cursor (mkWorld re (Some (mkDatabase led hist)) (Some empty_connection)) =
          mkRun (Returned tt) (mkWorld re (Some (mkDatabase led hist)) (Some empty_connection)) [])
    as Hcursor by done.
  rewrite (bind_prepend _ _ _ _ _ _ Hcursor).
  rewrite <-(rendered_text r dir f content text Hcontent Htext).
  pose proof (seed_try_clean f (rendered r dir f) re led hist) as Htry. cbv zeta in Htry.
  destruct (execute_ok hist (rendered r dir f)) eqn:Hexec.
  2: { rewrite (bind_prepend _ _ _ _ _ _ Htry). exists [], (f :: files). eexists.
       unfold prepend, ret. cbn [out final events app mbind list_bind].
       split; [done|]. split; [reflexivity|].
       split_and!; try done; try (by rewrite app_nil_r).
       right. left. exists f, files. split_and!; try done. by left. }
  destruct (commit_ok hist [rendered r dir f]) eqn:Hcommit.
  2: { rewrite (bind_prepend _ _ _ _ _ _ Htry). exists [], (f :: files). eexists.
       unfold prepend, ret. cbn [out final events app mbind list_bind].
       split; [done|]. split; [reflexivity|].
       split_and!; try done; try (by rewrite app_nil_r).
       right. left. exists f, files. split_and!; try done. by right. }
  rewrite (bind_prepend _ _ _ _ _ _ Htry).
  set (w' := mkWorld re (Some (mkDatabase led (hist ++ [rendered r dir f])))
               (Some empty_connection)).
  destruct (IH w') as (done & rest & tail & Hfiles' & Hev & Hhist & Hl & Hre & Hend).
  { split; [done|by eexists]. }
  { intros f' Hf'. apply Hfiles. by right. }
  exists (f :: done), rest, tail.
  unfold prepend. cbn [out final events app mbind list_bind].
  rewrite Hev, Hhist, Hl, Hre. subst files.
  split_and!; try done.
  - unfold history_of. simpl. by rewrite <-app_assoc.
Qed.

(** With [dry_run] the loop prints one preview per file, up to the first
    file that cannot be read, and changes nothing. *)
Lemma seed_loop_dry r dir files w :
  (∀ f, f ∈ files → is_Some (dir !! f)) →
  let R := seed_loop r dir true files w in
  final R = w ∧
  events R = seed_preview r dir <$> readable_prefix dir files ∧
  ((∀ f, f ∈ files → readable dir f) ∧ out R = Returned None ∨
   (∃ f, f ∈ files ∧ ¬ readable dir f) ∧ out R = Raised UnicodeDecodeError).
Proof.
  induction files as [|f files IH]; intros Hfiles R; subst R.
  { simpl. split_and!; try done. left. split; [|done]. by intros f ?%elem_of_nil. }
  destruct (Hfiles f) as [content Hcontent]; [by left|].
  rewrite seed_loop_cons. cbn [readable_prefix].
  destruct (Text.decode content) as [text|] eqn:Htext.
  2: { rewrite (bind_raised _ _ _ _ _ _ (read_text_undecodable dir f content w Hcontent Htext)).
       rewrite decide_False by (by eapply not_readable).
       cbn [out final events]. split_and!; try done.
       right. split; [|done]. exists f. split; [by left|by eapply not_readable]. }
  rewrite (bind_prepend _ _ _ _ _ _ (read_text_ok dir f content text w Hcontent Htext)).
  cbv zeta. rewrite decide_True by (apply readable_decode; eauto).
  destruct IH as (Hfin & Hev & Hout).
  { intros f' Hf'. apply Hfiles. by right. }
  assert (emit (EPreview KCallback f
                  (Text.take 500 (Template.render_sql_template (template_vars r) text))) w =
          mkRun (Returned tt) w
            [EPreview KCallback f
               (Text.take 500 (Template.render_sql_template (template_vars r) text))])
    as Hemit by done.
  rewrite (bind_prepend _ _ _ _ _ _ Hemit).
  destruct (seed_loop r dir true files w) as [o w' evs]. simpl in *. subst w' evs.
  unfold prepend, seed_preview. cbn [out final events app fmap list_fmap].
  rewrite (rendered_text r dir f content text Hcontent Htext).
  split_and!; try done.
  destruct Hout as [[Hall ->]|[(f' & Hf' & Hno) ->]]; [left|right]; (split; [|done]).
  - intros f' [->|Hf']%elem_of_cons; [apply readable_decode; eauto|by apply Hall].
  - exists f'. split; [by right|done].
Qed.

Lemma seed_connect_ok w db :
  reachable w = true → target w = Some db →
  try_except (connect ;; ret true) (ret false) w =
    mkRun (Returned true) (set_conn (Some empty_connection) w) [EConnect true].
Proof. intros Hre Ht. unfold try_except, bind, connect, ret. by rewrite Hre, Ht. Qed.

Lemma seed_connect_fails w :
  reachable w = false ∨ target w = None →
  try_except (connect ;; ret true) (ret false) w = mkRun (Returned false) w [EConnect false].
Proof.
  intros Hcase. unfold try_except, bind, connect, ret.
  destruct Hcase as [-> | ->]; [done|]. by rewrite andb_false_r.
Qed.

Lemma glob_sql_listed (dir : Directory) f :
  f ∈ sorted (glob_sql dir) → is_Some (dir !! f).
Proof. rewrite elem_of_sorted. by intros [_ ?]%elem_of_glob_sql. Qed.

(** The runs of [seed], case by case: no directory; no connection; a dry
    run of files that can all be read; a dry run that stops at a file
    that cannot be read; a run without [dry_run]. *)
Lemma seed_cases r seeds_dir dry w :
  let R := seed r seeds_dir dry w in
  (seeds_dir = None ∧ R = mkRun (Returned 1%Z) w []) ∨
  (is_Some seeds_dir ∧ (reachable w = false ∨ target w = None) ∧
   R = mkRun (Returned 1%Z) w [EConnect false]) ∨
  (∃ dir, seeds_dir = Some dir ∧ reachable w = true ∧ is_Some (target w) ∧ dry = true ∧
          (∀ f, f ∈ glob_sql dir → readable dir f) ∧
          R = mkRun (Returned 0%Z) (set_conn None w)
                (EConnect true :: (seed_preview r dir <$> sorted (glob_sql dir)) ++ [EClose])) ∨
  (∃ dir f, seeds_dir = Some dir ∧ reachable w = true ∧ is_Some (target w) ∧ dry = true ∧
            f ∈ glob_sql dir ∧ ¬ readable dir f ∧
            R = mkRun (Raised UnicodeDecodeError) (set_conn (Some empty_connection) w)
                  (EConnect true ::
                   (seed_preview r dir <$> readable_prefix dir (sorted (glob_sql dir))))) ∨
  (∃ dir done rest tail,
     seeds_dir = Some dir ∧ reachable w = true ∧ is_Some (target w) ∧ dry = false ∧
     sorted (glob_sql dir) = done ++ rest ∧
     events R = EConnect true :: (done ≫= seeded_events r dir) ++ tail ∧
     history_of (final R) = history_of w ++ (rendered r dir <$> done) ∧
     ledger_of (final R) = ledger_of w ∧
     reachable (final R) = true ∧
     (rest = [] ∧ tail = [EClose] ∧ out R = Returned 0%Z ∧ conn (final R) = None ∨
      (∃ f rest', rest = f :: rest' ∧ seed_failure f (rendered r dir f) tail ∧
                  out R = Returned 1%Z ∧ conn (final R) = None) ∨
      (∃ f rest', rest = f :: rest' ∧ ¬ readable dir f ∧ tail = [] ∧
                  out R = Raised UnicodeDecodeError ∧
                  conn (final R) = Some empty_connection))).
Proof.
  intros R. subst R. unfold seed.
  destruct seeds_dir as [dir|]; [|by left]. right.
  destruct (reachable w) eqn:Hre.
  2: { left. rewrite (bind_prepend _ _ _ _ _ _ (seed_connect_fails w (or_introl Hre))).
       split; [by eexists|]. split; [by left|done]. }
  destruct (target w) as [db|] eqn:Ht.
  2: { left. rewrite (bind_prepend _ _ _ _ _ _ (seed_connect_fails w (or_intror Ht))).
       split; [by eexists|]. split; [by right|done]. }
  right. rewrite (bind_prepend _ _ _ _ _ _ (seed_connect_ok w db Hre Ht)). cbn [negb].
  set (w1 := set_conn (Some empty_connection) w).
  assert (clean w1) as Hclean.
  { split; [done|]. simpl. rewrite Ht. by eexists. }
  pose proof (glob_sql_listed dir) as Hfiles.
  destruct dry.
  - destruct (sorted (glob_sql dir)) as [|f files] eqn:Hsorted.
    + left. exists dir. split_and!; try done.
      * intros f Hf. apply elem_of_sorted in Hf. rewrite Hsorted in Hf.
        by apply elem_of_nil in Hf.
      * rewrite Hsorted. by destruct w.
    + cbn beta iota.
      destruct (seed_loop_dry r dir (f :: files) w1 Hfiles) as (Hfin & Hev & Hout).
      remember (seed_loop r dir true (f :: files) w1) as R eqn:Hloop.
      destruct R as [o w2 evs]. symmetry in Hloop. cbn [out final events] in Hfin, Hev, Hout.
      subst w2 evs.
      destruct Hout as [[Hall ->]|[(g & Hg & Hno) ->]].
      * left. exists dir. split_and!; try done.
        { intros g Hg. apply Hall. rewrite <-Hsorted. by apply elem_of_sorted. }
        rewrite (bind_prepend _ _ _ _ _ _ Hloop), Hsorted.
        rewrite (readable_prefix_all dir (f :: files) Hall).
        by destruct w.
      * right. left. exists dir, g. split_and!; try done.
        { apply elem_of_sorted. by rewrite Hsorted. }
        by rewrite (bind_raised _ _ _ _ _ _ Hloop), Hsorted.
  - right. right. exists dir.
    destruct (sorted (glob_sql dir)) as [|f files] eqn:Hsorted.
    + exists [], [], [EClose]. unfold history_of, ledger_of.
      destruct w; simpl in *; subst. rewrite app_nil_r.
      split_and!; try done; try (by eexists). by left.
    + cbn beta iota.
      destruct (seed_loop_clean r dir (f :: files) w1 Hclean Hfiles)
        as (done & rest & tail & Hsplit & Hev & Hhist & Hl & Hre' & Hend).
      destruct Hend as [(-> & -> & Hout & Hc & _) |
                        [(g & rest' & -> & Htail & Hout & Hc) |
                         (g & rest' & -> & Hno & -> & Hout & Hc & _)]].
      * exists done, [], [EClose].
        remember (seed_loop r dir false (f :: files) w1) as R eqn:Hloop.
        destruct R as [o w2 evs]. symmetry in Hloop.
        simpl in *. subst o.
        rewrite (bind_prepend _ _ _ _ _ _ Hloop).
        unfold bind, prepend, close, ret. rewrite Hc. simpl.
        rewrite Hev, app_nil_r. unfold history_of, ledger_of in *. simpl in *.
        rewrite app_nil_r in Hsplit. rewrite ?app_nil_r.
        split_and!; try done; try (by eexists); try congruence. by left.
      * exists done, (g :: rest'), tail.
        remember (seed_loop r dir false (f :: files) w1) as R eqn:Hloop.
        destruct R as [o w2 evs]. symmetry in Hloop.
        simpl in *. subst o.
        rewrite (bind_prepend _ _ _ _ _ _ Hloop).
        unfold prepend, ret. simpl.
        rewrite Hev, app_nil_r. unfold history_of, ledger_of in *. simpl in *.
        rewrite ?app_nil_r.
        split_and!; try done; try (by eexists); try congruence.
        right. left. by exists g, rest'.
      * exists done, (g :: rest'), [].
        remember (seed_loop r dir false (f :: files) w1) as R eqn:Hloop.
        destruct R as [o w2 evs]. symmetry in Hloop.
        simpl in *. subst o.
        rewrite (bind_raised _ _ _ _ _ _ Hloop). simpl.
        rewrite Hev. unfold history_of, ledger_of in *. simpl in *.
        split_and!; try done; try (by eexists); try congruence.
        right. right. by exists g, rest'.
Qed.

Lemma elem_of_seeded_events r dir done e :
  e ∈ done ≫= seeded_events r dir →
  is_failure e = false ∧ ∃ f, f ∈ done ∧ script_of e = Some (KCallback, f).
Proof.
  intros (f & He & Hf)%list_elem_of_bind. unfold seeded_events in He.
  rewrite !elem_of_cons, elem_of_nil in He.
  destruct He as [-> | [-> | []]]; (split; [done|]); by exists f.
Qed.

Lemma seed_failure_events f sql tail e :
  seed_failure f sql tail → e ∈ tail →
  e = EClose ∨ script_of e = Some (KCallback, f).
Proof.
  intros [-> | ->] He; rewrite !elem_of_cons, elem_of_nil in He;
    repeat (destruct He as [-> | He]; [auto|]); done.
Qed.

Lemma seed_failure_window f sql tail pre :
  seed_failure f sql tail →
  window [ERollback (SiteScript KCallback f); EScriptFailed KCallback f; EClose]
    (pre ++ tail).
Proof.
  intros [-> | ->]; apply window_app_r.
  - by exists [EExecute KCallback f sql false], [].
  - by exists [EExecute KCallback f sql true; ECommit (SiteScript KCallback f) false], [].
Qed.

Lemma text_take_length n s : Text.length (Text.take n s) ≤ n.
Proof.
  revert n. induction s as [|c s IH]; intros n; [simpl; lia|].
  unfold Text.take. fold Text.take. destruct (Text.continuation c) eqn:Hc.
  - simpl. rewrite Hc. specialize (IH n). lia.
  - destruct n as [|n]; simpl; [lia|]. rewrite Hc. specialize (IH n). lia.
Qed.

(** X18: [seed] gives up with exit code 1, and without a trace on the
    server, when it has no seeds directory or cannot connect: the server
    is unreachable or the target database does not exist.  Unlike
    [migrate] it does not create the database. *)
Theorem seed_gives_up_without_directory_or_database r seeds_dir dry w :
  seeds_dir = None ∨ reachable w = false ∨ target w = None →
  out (seed r seeds_dir dry w) = Returned 1%Z ∧
  final (seed r seeds_dir dry w) = w ∧
  Forall (λ e, e = EConnect false) (events (seed r seeds_dir dry w)).
Proof.
  intros Hcase.
  destruct (seed_cases r seeds_dir dry w)
    as [[_ ->] | [(_ & _ & ->) | [(dir & Hdir & Hre & Ht & _) |
         [(dir & ? & Hdir & Hre & Ht & _) |
          (dir & ? & ? & ? & Hdir & Hre & Ht & _)]]]].
  - by repeat constructor.
  - by repeat constructor.
  - destruct Hcase as [?|[?|Hnone]]; [congruence..|]. rewrite Hnone in Ht. by destruct Ht.
  - destruct Hcase as [?|[?|Hnone]]; [congruence..|]. rewrite Hnone in Ht. by destruct Ht.
  - destruct Hcase as [?|[?|Hnone]]; [congruence..|]. rewrite Hnone in Ht. by destruct Ht.
Qed.

(** X19: with [dry_run] and seed files that can all be read as text,
    [seed] connects, prints one preview of at most 500 characters for
    every [.sql] file of the seeds directory, in the order of the file
    names, closes the connection and returns 0; the database is as
    before. *)
Theorem seed_dry_run_only_previews r dir w :
  reachable w = true → is_Some (target w) →
  (∀ f, f ∈ glob_sql dir → readable dir f) →
  out (seed r (Some dir) true w) = Returned 0%Z ∧
  final (seed r (Some dir) true w) = set_conn None w ∧
  events (seed r (Some dir) true w) =
    EConnect true :: (seed_preview r dir <$> sorted (glob_sql dir)) ++ [EClose] ∧
  ∀ f, f ∈ sorted (glob_sql dir) →
       ∃ sql, seed_preview r dir f = EPreview KCallback f sql ∧ Text.length sql ≤ 500.
Proof.
  intros Hre Ht Hread.
  destruct (seed_cases r (Some dir) true w)
    as [[? _] | [(_ & Hcase & _) | [(dir' & Hdir & _ & _ & _ & _ & ->) |
         [(dir' & f & Hdir & _ & _ & _ & Hf & Hno & _) |
          (? & ? & ? & ? & _ & _ & _ & ? & _)]]]];
    try congruence;
    try (destruct Hcase as [?|Hnone]; [congruence|]; rewrite Hnone in Ht; by destruct Ht).
  - injection Hdir as <-. split_and!; try done.
    intros f _. eexists. split; [done|]. apply text_take_length.
  - injection Hdir as <-. destruct Hno. by apply Hread.
Qed.

(** X20: when a seed script fails (its [execute] or the commit after it
    raises), [seed] rolls it back, reports it, closes the connection and
    returns 1; no seed script that is ordered after it is run. *)
Theorem seed_stops_at_first_failure r seeds_dir dry w b :
  execution_failed (events (seed r seeds_dir dry w)) KCallback b →
  out (seed r seeds_dir dry w) = Returned 1%Z ∧
  conn (final (seed r seeds_dir dry w)) = None ∧
  window [ERollback (SiteScript KCallback b); EScriptFailed KCallback b; EClose]
    (events (seed r seeds_dir dry w)) ∧
  ∀ c, Str.lt b c → ¬ executed (events (seed r seeds_dir dry w)) KCallback c.
Proof.
  intros (e & He & Hfail & Hs)%execution_failed_Exists%Exists_exists.
  destruct (seed_cases r seeds_dir dry w)
    as [[_ Heq] | [(_ & _ & Heq) | [(dir & _ & _ & _ & _ & _ & Heq) |
         [(dir & f & _ & _ & _ & _ & _ & _ & Heq) |
          (dir & done & rest & tail & _ & _ & _ & _ & Hsplit & Hev & _ & _ & _ & Hend)]]]].
  - rewrite Heq in He. by apply elem_of_nil in He.
  - rewrite Heq in He. by apply list_elem_of_singleton in He as ->.
  - rewrite Heq in He. simpl in He.
    apply elem_of_cons in He as [-> | He]; [done|].
    apply elem_of_app in He as [(f & -> & _)%list_elem_of_fmap | ->%list_elem_of_singleton];
      done.
  - rewrite Heq in He. simpl in He.
    apply elem_of_cons in He as [-> | He]; [done|].
    by apply list_elem_of_fmap in He as (g & -> & _).
  - rewrite Hev in He |- *.
    apply elem_of_cons in He as [-> | He]; [done|].
    apply elem_of_app in He as [He | He].
    { apply elem_of_seeded_events in He as [? _]. congruence. }
    destruct Hend as [(_ & -> & _) | [(f & rest' & -> & Htail & Hout & Hc) |
                                      (f & rest' & _ & _ & -> & _)]].
    { by apply list_elem_of_singleton in He as ->. }
    2: { by apply elem_of_nil in He. }
    destruct (seed_failure_events _ _ _ _ Htail He) as [-> | Hf]; [done|].
    assert (f = b) as -> by congruence.
    split; [done|]. split; [done|]. split.
    { exact (seed_failure_window _ _ _ (EConnect true :: _) Htail). }
    intros c Hlt (sql & ok & Hin).
    assert (StronglySorted Str.lt (done ++ b :: rest')) as Hsorted.
    { rewrite <-Hsplit. apply sorted_strict, NoDup_glob_sql. }
    apply elem_of_cons in Hin as [? | Hin]; [done|].
    apply elem_of_app in Hin as [Hin | Hin].
    + apply elem_of_seeded_events in Hin as (_ & g & Hg & Hs').
      simpl in Hs'. injection Hs' as ->.
      apply (lt_asym b g); [done|].
      apply (StronglySorted_app_1_elem_of _ _ _ _ _ Hsorted); [done|by left].
    + destruct (seed_failure_events _ _ _ _ Htail Hin) as [? | Hs']; [done|].
      simpl in Hs'. injection Hs' as ->. by apply (lt_irrefl b).
Qed.

(** X21: without [dry_run], on a server where the target database exists,
    [seed] executes the [.sql] files of the seeds directory in the order
    of their names, each rendered and committed in a transaction of its
    own, so what went through before it stops stays committed.  It
    returns 0 when every script went through; it returns 1 at the first
    script that fails; both times the connection is closed.  At the
    first file that cannot be read as text it raises
    [UnicodeDecodeError] and leaves the connection open.  It never
    writes the ledger. *)
Theorem seed_commits_scripts_in_order r dir w :
  reachable w = true → is_Some (target w) →
  let R := seed r (Some dir) false w in
  ∃ done rest,
    sorted (glob_sql dir) = done ++ rest ∧
    history_of (final R) = history_of w ++ (rendered r dir <$> done) ∧
    ledger_of (final R) = ledger_of w ∧
    (out R = Returned 0%Z ∧ conn (final R) = None ∧ rest = [] ∨
     out R = Returned 1%Z ∧ conn (final R) = None ∧
     (∃ f rest', rest = f :: rest' ∧ execution_failed (events R) KCallback f) ∨
     out R = Raised UnicodeDecodeError ∧ conn (final R) = Some empty_connection ∧
     (∃ f rest', rest = f :: rest' ∧ ¬ readable dir f)).
Proof.
  intros Hre Ht R. subst R.
  destruct (seed_cases r (Some dir) false w)
    as [[? _] | [(_ & Hcase & _) | [(? & _ & _ & _ & ? & _) |
         [(? & ? & _ & _ & _ & ? & _) |
          (dir' & done & rest & tail & Hdir & _ & _ & _ & Hsplit & Hev & Hhist & Hl & _ & Hend)]]]];
    try congruence;
    try (destruct Hcase as [?|Hnone]; [congruence|]; rewrite Hnone in Ht; by destruct Ht).
  injection Hdir as <-. exists done, rest. split_and!; try done.
  destruct Hend as [(-> & _ & Hout & Hc) | [(f & rest' & -> & Htail & Hout & Hc) |
                                            (f & rest' & -> & Hno & _ & Hout & Hc)]].
  - by left.
  - right. left. split; [done|]. split; [done|]. exists f, rest'. split; [done|].
    rewrite Hev. destruct Htail as [-> | ->].
    + left. exists (rendered r dir f). apply elem_of_cons. right. apply elem_of_app. right.
      by left.
    + right. apply elem_of_cons. right. apply elem_of_app. right. right. by left.
  - right. right. split; [done|]. split; [done|]. by exists f, rest'.
Qed.

(** X22: [seed] returns exit code 0 or 1 whether or not [connect], an
    [execute] or a commit raises: no error of the server escapes, and a
    runner that starts without a connection ends without one.  The one
    exception that leaves [seed] is the [UnicodeDecodeError] of a seed
    file that cannot be read as text, and then the connection stays
    open.  The ledger is as before in every case. *)
Theorem seed_raises_only_at_an_unreadable_file r seeds_dir dry w :
  let R := seed r seeds_dir dry w in
  ledger_of (final R) = ledger_of w ∧
  ((∃ code, out R = Returned code ∧ (code = 0%Z ∨ code = 1%Z) ∧
            (conn w = None → conn (final R) = None)) ∨
   out R = Raised UnicodeDecodeError ∧ conn (final R) = Some empty_connection ∧
   ∃ dir f, seeds_dir = Some dir ∧ f ∈ glob_sql dir ∧ ¬ readable dir f) ∧
  ((∀ dir f, seeds_dir = Some dir → f ∈ glob_sql dir → readable dir f) →
   ∃ code, out R = Returned code).
Proof.
  intros R. subst R.
  destruct (seed_cases r seeds_dir dry w)
    as [[_ ->] | [(_ & _ & ->) | [(dir & _ & _ & _ & _ & _ & ->) |
         [(dir & f & Hdir & _ & _ & _ & Hf & Hno & ->) |
          (dir & done & rest & tail & Hdir & _ & _ & _ & Hsplit & _ & _ & Hl & _ & Hend)]]]].
  - split; [done|]. split; [|by eexists]. left. exists 1%Z. auto.
  - split; [done|]. split; [|by eexists]. left. exists 1%Z. auto.
  - split; [done|]. split; [|by eexists]. left. exists 0%Z. auto.
  - split; [done|]. split.
    + right. split; [done|]. split; [done|]. by exists dir, f.
    + intros Hall. destruct Hno. by apply (Hall dir).
  - split; [done|].
    destruct Hend as [(_ & _ & Hout & Hc) | [(f & rest' & _ & _ & Hout & Hc) |
                                             (f & rest' & -> & Hno & _ & Hout & Hc)]].
    + split; [|by eexists]. left. exists 0%Z. auto.
    + split; [|by eexists]. left. exists 1%Z. auto.
    + assert (f ∈ glob_sql dir) as Hf.
      { apply elem_of_sorted. rewrite Hsplit, elem_of_app. right. by left. }
      split.
      * right. split; [done|]. split; [done|]. by exists dir, f.
      * intros Hall. destruct Hno. by apply (Hall dir).
Qed.

End SeedFacts.

(** * [main] *)

Section MainFacts.
Variable md5 : string → string.
Variable create_ok : Creation → list string → bool.
Variable execute_ok : list string → string → bool.
Variable commit_ok : list string → list string → bool.

Local Arguments store_row : simpl never.
Local Arguments Template.render_sql_template : simpl never.
Local Arguments String.substring : simpl never.

Abbreviation apply_migration := (apply_migration execute_ok commit_ok).
Abbreviation migrate_loop := (migrate_loop execute_ok commit_ok).
Abbreviation run_callbacks := (run_callbacks execute_ok commit_ok).
Abbreviation run_after_migrate_scripts := (run_after_migrate_scripts execute_ok commit_ok).
Abbreviation initialize_schema_table := (initialize_schema_table create_ok commit_ok).
Abbreviation ensure_database_exists := (ensure_database_exists create_ok).
Abbreviation migrate := (migrate md5 create_ok execute_ok commit_ok).
Abbreviation seed := (seed execute_ok commit_ok).
Abbreviation main := (main md5 create_ok execute_ok commit_ok).




(** The runner that [main] builds from complete arguments. *)
Lemma main_complete args environ w :
  complete args →
  ∃ dir,
    arg_migrations_dir args = Some dir ∧
    let runner := mkRunner (default "" (arg_database args)) (default "" (arg_user args))
                    dir (arg_after_migrate_dir args) environ in
    main args environ w =
      try_except_Exception
        match arg_command args with
        | CmdMigrate =>
            code <- migrate runner (arg_dry_run args) ;;
            sys_exit code
        | CmdSeed =>
            code <- seed runner (arg_seeds_dir args) (arg_dry_run args) ;;
            sys_exit code
        | CmdInfo =>
            info md5 create_ok commit_ok runner ;;
            sys_exit 0
        end
        (sys_exit 1) (set_conn None w).
Proof.
  intros (Hdb & Huser & Hpw & dir & Hdir). exists dir. split; [done|].
  unfold main. rewrite Hdb, Huser, Hpw, Hdir.
  unfold bind at 1, new_runner.
  by destruct (try_except_Exception _ _ _).
Qed.



(** X24: [main] checks its arguments before it touches the server: without
    a database name, a user or a password (not given, or empty), or when
    the migrations directory does not exist, it exits with status 1, and
    no call is made on the server. *)
Theorem main_checks_arguments_before_connecting args environ w :
  falsy (arg_database args) = true ∨ falsy (arg_user args) = true ∨
  falsy (arg_password args) = true ∨ arg_migrations_dir args = None →
  main args environ w = mkRun (Raised (SystemExit 1)) w [].
Proof.
  intros Hcase. unfold main.
  destruct (falsy (arg_database args)); [done|].
  destruct (falsy (arg_user args)); [done|].
  destruct (falsy (arg_password args)); [done|].
  destruct (arg_migrations_dir args); [|done].
  by destruct Hcase as [?|[?|[?|?]]].
Qed.

(** X25: with complete arguments the [info] command exits with status 0,
    whether or not the server can be reached and the target database
    exists.  When it cannot connect, [info] reports that and returns;
    [main] exits with 0 all the same, and nothing is created on the
    server. *)
Theorem main_info_exits_with_0 args environ w :
  complete args → arg_command args = CmdInfo →
  out (main args environ w) = Raised (SystemExit 0) ∧
  (reachable w = false ∨ target w = None →
   events (main args environ w) = [EConnect false] ∧
   final (main args environ w) = set_conn None w).
Proof.
  intros Hargs Hinfo.
  destruct (main_complete args environ w Hargs) as (dir & _ & ->). rewrite Hinfo.
  set (runner := mkRunner _ _ _ _ _).
  pose proof (info_returns md5 create_ok commit_ok runner (set_conn None w)) as Hout.
  rewrite (try_except_Exception_exit _ _ _ 0%Z) by (by rewrite (bind_Returned _ _ _ _ Hout)).
  rewrite (bind_Returned _ _ _ _ Hout). cbn [out final events].
  split; [done|]. intros Hcase.
  rewrite (info_not_connected md5 create_ok commit_ok runner (set_conn None w)) by done.
  by rewrite app_nil_r.
Qed.

End MainFacts.

(** * The claims on the small installation *)

Section Examples.
Import Fixture.

Ltac find_event :=
  vm_compute; repeat first [by apply list_elem_of_here | apply list_elem_of_further].

(** C1, as the specification words it, fails: the ledger holds
    [v1_a.sql] with another checksum, so the file is among the migrations
    on disk minus the ledger entries with a matching checksum, and yet
    [get_pending_migrations] leaves it out. *)
Lemma pending_by_checksum_counterexample :
  pending_by_checksum toy_md5 migrations [old_row]
    (descriptor toy_md5 "v1_a.sql" "CREATE a ${X}") ∧
  ∃ pending,
    out (get_pending_migrations toy_md5 runner connected) = Returned pending ∧
    descriptor toy_md5 "v1_a.sql" "CREATE a ${X}" ∉ pending.
Proof.
  split.
  - split.
    + exists "CREATE a ${X}". by vm_compute.
    + intros (row & Hrow & _ & Hsum). apply list_elem_of_singleton in Hrow as ->.
      vm_compute in Hsum. discriminate.
  - eexists. split; [by vm_compute|].
    intros Hin. repeat (apply elem_of_cons in Hin as [Heq|Hin]; [discriminate|]).
    by apply elem_of_nil in Hin.
Qed.

Lemma pending_witness :
  ∃ pending,
    out (get_pending_migrations toy_md5 runner connected) = Returned pending ∧
    final (get_pending_migrations toy_md5 runner connected) = connected ∧
    (∀ m, m ∈ pending ↔
          on_disk toy_md5 (migrations_dir runner) m ∧
          filename m ∉ row_script <$> [old_row]) ∧
    StronglySorted by_filename pending.
Proof.
  apply (pending_is_unrecorded_files_in_name_order toy_md5 runner connected [old_row]).
  reflexivity.
Defined.

Lemma halts_witness :
  ¬ executed (events (migrate runner false fresh_server)) KMigration "v3_c.sql".
Proof.
  apply (migrate_halts_at_first_failure toy_md5 toy_create_ok toy_execute_ok toy_commit_ok
           runner false fresh_server "v2_b.sql" "v3_c.sql").
  - split; [by vm_compute|discriminate].
  - left. exists "FAIL b". find_event.
Defined.

Lemma drift_witness :
  EWarnChecksum "v1_a.sql" (row_checksum old_row) (toy_md5 "CREATE a ${X}")
    ∈ events (migrate runner false drifted) ∧
  (∀ w', ledger_view w' = Some [old_row] →
         ∃ pending, out (get_pending_migrations toy_md5 runner w') = Returned pending ∧
                    "v1_a.sql" ∉ filename <$> pending) ∧
  Forall (λ e, script_of e ≠ Some (KMigration, "v1_a.sql"))
    (events (migrate runner false drifted)) ∧
  ∃ rows', ledger_of (final (migrate runner false drifted)) = Some rows' ∧
           rows_of "v1_a.sql" rows' = rows_of "v1_a.sql" [old_row].
Proof.
  apply (drifted_migration_is_flagged_and_skipped toy_md5 toy_create_ok toy_execute_ok toy_commit_ok
           runner false drifted [old_row] "v1_a.sql" "CREATE a ${X}" old_row).
  - reflexivity.
  - reflexivity.
  - by vm_compute.
  - reflexivity.
  - by vm_compute.
  - vm_compute. discriminate.
Defined.

(** C6, as stated, fails: the first run stops at [v2_b.sql] with exit
    code 1, and the second run of the same files applies [v3_c.sql] and
    adds its row to the ledger. *)
Lemma second_run_counterexample :
  out (migrate runner false fresh_server) = Returned 1%Z ∧
  executed (events (migrate runner false (final (migrate runner false fresh_server))))
    KMigration "v3_c.sql" ∧
  ledger_of (final (migrate runner false (final (migrate runner false fresh_server)))) ≠
    ledger_of (final (migrate runner false fresh_server)).
Proof.
  split; [by vm_compute|]. split.
  - exists "CREATE c", true. find_event.
  - vm_compute. discriminate.
Qed.

(** After a first run that returned 0 the second need not return: with
    no migration file on a fresh server the first run skips the
    callbacks, the second reads them. *)
Example second_run_reads_the_callbacks :
  let r := mkRunner "db" "alice" ∅ (Some broken_callbacks) ∅ in
  out (migrate r false fresh_server) = Returned 0%Z ∧
  out (migrate r false (final (migrate r false fresh_server))) =
    Raised UnicodeDecodeError ∧
  ledger_of (final (migrate r false (final (migrate r false fresh_server)))) =
    ledger_of (final (migrate r false fresh_server)).
Proof. split_and!; by vm_compute. Qed.

Lemma second_run_witness :
  ledger_of (final (migrate good_runner false
                      (final (migrate good_runner false fresh_server)))) =
    ledger_of (final (migrate good_runner false fresh_server)) ∧
  Forall (λ e, ∀ name, script_of e ≠ Some (KMigration, name))
    (events (migrate good_runner false (final (migrate good_runner false fresh_server)))).
Proof.
  apply (second_run_applies_nothing toy_md5 toy_create_ok toy_execute_ok toy_commit_ok
           good_runner fresh_server).
  by vm_compute.
Defined.

(** C8, as stated, fails: the first callback fails, is rolled back and
    reported; the second cannot be read as text, so [open] raises
    outside the [try]: the script is never executed and [migrate] does
    not return. *)
Lemma unreadable_callback_counterexample :
  execution_failed (events (migrate broken_runner false fresh_server)) KCallback "cb1.sql" ∧
  "cb2.sql" ∈ glob_sql broken_callbacks ∧
  ¬ executed (events (migrate broken_runner false fresh_server)) KCallback "cb2.sql" ∧
  out (migrate broken_runner false fresh_server) = Raised UnicodeDecodeError.
Proof.
  split; [left; exists "FAIL cb"; find_event|]. split; [find_event|]. split; [|by vm_compute].
  intros (sql & ok & Hin). vm_compute in Hin.
  repeat (apply elem_of_cons in Hin as [Heq|Hin]; [discriminate|]).
  by apply elem_of_nil in Hin.
Qed.

Lemma good_callbacks_readable : callbacks_readable good_runner.
Proof. intros dir f [= <-]. apply all_readable. by vm_compute. Defined.

Lemma callback_witness :
  window [ERollback (SiteScript KCallback "cb1.sql"); EScriptFailed KCallback "cb1.sql"]
    (events (migrate good_runner false fresh_server)) ∧
  (∀ dir f, after_migrate_dir good_runner = Some dir → f ∈ glob_sql dir →
            executed (events (migrate good_runner false fresh_server)) KCallback f) ∧
  out (migrate good_runner false fresh_server) = Returned 0%Z.
Proof.
  destruct (failing_callback_is_isolated toy_md5 toy_create_ok toy_execute_ok toy_commit_ok
              good_runner false fresh_server "cb1.sql") as [Hwin Hrest].
  { left. exists "FAIL cb". find_event. }
  split; [exact Hwin|]. apply Hrest, good_callbacks_readable.
Defined.

(** C9, as stated, fails: a dry run on a database without the ledger
    table opens the connection, raises in [get_applied_migrations] and
    ends with the connection still open. *)
Lemma connection_left_open_counterexample :
  EConnect true ∈ events (migrate runner true bare_database) ∧
  out (migrate runner true bare_database) = Raised Psycopg2Error ∧
  conn (final (migrate runner true bare_database)) = Some empty_connection ∧
  EClose ∉ events (migrate runner true bare_database).
Proof.
  split; [find_event|]. split; [by vm_compute|]. split; [by vm_compute|].
  vm_compute. intros Hin.
  repeat (apply elem_of_cons in Hin as [Heq|Hin]; [discriminate|]).
  by apply elem_of_nil in Hin.
Qed.

Lemma connection_closed_witness :
  conn (final (migrate runner false fresh_server)) = None.
Proof.
  apply (migrate_returns_with_connection_closed toy_md5 toy_create_ok toy_execute_ok toy_commit_ok
           runner false fresh_server 1%Z).
  by vm_compute.
Defined.

Lemma success_row_witness :
  ∃ sql,
    window [EExecute KMigration "v1_a.sql" sql true;
            ECommit (SiteScript KMigration "v1_a.sql") true;
            EInsert (mkRow "v1_a.sql" "v1 a" (toy_md5 "CREATE a ${X}") "alice" true) true;
            ECommit (SiteLedger "v1_a.sql") true]
      (events (migrate runner false fresh_server)).
Proof.
  apply (success_row_follows_script_commit toy_md5 toy_create_ok toy_execute_ok toy_commit_ok
           runner false fresh_server
           (mkRow "v1_a.sql" "v1 a" (toy_md5 "CREATE a ${X}") "alice" true)).
  - find_event.
  - reflexivity.
Defined.

(** C2 fails on the code: with [dry_run] set and no target database on
    the server, [migrate] creates the database (and then raises, the
    ledger table being absent). *)
Theorem dry_run_creates_database :
  target fresh_server = None ∧
  ECreateDatabase "db" ∈ events (migrate runner true fresh_server) ∧
  target (final (migrate runner true fresh_server)) = Some empty_database ∧
  out (migrate runner true fresh_server) = Raised Psycopg2Error.
Proof.
  split; [done|]. split; [find_event|]. split; by vm_compute.
Qed.

(** C4 fails on the code: the description of a file whose stem has 201
    characters does not fit [VARCHAR(200)].  Its script is executed and
    committed, the insert of the [success = true] row is rejected, the
    handler rolls back and its insert of the [success = false] row is
    rejected too: the exception leaves [migrate] and the ledger has no
    row for the migration. *)
Theorem long_name_migration_is_not_recorded :
  events (migrate long_runner false fresh_server) =
    [EAdminConnect true; ECreateDatabase "db"; EConnect true;
     ECreateTable; ECommit SiteSchema true; ESelectLedger true;
     EExecute KMigration long_name "CREATE t" true;
     ECommit (SiteScript KMigration long_name) true;
     EInsert (ledger_row long_runner (descriptor toy_md5 long_name "CREATE t") true) false;
     ERollback (SiteScript KMigration long_name);
     EInsert (ledger_row long_runner (descriptor toy_md5 long_name "CREATE t") false) false] ∧
  out (migrate long_runner false fresh_server) = Raised Psycopg2Error ∧
  target (final (migrate long_runner false fresh_server)) =
    Some (mkDatabase (Some []) ["CREATE t"]).
Proof. split; [by vm_compute|]. split; by vm_compute. Qed.

(** The scenario of two migrations on a fresh server: both are applied in
    the order of their names and recorded with [success = true]; after a
    second run [info] reports two applied and none pending. *)
Example two_migrations_first_run :
  out (migrate good_runner false fresh_server) = Returned 0%Z ∧
  ledger_of (final (migrate good_runner false fresh_server)) =
    Some [mkRow "v1_create_table.sql" "v1 create table" (toy_md5 "CREATE t") "alice" true;
          mkRow "v2_add_column.sql" "v2 add column" (toy_md5 "ALTER t") "alice" true].
Proof. split; by vm_compute. Qed.

Example two_migrations_info :
  EInfo 2 [] ∈
    events (info toy_md5 toy_create_ok toy_commit_ok good_runner
              (final (migrate good_runner false
                        (final (migrate good_runner false fresh_server))))).
Proof. find_event. Qed.

Example stem_examples :
  Str.stem "v0.1.0_users.sql" = "v0.1.0_users" ∧ Str.stem ".sql" = ".sql" ∧
  Str.endswith "notes.txt" ".sql" = false ∧ Str.endswith ".sql" ".sql" = true.
Proof. by vm_compute. Qed.

Example varchar_examples :
  varchar 3 "abc" = Some "abc" ∧ varchar 3 "abcd" = None ∧ varchar 3 "abc  " = Some "abc".
Proof. by vm_compute. Qed.

(** Reading in text mode: a carriage return and line feed become one
    line feed; the two bytes of a letter with an accent are one
    character, for [len], for a slice and for [VARCHAR]; a byte that is
    no UTF-8 cannot be read, nor can a character cut short. *)
Example text_examples :
  let cr := "013"%char in
  let lf := "010"%char in
  let e_acute := String "195" (String "169" "") in
  Text.decode (String "a" (String cr (String lf (String "b" (String cr ""))))) =
    Some (String "a" (String lf (String "b" (String lf "")))) ∧
  Text.decode (e_acute +:+ "t" +:+ e_acute) = Some (e_acute +:+ "t" +:+ e_acute) ∧
  Text.length (e_acute +:+ "t" +:+ e_acute) = 3 ∧
  Text.take 2 (e_acute +:+ "t" +:+ e_acute) = e_acute +:+ "t" ∧
  varchar 3 (e_acute +:+ "t" +:+ e_acute) = Some (e_acute +:+ "t" +:+ e_acute) ∧
  Text.decode not_text = None ∧
  Text.decode (String "195" "") = None.
Proof. by vm_compute. Qed.

(** One file, two readings: [from_file] takes the checksum of the bytes,
    [apply_migration] executes the text. *)
Example bytes_and_text :
  let crlf := String "013" (String "010" "") in
  let lf := String "010" "" in
  let dir : Directory := {[ "v1.sql" := "CREATE t" +:+ crlf ]} in
  let r := mkRunner "db" "alice" dir None ∅ in
  out (from_file toy_md5 dir "v1.sql" connected) =
    Returned (descriptor toy_md5 "v1.sql" ("CREATE t" +:+ crlf)) ∧
  EExecute KMigration "v1.sql" ("CREATE t" +:+ lf) true
    ∈ events (migrate r false fresh_server).
Proof. split; [by vm_compute|find_event]. Qed.

Example sorted_glob_example :
  sorted (glob_sql migrations) = ["v1_a.sql"; "v2_b.sql"; "v3_c.sql"].
Proof. by vm_compute. Qed.

End Examples.

(** * The further properties on the small installation *)

Section MoreExamples.
Import Fixture.

Abbreviation seed := (seed toy_execute_ok toy_commit_ok).
Abbreviation info := (info toy_md5 toy_create_ok toy_commit_ok).
Abbreviation main := (main toy_md5 toy_create_ok toy_execute_ok toy_commit_ok).

Ltac find_event :=
  vm_compute; repeat first [by apply list_elem_of_here | apply list_elem_of_further].

Lemma from_file_witness :
  ∃ m,
    from_file toy_md5 migrations ("v1_a" +:+ ".sql") fresh_server =
      mkRun (Returned m) fresh_server [] ∧
    filename m = "v1_a" +:+ ".sql" ∧ filepath m = filename m ∧
    checksum m = toy_md5 "CREATE a ${X}" ∧
    description m = Str.replace_char "_" " " "v1_a" ∧
    String.length (description m) + 4 = String.length (filename m) ∧
    ∀ i, String.get i (description m) ≠ Some "_"%char.
Proof.
  apply (from_file_describes_a_sql_file toy_md5 migrations "v1_a" "CREATE a ${X}"
           fresh_server).
  - discriminate.
  - by vm_compute.
Defined.

Lemma get_applied_migrations_witness :
  ∃ applied,
    get_applied_migrations connected = mkRun (Returned applied) connected [ESelectLedger true] ∧
    (∀ name row, applied !! name = Some row ↔ row ∈ [old_row] ∧ row_script row = name) ∧
    size applied = length [old_row].
Proof.
  apply (get_applied_migrations_maps_scripts_to_rows connected [old_row]).
  - reflexivity.
  - apply NoDup_singleton.
Defined.

Lemma exit_code_witness :
  (1 = 0 ∨ 1 = 1)%Z ∧
  (1%Z = 1%Z ↔ ∃ name, execution_failed (events (migrate runner false fresh_server))
                         KMigration name).
Proof.
  apply (migrate_returns_1_exactly_after_a_failure toy_md5 toy_create_ok toy_execute_ok toy_commit_ok
           runner false fresh_server 1%Z).
  by vm_compute.
Defined.

Lemma successful_run_witness :
  ∃ new,
    ledger_of (final (migrate good_runner false fresh_server)) =
      Some (default [] (ledger_of fresh_server) ++ new) ∧
    row_script <$> new =
      pending_names (migrations_dir good_runner) (default [] (ledger_of fresh_server)) ∧
    Forall (λ row, row_success row = true) new ∧
    ∀ name, name ∈ glob_sql (migrations_dir good_runner) →
            name ∈ row_script <$> default [] (ledger_of fresh_server) ++ new.
Proof.
  apply (successful_run_records_pending_in_order toy_md5 toy_create_ok toy_execute_ok toy_commit_ok
           good_runner fresh_server).
  by vm_compute.
Defined.

Lemma recorded_script_witness :
  Forall (λ e, script_of e ≠ Some (KMigration, "v1_a.sql"))
    (events (migrate runner false drifted)).
Proof.
  apply (recorded_script_is_never_run toy_md5 toy_create_ok toy_execute_ok toy_commit_ok
           runner false drifted [old_row] "v1_a.sql").
  - reflexivity.
  - apply list_elem_of_here.
Defined.

Lemma failed_migration_witness :
  (∃ rows row,
     ledger_of (final (migrate runner false fresh_server)) = Some (rows ++ [row]) ∧
     row_script row = "v2_b.sql" ∧ row_success row = false) ∧
  ∀ dry, Forall (λ e, script_of e ≠ Some (KMigration, "v2_b.sql"))
           (events (migrate runner dry (final (migrate runner false fresh_server)))).
Proof.
  apply (failed_migration_is_not_retried toy_md5 toy_create_ok toy_execute_ok toy_commit_ok
           runner fresh_server "v2_b.sql").
  - by vm_compute.
  - left. exists "FAIL b". find_event.
Defined.

Lemma ledger_append_witness :
  ∃ rows', ledger_of (final (migrate runner false drifted)) = Some rows' ∧
           [old_row] `prefix_of` rows' ∧
           (NoDup (row_script <$> [old_row]) → NoDup (row_script <$> rows')).
Proof.
  apply (migrate_only_appends_to_the_ledger toy_md5 toy_create_ok toy_execute_ok toy_commit_ok
           runner false drifted [old_row]).
  reflexivity.
Defined.

Lemma no_callback_witness :
  Forall (λ e, ¬ callback_event e) (events (migrate runner false fresh_server)) ∧
  out (migrate runner false fresh_server) ≠ Returned 0%Z.
Proof.
  apply (no_callback_after_a_failed_migration toy_md5 toy_create_ok toy_execute_ok toy_commit_ok
           runner false fresh_server "v2_b.sql").
  left. exists "FAIL b". find_event.
Defined.

Lemma nothing_pending_witness :
  let w := final (migrate good_runner false fresh_server) in
  (∀ rows, ledger_of w = Some rows →
     ledger_of (final (migrate good_runner false w)) = Some rows ∧
     (callbacks_readable good_runner →
      out (migrate good_runner false w) = Returned 0%Z ∧
      ∀ dir f, after_migrate_dir good_runner = Some dir → f ∈ glob_sql dir →
               executed (events (migrate good_runner false w)) KCallback f)) ∧
  (target w = None → Forall quiet (events (migrate good_runner false w))).
Proof.
  apply (callbacks_when_nothing_is_pending toy_md5 toy_create_ok toy_execute_ok toy_commit_ok
           good_runner (final (migrate good_runner false fresh_server))).
  - by vm_compute.
  - intros m (content & Hfile & Hsql & _).
    assert (filename m ∈ glob_sql good_migrations) as Hin.
    { apply elem_of_glob_sql. split; [done|by eexists]. }
    replace (glob_sql good_migrations)
      with ["v1_create_table.sql"; "v2_add_column.sql"] in Hin by (by vm_compute).
    replace (row_script <$> default [] (ledger_of (final (migrate good_runner false
                                                           fresh_server))))
      with ["v1_create_table.sql"; "v2_add_column.sql"] by (by vm_compute).
    done.
Defined.

Lemma dry_run_witness :
  out (migrate runner true drifted) = Returned 0%Z ∧
  final (migrate runner true drifted) = set_conn None drifted ∧
  Forall (λ e, writes e = false) (events (migrate runner true drifted)) ∧
  ∀ name, name ∈ pending_names (migrations_dir runner) [old_row] →
          migration_preview runner name ∈ events (migrate runner true drifted).
Proof.
  apply (dry_run_previews_every_pending_migration toy_md5 toy_create_ok toy_execute_ok
           toy_commit_ok runner drifted [old_row]).
  - reflexivity.
  - reflexivity.
  - intros name Hname.
    replace (pending_names (migrations_dir runner) [old_row])
      with ["v2_b.sql"; "v3_c.sql"] in Hname by (by vm_compute).
    repeat (apply elem_of_cons in Hname as [->|Hname]; [eexists; by vm_compute|]).
    by apply elem_of_nil in Hname.
  - intros dir f [= <-]. apply all_readable. by vm_compute.
Defined.

Lemma info_witness :
  (is_Some (ledger empty_database) ∨
   toy_create_ok CreateTable (applied_sql empty_database) = true →
   out (info runner bare_database) = Returned tt ∧
   final (info runner bare_database) =
     mkWorld true (Some (mkDatabase (Some (default [] (ledger empty_database)))
                           (applied_sql empty_database))) None ∧
   Forall quiet (events (info runner bare_database)) ∧
   (NoDup (row_script <$> default [] (ledger empty_database)) →
    EInfo (length (default [] (ledger empty_database)))
      (pending_names (migrations_dir runner) (default [] (ledger empty_database)))
      ∈ events (info runner bare_database))) ∧
  (ledger empty_database = None →
   toy_create_ok CreateTable (applied_sql empty_database) = false →
   info runner bare_database =
     mkRun (Returned tt) (set_conn (Some empty_connection) bare_database)
       [EConnect true; ERefused CreateTable]).
Proof.
  apply (info_only_creates_the_ledger_table toy_md5 toy_create_ok toy_commit_ok runner
           bare_database empty_database); reflexivity.
Defined.

(** A server that does not let the runner create anything: [info]
    returns with the connection open; [migrate] exits with status 1 when
    the database is missing, and raises when the table is. *)
Example refused_creations :
  strict_info runner bare_database =
    mkRun (Returned tt) (set_conn (Some empty_connection) bare_database)
      [EConnect true; ERefused CreateTable] ∧
  strict_migrate runner false fresh_server =
    mkRun (Raised (SystemExit 1)) fresh_server
      [EAdminConnect true; ERefused (CreateDatabase "db")] ∧
  strict_migrate runner false bare_database =
    mkRun (Raised Psycopg2Error) (set_conn (Some empty_connection) bare_database)
      [EAdminConnect true; EConnect true; ERefused CreateTable].
Proof. split_and!; by vm_compute. Qed.

Lemma checksum_warning_witness :
  EWarnChecksum "v1_a.sql" (row_checksum old_row) (toy_md5 "CREATE a ${X}")
    ∈ events (get_pending_migrations toy_md5 runner connected) ↔
  ∃ content row,
    migrations_dir runner !! "v1_a.sql" = Some content ∧
    Str.endswith "v1_a.sql" ".sql" = true ∧
    row ∈ [old_row] ∧ row_script row = "v1_a.sql" ∧
    row_checksum row = row_checksum old_row ∧
    toy_md5 content = toy_md5 "CREATE a ${X}" ∧
    row_checksum old_row ≠ toy_md5 "CREATE a ${X}".
Proof.
  apply (checksum_warnings_are_the_drifted_files toy_md5 runner connected [old_row]).
  - reflexivity.
  - apply NoDup_singleton.
Defined.

Lemma apply_migration_witness :
  let m := descriptor toy_md5 "v3_c.sql" "CREATE c" in
  let R := apply_migration toy_execute_ok toy_commit_ok runner m false connected in
  match Text.decode "CREATE c" with
  | None => R = mkRun (Raised UnicodeDecodeError) connected []
  | Some text =>
      let sql := Template.render_sql_template (template_vars runner) text in
      conn (final R) = Some empty_connection ∧
      match out R with
      | Returned true => history_of (final R) = history_of connected ++ [sql]
      | Returned false => history_of (final R) = history_of connected
      | Raised e =>
          e = Psycopg2Error ∧ store_row [old_row] (ledger_row runner m true) = None ∧
          ledger_of (final R) = Some [old_row] ∧
          (history_of (final R) = history_of connected ++ [sql] ∨
           history_of (final R) = history_of connected)
      end
  end.
Proof.
  apply (apply_migration_commits_what_it_reports toy_execute_ok toy_commit_ok runner
           (descriptor toy_md5 "v3_c.sql" "CREATE c") connected [old_row] "CREATE c").
  - by split_and!.
  - by vm_compute.
Defined.

Lemma seed_gives_up_witness :
  out (seed runner (Some seeds) false fresh_server) = Returned 1%Z ∧
  final (seed runner (Some seeds) false fresh_server) = fresh_server ∧
  Forall (λ e, e = EConnect false) (events (seed runner (Some seeds) false fresh_server)).
Proof.
  apply (seed_gives_up_without_directory_or_database toy_execute_ok toy_commit_ok
           runner (Some seeds) false fresh_server).
  right. right. reflexivity.
Defined.

Lemma seed_dry_run_witness :
  out (seed runner (Some seeds) true bare_database) = Returned 0%Z ∧
  final (seed runner (Some seeds) true bare_database) = set_conn None bare_database ∧
  events (seed runner (Some seeds) true bare_database) =
    EConnect true :: (seed_preview runner seeds <$> sorted (glob_sql seeds)) ++ [EClose] ∧
  ∀ f, f ∈ sorted (glob_sql seeds) →
       ∃ sql, seed_preview runner seeds f = EPreview KCallback f sql ∧
              Text.length sql ≤ 500.
Proof.
  apply (seed_dry_run_only_previews toy_execute_ok toy_commit_ok runner seeds bare_database).
  - reflexivity.
  - by eexists.
  - apply all_readable. by vm_compute.
Defined.

Lemma seed_failure_witness :
  out (seed runner (Some seeds) false bare_database) = Returned 1%Z ∧
  conn (final (seed runner (Some seeds) false bare_database)) = None ∧
  window [ERollback (SiteScript KCallback "s2.sql"); EScriptFailed KCallback "s2.sql"; EClose]
    (events (seed runner (Some seeds) false bare_database)) ∧
  ∀ c, Str.lt "s2.sql" c →
       ¬ executed (events (seed runner (Some seeds) false bare_database)) KCallback c.
Proof.
  apply (seed_stops_at_first_failure toy_execute_ok toy_commit_ok
           runner (Some seeds) false bare_database "s2.sql").
  left. exists "FAIL s". find_event.
Defined.

Lemma seed_commits_witness :
  ∃ done rest,
    sorted (glob_sql seeds) = done ++ rest ∧
    history_of (final (seed runner (Some seeds) false bare_database)) =
      history_of bare_database ++ (rendered runner seeds <$> done) ∧
    ledger_of (final (seed runner (Some seeds) false bare_database)) =
      ledger_of bare_database ∧
    (out (seed runner (Some seeds) false bare_database) = Returned 0%Z ∧
     conn (final (seed runner (Some seeds) false bare_database)) = None ∧ rest = [] ∨
     out (seed runner (Some seeds) false bare_database) = Returned 1%Z ∧
     conn (final (seed runner (Some seeds) false bare_database)) = None ∧
     (∃ f rest', rest = f :: rest' ∧
                 execution_failed (events (seed runner (Some seeds) false bare_database))
                   KCallback f) ∨
     out (seed runner (Some seeds) false bare_database) = Raised UnicodeDecodeError ∧
     conn (final (seed runner (Some seeds) false bare_database)) = Some empty_connection ∧
     (∃ f rest', rest = f :: rest' ∧ ¬ readable seeds f)).
Proof.
  apply (seed_commits_scripts_in_order toy_execute_ok toy_commit_ok runner seeds
           bare_database).
  - reflexivity.
  - by eexists.
Defined.

Lemma main_arguments_witness :
  main nameless_args ∅ fresh_server = mkRun (Raised (SystemExit 1)) fresh_server [].
Proof.
  apply (main_checks_arguments_before_connecting toy_md5 toy_create_ok toy_execute_ok toy_commit_ok
           nameless_args ∅ fresh_server).
  left. reflexivity.
Defined.

Lemma main_info_witness :
  out (main info_args ∅ fresh_server) = Raised (SystemExit 0) ∧
  (reachable fresh_server = false ∨ target fresh_server = None →
   events (main info_args ∅ fresh_server) = [EConnect false] ∧
   final (main info_args ∅ fresh_server) = set_conn None fresh_server).
Proof.
  apply (main_info_exits_with_0 toy_md5 toy_create_ok toy_execute_ok toy_commit_ok
           info_args ∅ fresh_server).
  - split_and!; try reflexivity. by eexists.
  - reflexivity.
Defined.

(** A seed run on the small installation: the first script is rendered
    and committed, the second fails, the third is not run. *)
Example seed_run :
  events (seed runner (Some seeds) false bare_database) =
    [EConnect true;
     EExecute KCallback "s1.sql" "INSERT a 5" true;
     ECommit (SiteScript KCallback "s1.sql") true;
     EExecute KCallback "s2.sql" "FAIL s" false;
     ERollback (SiteScript KCallback "s2.sql");
     EScriptFailed KCallback "s2.sql"; EClose] ∧
  history_of (final (seed runner (Some seeds) false bare_database)) = ["INSERT a 5"].
Proof. split; by vm_compute. Qed.

(** The exit status of the three commands on a server without the target
    database: [migrate] creates it and applies both files, [seed] cannot
    connect, [info] reports that and exits with 0. *)
Example main_exit_statuses :
  exit_status (out (main (mkArgs CmdMigrate false (Some "db") (Some "alice") (Some "secret")
                            (Some good_migrations) None None) ∅ fresh_server)) = 0%Z ∧
  exit_status (out (main (mkArgs CmdSeed false (Some "db") (Some "alice") (Some "secret")
                            (Some good_migrations) None (Some seeds)) ∅ fresh_server)) = 1%Z ∧
  exit_status (out (main info_args ∅ fresh_server)) = 0%Z ∧
  exit_status (out (main (mkArgs CmdMigrate false (Some "db") (Some "alice") (Some "secret")
                            (Some good_migrations) None None) ∅
                       (mkWorld false None None))) = 1%Z.
Proof. by vm_compute. Qed.

Example migrations_run_example :
  migrations_run (events (migrate runner false fresh_server)) = ["v1_a.sql"; "v2_b.sql"] ∧
  callbacks_run (events (migrate good_runner false fresh_server)) = ["cb1.sql"; "cb2.sql"] ∧
  callbacks_run (events (migrate broken_runner false fresh_server)) = ["cb1.sql"].
Proof. split_and!; by vm_compute. Qed.

(** A seed file that cannot be read: the scripts before it stay
    committed, [seed] raises and the connection stays open; [main] turns
    the exception into exit status 1. *)
Example seed_unreadable_file :
  let dir : Directory := {[ "s1.sql" := "INSERT a"; "s2.sql" := not_text ]} in
  seed runner (Some dir) false bare_database =
    mkRun (Raised UnicodeDecodeError)
      (mkWorld true (Some (mkDatabase None ["INSERT a"])) (Some empty_connection))
      [EConnect true; EExecute KCallback "s1.sql" "INSERT a" true;
       ECommit (SiteScript KCallback "s1.sql") true] ∧
  exit_status (out (main (mkArgs CmdSeed false (Some "db") (Some "alice") (Some "secret")
                            (Some good_migrations) None (Some dir)) ∅ bare_database)) = 1%Z.
Proof. split; by vm_compute. Qed.

End MoreExamples.
